(** * MySQL Explorer: the read-only query gate and the result exporter

    A shallow embedding of [src/mysql_explorer.py] (the stdio server) and of
    [read_query] of [src/mysql_explorer_sse/mysql_explorer_sse.py] (the SSE
    server), with the properties of the specification stated over them.

    Python [str] values are lists of characters.  A character is a code
    point in U+0000..U+00FF, carried by [ascii]; the built-in [str] methods
    the code calls are given with Python's behaviour on that range. *)

From Stdlib Require Import String Ascii List ZArith NArith Bool Lia DecimalString.
From Stdlib Require Import Sorted Permutation.
Import ListNotations.

Set Implicit Arguments.

(** ** Python strings *)

Module PyStr.

Definition text := list ascii.

Definition str (s : string) : text := list_ascii_of_string s.
Arguments str _%_string.

Definition code (c : ascii) : N := N_of_ascii c.

Definition between (lo hi : N) (c : ascii) : bool :=
  (N.leb lo (code c) && N.leb (code c) hi)%bool.

Definition is_code (n : N) (c : ascii) : bool := N.eqb (code c) n.

(** [c.isspace()]: TAB..CR, FS..US, SPACE, NEL and NBSP. *)
Definition isspace (c : ascii) : bool :=
  between 9 13 c || between 28 32 c || is_code 133 c || is_code 160 c.

(** [c.isalnum()]: letters, decimal digits and the other numeric characters
    (superscripts and vulgar fractions) of the range. *)
Definition isalnum (c : ascii) : bool :=
  between 48 57 c || between 65 90 c || between 97 122 c
  || is_code 170 c || between 178 179 c || is_code 181 c
  || between 185 186 c || between 188 190 c
  || between 192 214 c || between 216 246 c || between 248 255 c.

(** One character of [s.lower()]. *)
Definition lower_char (c : ascii) : ascii :=
  if between 65 90 c || between 192 214 c || between 216 222 c
  then ascii_of_N (code c + 32) else c.

Definition lower (s : text) : text := map lower_char s.

(** One character of [s.upper()].  Sharp s becomes two letters; the images
    of U+00B5 and U+00FF lie outside the range and are no ASCII letter, so
    the characters are left in place. *)
Definition upper_char (c : ascii) : text :=
  if between 97 122 c || between 224 246 c || between 248 254 c
  then [ascii_of_N (code c - 32)]
  else if is_code 223 c then ["S"; "S"]%char else [c].

Definition upper (s : text) : text := flat_map upper_char s.

Fixpoint text_eqb (a b : text) : bool :=
  match a, b with
  | [], [] => true
  | x :: a', y :: b' => Ascii.eqb x y && text_eqb a' b'
  | _, _ => false
  end.

Fixpoint lstrip (s : text) : text :=
  match s with
  | c :: r => if isspace c then lstrip r else s
  | [] => []
  end.

Definition rstrip (s : text) : text := rev (lstrip (rev s)).

(** [s.strip()] *)
Definition strip (s : text) : text := rstrip (lstrip s).

(** [s.startswith(p)] *)
Fixpoint startswith (p s : text) : bool :=
  match p, s with
  | [], _ => true
  | x :: p', y :: s' => Ascii.eqb x y && startswith p' s'
  | _ :: _, [] => false
  end.

(** [s.endswith(p)] *)
Definition endswith (p s : text) : bool := startswith (rev p) (rev s).

(** [sub in s] *)
Fixpoint contains (sub s : text) : bool :=
  startswith sub s ||
  match s with
  | [] => false
  | _ :: r => contains sub r
  end.

(** [s.split()]: the maximal runs of non-space characters, in order.
    [cur] is the run being read, latest character first. *)
Fixpoint split_from (cur : text) (s : text) : list text :=
  match s with
  | [] => match cur with [] => [] | _ => [rev cur] end
  | c :: r =>
      if isspace c
      then match cur with [] => split_from [] r | _ => rev cur :: split_from [] r end
      else split_from (c :: cur) r
  end.

Definition split (s : text) : list text := split_from [] s.

(** [sep.join(parts)] *)
Fixpoint join (sep : text) (parts : list text) : text :=
  match parts with
  | [] => []
  | [p] => p
  | p :: rest => p ++ sep ++ join sep rest
  end.

(** [s.replace(old, new)] for a non-empty [old]: occurrences are taken left
    to right without overlap; [skip] counts the characters of the
    occurrence just replaced that are still to be passed over. *)
Fixpoint replace_from (old new : text) (skip : nat) (s : text) : text :=
  match s with
  | [] => []
  | c :: r =>
      match skip with
      | S k => replace_from old new k r
      | O => if startswith old s
             then new ++ replace_from old new (length old - 1) r
             else c :: replace_from old new 0 r
      end
  end.

Definition replace (old new s : text) : text := replace_from old new 0 s.

(** [s.replace(a, b)] for single characters. *)
Definition replace_char (a b : ascii) (s : text) : text :=
  map (fun c => if Ascii.eqb c a then b else c) s.

(** [s.replace(a, '')] for a single character. *)
Definition remove_char (a : ascii) (s : text) : text :=
  filter (fun c => negb (Ascii.eqb c a)) s.

(** What follows the first [sep] of [s]; [s] has one. *)
Fixpoint after_first (sep : ascii) (s : text) : text :=
  match s with
  | [] => []
  | c :: r => if Ascii.eqb c sep then r else after_first sep r
  end.

(** [s.rsplit(sep, 1)[0]]: what precedes the last [sep], or [s] when it has
    none. *)
Definition rsplit1_head (sep : ascii) (s : text) : text :=
  if existsb (Ascii.eqb sep) s then rev (after_first sep (rev s)) else s.

(** [str(n)] for an [int]. *)
Definition str_of_int (n : Z) : text :=
  str (NilZero.string_of_int (Z.to_int n)).

End PyStr.

(** ** The two regular-expression calls of the keyword check *)

Module Regex.
Import PyStr.

(** [re.sub(q + '[^' + q + ']*' + q, repl, s)] for a quote character [q].
    A match starts at a [q] that has a later [q] and ends at the nearest
    one; matches are taken left to right without overlap.  [inside] holds
    while the scan is between the two quotes of a match, whose characters
    are dropped. *)
Fixpoint sub_quoted (q : ascii) (repl : text) (inside : bool) (s : text)
    : text :=
  match s with
  | [] => []
  | c :: r =>
      if inside
      then if Ascii.eqb c q then sub_quoted q repl false r
           else sub_quoted q repl true r
      else if Ascii.eqb c q
           then if existsb (Ascii.eqb q) r
                then repl ++ sub_quoted q repl true r
                else c :: sub_quoted q repl false r
           else c :: sub_quoted q repl false r
  end.

Definition re_sub_quoted (q : ascii) (repl s : text) : text :=
  sub_quoted q repl false s.

(** [\w] on [str]: alphanumeric or underscore; no character counts as a
    non-word one. *)
Definition is_word (c : option ascii) : bool :=
  match c with
  | Some c => isalnum c || Ascii.eqb c "_"
  | None => false
  end.

(** [\b] between two neighbouring positions. *)
Definition at_boundary (before after : option ascii) : bool :=
  xorb (is_word before) (is_word after).

Definition last_of (before : option ascii) (w : text) : option ascii :=
  match rev w with
  | c :: _ => Some c
  | [] => before
  end.

(** Does [\b] + [re.escape(kw)] + [\b] match at the head of [s], the
    character before it being [before]? *)
Definition match_word_here (before : option ascii) (kw s : text) : bool :=
  at_boundary before (hd_error s)
  && startswith kw s
  && at_boundary (last_of before kw) (hd_error (skipn (length kw) s)).

Fixpoint search_word_from (before : option ascii) (kw s : text) : bool :=
  match_word_here before kw s ||
  match s with
  | [] => false
  | c :: r => search_word_from (Some c) kw r
  end.

(** [re.search(r'\b' + re.escape(kw) + r'\b', s)] as a truth value. *)
Definition re_search_word (kw s : text) : bool := search_word_from None kw s.

End Regex.

(** ** Values shared by the two servers *)

Module Py.
Import PyStr.

(** The values a result cell or a bind parameter holds. *)
Inductive Value :=
| VNone
| VBool (b : bool)
| VInt (n : Z)
| VStr (s : text).

(** A result row: a [dict] from column name to value, in column order. *)
Definition Row := list (text * Value).

Inductive Exc :=
| ValueError (msg : text)
| MySQLError (msg : text)       (* pymysql.Error *)
| OSError (msg : text)
| TypeError (msg : text)
| IndexError (msg : text)
| OtherError (msg : text).

(** [str(e)] *)
Definition exc_str (e : Exc) : text :=
  match e with
  | ValueError m | MySQLError m | OSError m | TypeError m | IndexError m
  | OtherError m => m
  end.

Inductive Result (A : Type) :=
| Return (a : A)
| Raise (e : Exc).
Arguments Return {A} a.
Arguments Raise {A} e.

Record Config := {
  host : text;
  port : Z;
  user : text;
  password : text;
  database : text
}.

(** What the driver answers to [cursor.execute] followed by the fetch:
    the cursor description and the rows of the result set, or the
    exception raised. *)
Inductive ExecResult :=
| Fetched (description : option (list text)) (rows : list Row)
| Failed (e : Exc).

(** The collaborators of a call: process environment, the interpreter's
    [int] on text, the database driver and the clock. *)
Record Runtime := {
  rt_getenv : text -> option text;
  rt_int : text -> option Z;
  rt_connect : Config -> option Exc;
  rt_execute : text -> list Value -> ExecResult;
  rt_now_iso : text
}.

Inductive Event :=
| EvConnect (c : Config)
| EvExecute (sql : text) (params : list Value)
| EvClose.

(** [os.getenv(key, default)] *)
Definition getenv_or (rt : Runtime) (key default : text) : text :=
  match rt_getenv rt key with
  | Some v => v
  | None => default
  end.

(** Truth value of a [str]. *)
Definition truthy (s : text) : bool :=
  match s with [] => false | _ => true end.

Definition DQ : ascii := ascii_of_N 34.

End Py.

(** ** [src/mysql_explorer.py]: [read_query] *)

Module Explorer.
Import PyStr Regex Py.

Inductive Reason :=
| MultipleStatements
| NotReadOnly
| DangerousKeyword (keyword : text).

Inductive Verdict :=
| Accepted (query : text)
| Rejected (why : Reason).

(** Lines 63-67: strip, then drop one trailing semicolon and strip again. *)
Definition trim_query (query : text) : text :=
  let query := strip query in
  if endswith (str ";") query then strip (removelast query) else query.

(** The loop of [contains_multiple_statements], entered with the three
    flags of the scanner. *)
Fixpoint scan_statements (in_single_quote in_double_quote escaped : bool)
    (sql : text) : bool :=
  match sql with
  | [] => false
  | char :: rest =>
      if escaped then scan_statements in_single_quote in_double_quote false rest
      else if Ascii.eqb char "\"
      then scan_statements in_single_quote in_double_quote true rest
      else if Ascii.eqb char "'" && negb in_double_quote
      then scan_statements (negb in_single_quote) in_double_quote false rest
      else if Ascii.eqb char DQ && negb in_single_quote
      then scan_statements in_single_quote (negb in_double_quote) false rest
      else if Ascii.eqb char ";" && negb in_single_quote && negb in_double_quote
      then true
      else scan_statements in_single_quote in_double_quote false rest
  end.

Definition contains_multiple_statements (sql : text) : bool :=
  scan_statements false false false sql.

(** [' '.join(s.lower().split())] *)
Definition normalize (s : text) : text := join (str " ") (split (lower s)).

Definition allowed_prefixes : list text :=
  [str "select"; str "show"; str "describe"; str "desc"; str "explain";
   str "with"].

Definition dangerous_keywords : list text :=
  [str "insert"; str "update"; str "delete"; str "drop"; str "create";
   str "alter"; str "truncate"; str "replace"; str "merge"; str "call";
   str "exec"; str "execute"; str "grant"; str "revoke"; str "set";
   str "reset"; str "flush"; str "kill"; str "load"; str "import";
   str "outfile"; str "dumpfile"; str "into outfile"; str "into dumpfile";
   str "load_file"].

(** The three [re.sub] calls of [contains_dangerous_keywords]. *)
Definition strip_literals (sql : text) : text :=
  re_sub_quoted "`" (str "``")
    (re_sub_quoted DQ [DQ; DQ] (re_sub_quoted "'" (str "''") sql)).

(** The [for keyword in ...] loop over the cleaned text. *)
Fixpoint first_keyword (keywords : list text) (cleaned_sql : text)
    : bool * text :=
  match keywords with
  | [] => (false, [])
  | keyword :: rest =>
      if re_search_word keyword cleaned_sql then (true, keyword)
      else first_keyword rest cleaned_sql
  end.

Definition contains_dangerous_keywords (sql : text) : bool * text :=
  let cleaned_sql := normalize (strip_literals sql) in
  first_keyword dangerous_keywords cleaned_sql.

(** Lines 62-143 of [read_query]: the checks that come before the
    connection, with the trimmed text as the accepted one. *)
Definition validate (query : text) : Verdict :=
  let query := trim_query query in
  if contains_multiple_statements query then Rejected MultipleStatements
  else
    let query_normalized := normalize query in
    if negb (existsb (fun prefix => startswith prefix query_normalized)
                     allowed_prefixes)
    then Rejected NotReadOnly
    else
      let (has_dangerous, dangerous_word) :=
        contains_dangerous_keywords query_normalized in
      if has_dangerous then Rejected (DangerousKeyword dangerous_word)
      else Accepted query.

(** The message of the [ValueError] of each rejection. *)
Definition rejection_message (why : Reason) : text :=
  match why with
  | MultipleStatements => str "Multiple SQL statements are not allowed"
  | NotReadOnly =>
      str "Only SELECT, WITH, SHOW, DESCRIBE, and EXPLAIN queries are allowed"
  | DangerousKeyword w =>
      str "Query contains potentially dangerous keyword '" ++ w
      ++ str "'. Only read-only operations are allowed."
  end.

Definition get_db_config (rt : Runtime) : Result Config :=
  match rt_int rt (getenv_or rt (str "MYSQL_PORT") (str "3306")) with
  | None => Raise (ValueError (str "invalid literal for int() with base 10"))
  | Some p =>
      let config :=
        {| host := getenv_or rt (str "MYSQL_HOST") (str "127.0.0.1");
           port := p;
           user := getenv_or rt (str "MYSQL_USER") (str "root");
           password := getenv_or rt (str "MYSQL_PASSWORD") (str "123456");
           database := getenv_or rt (str "MYSQL_DATABASE") (str "aircraft") |} in
      if truthy (user config) && truthy (password config)
         && truthy (database config)
      then Return config
      else Raise (ValueError (str "Missing required database configuration. Please check environment variables: MYSQL_USER, MYSQL_PASSWORD, and MYSQL_DATABASE are required"))
  end.

(** Line 152: does the executed text get the limit clause? *)
Definition injects_limit (query_normalized : text) : bool :=
  negb (contains (str "limit") query_normalized)
  && startswith (str "select") query_normalized.

(** Lines 152-153: the text handed to [cursor.execute]. *)
Definition executed_text (query : text) (row_limit : Z) : text :=
  if injects_limit (normalize query)
  then query ++ str " LIMIT " ++ str_of_int row_limit
  else query.

Record Metadata := {
  meta_query : text;
  meta_params : list Value;
  meta_row_count : nat;
  meta_fetch_all : bool;
  meta_row_limit : Z;
  meta_timestamp : text
}.

Record Response := {
  data : list Row;
  metadata : Metadata
}.

(** [read_query]: the events on the database connection, in order, and the
    value returned or the exception raised. *)
Definition read_query (rt : Runtime) (query : text)
    (params : option (list Value)) (fetch_all : bool) (row_limit : Z)
    : list Event * Result Response :=
  match get_db_config rt with
  | Raise e => ([], Raise e)
  | Return config =>
      match validate query with
      | Rejected why => ([], Raise (ValueError (rejection_message why)))
      | Accepted query =>
          let params := match params with Some p => p | None => [] end in
          match rt_connect rt config with
          | Some e => ([EvConnect config], Raise e)
          | None =>
              let query := executed_text query row_limit in
              let events := [EvConnect config; EvExecute query params; EvClose] in
              match rt_execute rt query params with
              | Failed (MySQLError m) =>
                  (events, Raise (ValueError (str "MySQL error: " ++ m)))
              | Failed e => (events, Raise e)
              | Fetched _ rows =>
                  let results :=
                    if fetch_all then map Some rows else [hd_error rows] in
                  let result_data :=
                    flat_map (fun row => match row with
                                         | Some r => [r]
                                         | None => []
                                         end) results in
                  (events,
                   Return {| data := result_data;
                             metadata :=
                               {| meta_query := query;
                                  meta_params := params;
                                  meta_row_count := length result_data;
                                  meta_fetch_all := fetch_all;
                                  meta_row_limit := row_limit;
                                  meta_timestamp := rt_now_iso rt |} |})
              end
          end
      end
  end.

End Explorer.

(** ** [src/mysql_explorer_sse/mysql_explorer_sse.py]: [read_query] *)

Module ExplorerSSE.
Import PyStr Regex Py.

Inductive Reason :=
| MultipleStatements
| DangerousOperation (keyword : text)
| NotReadOnly.

Inductive Verdict :=
| Accepted (query : text)
| Rejected (why : Reason).

(** Lines 96-100. *)
Definition trim_query (query : text) : text :=
  let query := strip query in
  if endswith (str ";") query then strip (removelast query) else query.

(** The loop of this file's [contains_multiple_statements]: two flags, no
    escape flag. *)
Fixpoint scan_statements (in_single_quote in_double_quote : bool)
    (sql : text) : bool :=
  match sql with
  | [] => false
  | char :: rest =>
      if Ascii.eqb char "'" && negb in_double_quote
      then scan_statements (negb in_single_quote) in_double_quote rest
      else if Ascii.eqb char DQ && negb in_single_quote
      then scan_statements in_single_quote (negb in_double_quote) rest
      else if Ascii.eqb char ";" && negb in_single_quote && negb in_double_quote
      then true
      else scan_statements in_single_quote in_double_quote rest
  end.

Definition contains_multiple_statements (sql : text) : bool :=
  scan_statements false false sql.

Definition dangerous_keywords : list text :=
  [str "DROP"; str "DELETE"; str "UPDATE"; str "INSERT"; str "ALTER";
   str "CREATE"; str "TRUNCATE"; str "REPLACE"; str "GRANT"; str "REVOKE";
   str "SET"; str "CALL"; str "EXECUTE"; str "PREPARE"; str "DEALLOCATE";
   str "LOCK"; str "UNLOCK"; str "START TRANSACTION"; str "COMMIT";
   str "ROLLBACK"; str "SAVEPOINT"].

Fixpoint first_keyword (keywords : list text) (sql_upper : text)
    : bool * text :=
  match keywords with
  | [] => (false, [])
  | keyword :: rest =>
      if contains keyword sql_upper then (true, keyword)
      else first_keyword rest sql_upper
  end.

Definition contains_dangerous_keywords (sql : text) : bool * text :=
  let sql_no_strings :=
    re_sub_quoted DQ [] (re_sub_quoted "'" [] sql) in
  first_keyword dangerous_keywords (upper sql_no_strings).

Definition allowed_prefixes : list text :=
  [str "select"; str "show"; str "describe"; str "desc"; str "explain";
   str "with"].

(** Lines 96-147: the checks that come before the connection. *)
Definition validate (query : text) : Verdict :=
  let query := trim_query query in
  if contains_multiple_statements query then Rejected MultipleStatements
  else
    let query_lower := strip (lower query) in
    if negb (existsb (fun prefix => startswith prefix query_lower)
                     allowed_prefixes)
    then
      let (is_dangerous, dangerous_keyword) :=
        contains_dangerous_keywords query in
      if is_dangerous then Rejected (DangerousOperation dangerous_keyword)
      else Rejected NotReadOnly
    else Accepted query.

(** Line 156. *)
Definition injects_limit (query_lower : text) : bool :=
  startswith (str "select") query_lower
  && negb (contains (str "limit") query_lower).

Definition executed_text (query : text) (row_limit : Z) : text :=
  if injects_limit (strip (lower query))
  then query ++ str " LIMIT " ++ str_of_int row_limit
  else query.

Record QueryInfo := {
  info_query : text;
  info_params : list Value;
  info_row_limit : Z
}.

Record Response := {
  data : list Row;
  row_count : nat;
  columns : list text;
  query_info : QueryInfo
}.

(** [os.getenv(key)] taken for its truth value and text. *)
Definition getenv_text (rt : Runtime) (key : text) : text :=
  match rt_getenv rt key with
  | Some v => v
  | None => []
  end.

Definition get_db_config (rt : Runtime) : Result Config :=
  match rt_int rt (getenv_or rt (str "MYSQL_PORT") (str "3306")) with
  | None => Raise (ValueError (str "invalid literal for int() with base 10"))
  | Some p =>
      let config :=
        {| host := getenv_or rt (str "MYSQL_HOST") (str "localhost");
           port := p;
           user := getenv_text rt (str "MYSQL_USER");
           password := getenv_text rt (str "MYSQL_PASSWORD");
           database := getenv_text rt (str "MYSQL_DATABASE") |} in
      if truthy (user config) && truthy (password config)
         && truthy (database config)
      then Return config
      else Raise (ValueError (str "missing database configuration"))
  end.

(** The messages of this file are Chinese text, outside the character
    range of the model; they are given in translation. *)
Definition rejection_message (why : Reason) : text :=
  match why with
  | MultipleStatements => str "multiple statements are not allowed"
  | DangerousOperation w =>
      str "dangerous operation detected: " ++ w
      ++ str ". Only SELECT, SHOW, DESCRIBE, EXPLAIN and WITH are allowed."
  | NotReadOnly =>
      str "Only SELECT, SHOW, DESCRIBE, EXPLAIN and WITH are allowed."
  end.

Definition read_query (rt : Runtime) (query : text)
    (params : option (list Value)) (fetch_all : bool) (row_limit : Z)
    : list Event * Result Response :=
  match get_db_config rt with
  | Raise e => ([], Raise e)
  | Return config =>
      match validate query with
      | Rejected why => ([], Raise (ValueError (rejection_message why)))
      | Accepted query =>
          let params := match params with Some p => p | None => [] end in
          match rt_connect rt config with
          | Some e => ([EvConnect config], Raise e)
          | None =>
              let query := executed_text query row_limit in
              let events := [EvConnect config; EvExecute query params; EvClose] in
              match rt_execute rt query params with
              | Failed (MySQLError m) =>
                  (events, Raise (ValueError (str "MySQL error: " ++ m)))
              | Failed e => (events, Raise e)
              | Fetched description rows =>
                  let results :=
                    if fetch_all then rows
                    else match rows with
                         | ((_ :: _) as result) :: _ => [result]
                         | _ => []
                         end in
                  let columns :=
                    match description with
                    | Some ((_ :: _) as d) => d
                    | _ => []
                    end in
                  (events,
                   Return {| data := results;
                             row_count := length results;
                             columns := columns;
                             query_info :=
                               {| info_query := query;
                                  info_params := params;
                                  info_row_limit := row_limit |} |})
              end
          end
      end
  end.

End ExplorerSSE.

(** ** [src/mysql_explorer.py]: [save_query_results] *)

Module Exporter.
Import PyStr Py.

(** What a written file holds: the document handed to the serialiser. *)
Inductive FileBody :=
| JsonExport (timestamp query : text) (params : option (list Value))
    (row_count : nat) (filename : text) (data : list Row)
| CsvTable (fieldnames : list text) (rows : list (list (option Value)))
| CsvMetadata (timestamp query : text) (params : option (list Value))
    (row_count : nat) (csv_file : text).

(** The machine the export runs on: which directory creations and file
    openings fail and how, the byte size a document is stored in, the clock
    in the two formats the code asks for, [format_file_size], whose
    floating-point formatting is left to the host, and the text that
    [csv.DictWriter] makes of the keys it refuses: their [repr]s joined by
    a comma and a space, in the iteration order of a set. *)
Record Host := {
  makedirs_error : text -> option Exc;
  open_error : text -> option Exc;
  encoded_size : FileBody -> Z;
  now_stamp : text;
  now_iso : text;
  format_file_size : Z -> text;
  wrong_fields_text : list text -> text
}.

(** The state the export changes: the files by path and the lines printed. *)
Record Disk := {
  files : text -> option FileBody;
  stdout : list text
}.

Definition put_file (d : Disk) (path : text) (body : FileBody) : Disk :=
  {| files := fun p => if text_eqb p path then Some body else files d p;
     stdout := stdout d |}.

Definition print (d : Disk) (line : text) : Disk :=
  {| files := files d; stdout := stdout d ++ [line] |}.

(** [with open(path, 'w') as f: dump(body, f)] *)
Definition write_file (h : Host) (d : Disk) (path : text) (body : FileBody)
    : Disk * Result unit :=
  match open_error h path with
  | Some e => (d, Raise e)
  | None => (put_file d path body, Return tt)
  end.

(** Line 199: the characters a custom name keeps. *)
Definition keep_custom (c : ascii) : bool :=
  isalnum c
  || (Ascii.eqb c " " || Ascii.eqb c "_" || Ascii.eqb c "-" || Ascii.eqb c ".").

(** Line 211: the characters the query snippet keeps. *)
Definition keep_auto (c : ascii) : bool :=
  isalnum c || (Ascii.eqb c " " || Ascii.eqb c "_" || Ascii.eqb c "-").

Definition LF : ascii := ascii_of_N 10.
Definition CR : ascii := ascii_of_N 13.

(** Lines 199-203: the base name made of a custom name. *)
Definition safe_filename (custom_filename : text) : text :=
  let safe := strip (filter keep_custom custom_filename) in
  let safe := replace_char " " "_" safe in
  if existsb (Ascii.eqb ".") safe then rsplit1_head "." safe else safe.

(** Lines 210-212: the part of an automatic name made of the query. *)
Definition safe_query (query : text) : text :=
  let query_snippet := firstn 50 (remove_char CR (replace_char LF " " query)) in
  replace_char " " "_" (strip (filter keep_auto query_snippet)).

(** Lines 197-214. *)
Definition resolve_filename (h : Host) (query file_format : text)
    (custom_filename : option text) : text :=
  match custom_filename with
  | Some ((_ :: _) as name) => safe_filename name ++ str "." ++ file_format
  | _ =>
      str "query_" ++ now_stamp h ++ str "_" ++ safe_query query
      ++ str "." ++ file_format
  end.

(** [rowdict.get(key)] *)
Fixpoint row_get (key : text) (row : Row) : option Value :=
  match row with
  | [] => None
  | (k, v) :: rest => if text_eqb k key then Some v else row_get key rest
  end.

(** [rowdict.keys() - self.fieldnames]: the keys of the row that are no
    field name. *)
Definition wrong_fields (fieldnames : list text) (row : Row) : list text :=
  filter (fun key => negb (existsb (text_eqb key) fieldnames)) (map fst row).

(** [DictWriter._dict_to_list]: a key outside the field names raises, and
    the message lists the offending keys. *)
Definition dict_to_list (h : Host) (fieldnames : list text) (row : Row)
    : Result (list (option Value)) :=
  match wrong_fields fieldnames row with
  | [] => Return (map (fun k => row_get k row) fieldnames)
  | wrong =>
      Raise (ValueError (str "dict contains fields not in fieldnames: "
                         ++ wrong_fields_text h wrong))
  end.

(** [writer.writerows(data)]: the rows written before the first failure,
    and the failure if there is one. *)
Fixpoint writerows (h : Host) (fieldnames : list text) (data : list Row)
    : list (list (option Value)) * option Exc :=
  match data with
  | [] => ([], None)
  | row :: rest =>
      match dict_to_list h fieldnames row with
      | Raise e => ([], Some e)
      | Return cells =>
          let (written, failure) := writerows h fieldnames rest in
          (cells :: written, failure)
      end
  end.

(** The descriptor of a written export, or the mapping of the [except]
    branch. *)
Inductive Saved :=
| SavedFile (filename format size : text) (row_count : nat)
| SaveFailed (error : text) (row_count : nat).

Definition saved_row_count (s : Saved) : nat :=
  match s with
  | SavedFile _ _ _ n | SaveFailed _ n => n
  end.

Section Call.

Variable h : Host.
Variables (query : text) (data : list Row) (file_format : text)
          (params : option (list Value)).

(** Lines 219-255: the branch on the format, up to the files it writes. *)
Definition write_files (d : Disk) (filename filepath : text)
    : Disk * Result unit :=
  if text_eqb (lower file_format) (str "json") then
    write_file h d filepath
      (JsonExport (now_iso h) query params (length data) filename data)
  else if text_eqb (lower file_format) (str "csv") then
    match data with
    | [] => (d, Return tt)
    | first :: _ =>
        let fieldnames := map fst first in
        match open_error h filepath with
        | Some e => (d, Raise e)
        | None =>
            let (rows, failure) := writerows h fieldnames data in
            let d := put_file d filepath (CsvTable fieldnames rows) in
            match failure with
            | Some e => (d, Raise e)
            | None =>
                let metadata_filepath :=
                  replace (str ".csv") (str "_metadata.json") filepath in
                write_file h d metadata_filepath
                  (CsvMetadata (now_iso h) query params (length data) filename)
            end
        end
    end
  else
    (d, Raise (ValueError (str "Unsupported file format: " ++ file_format
                           ++ str ". Use 'json' or 'csv'."))).

(** Lines 219-268: the body of the [try]. *)
Definition write_phase (d : Disk) (filename filepath : text)
    : Disk * Result Saved :=
  match write_files d filename filepath with
  | (d, Raise e) => (d, Raise e)
  | (d, Return _) =>
      match files d filepath with
      | None =>
          (d, Raise (OSError (str "[Errno 2] No such file or directory: '"
                              ++ filepath ++ str "'")))
      | Some body =>
          (print d (str "SUCCESS: Query results saved to: " ++ filepath),
           Return (SavedFile filename file_format
                     (format_file_size h (encoded_size h body))
                     (length data)))
      end
  end.

(** [save_query_results]: the disk after the call and the mapping returned
    or the exception raised. *)
Definition save_query_results (d : Disk) (custom_filename : option text)
    : Disk * Result Saved :=
  match makedirs_error h (str "temp_data") with
  | Some e => (d, Raise e)
  | None =>
      let filename := resolve_filename h query file_format custom_filename in
      let filepath := str "temp_data/" ++ filename in
      match write_phase d filename filepath with
      | (d, Return saved) => (d, Return saved)
      | (d, Raise e) =>
          (print d (str "WARNING: Failed to save query results to file: "
                    ++ exc_str e),
           Return (SaveFailed (str "Failed to save file: " ++ exc_str e)
                              (length data)))
      end
  end.

End Call.

End Exporter.

(** ** The scanner as the specification words it

    Section 4.1: three flags; a backslash marks the next character as
    escaped, and an escaped character changes nothing; an apostrophe
    toggles the single-quote flag outside a double-quoted region, a double
    quote toggles the double-quote flag outside a single-quoted region.  A
    text holds a statement boundary when a semicolon is read with the
    three flags down. *)

Module ScannerSpec.
Import PyStr Py.

Record QuoteState := {
  in_single : bool;
  in_double : bool;
  escaped : bool
}.

Definition start : QuoteState :=
  {| in_single := false; in_double := false; escaped := false |}.

Definition advance (st : QuoteState) (c : ascii) : QuoteState :=
  if escaped st
  then {| in_single := in_single st; in_double := in_double st;
          escaped := false |}
  else if Ascii.eqb c "\"
  then {| in_single := in_single st; in_double := in_double st;
          escaped := true |}
  else if Ascii.eqb c "'"
  then if in_double st then st
       else {| in_single := negb (in_single st); in_double := false;
               escaped := false |}
  else if Ascii.eqb c DQ
  then if in_single st then st
       else {| in_single := false; in_double := negb (in_double st);
               escaped := false |}
  else st.

Definition state_after (st : QuoteState) (read : text) : QuoteState :=
  fold_left advance read st.

(** A semicolon of [sql] is read with the three flags down. *)
Definition has_boundary (sql : text) : Prop :=
  exists before after,
    sql = before ++ ";"%char :: after /\ state_after start before = start.

End ScannerSpec.

(** ** More of Python: comparison, [sorted], [str] of a value *)

Module PyMore.
Import PyStr Py.

(** [s.split(sep)] for a single character: the fields between the
    separators, at least one.  [cur] is the field being read, latest
    character first. *)
Fixpoint split_on_from (sep : ascii) (cur : text) (s : text) : list text :=
  match s with
  | [] => [rev cur]
  | c :: r =>
      if Ascii.eqb c sep then rev cur :: split_on_from sep [] r
      else split_on_from sep (c :: cur) r
  end.

Definition split_on (sep : ascii) (s : text) : list text :=
  split_on_from sep [] s.

(** [a < b] on [str]: lexicographic by code point. *)
Fixpoint text_ltb (a b : text) : bool :=
  match a, b with
  | _, [] => false
  | [], _ :: _ => true
  | x :: a', y :: b' =>
      N.ltb (code x) (code y) || (Ascii.eqb x y && text_ltb a' b')
  end.

(** [bool] is an [int]. *)
Definition as_number (v : Value) : option Z :=
  match v with
  | VInt n => Some n
  | VBool b => Some (if b then 1 else 0)%Z
  | _ => None
  end.

(** [type(v).__name__] *)
Definition type_name (v : Value) : text :=
  match v with
  | VNone => str "NoneType"
  | VBool _ => str "bool"
  | VInt _ => str "int"
  | VStr _ => str "str"
  end.

(** [a < b] on values: two texts, or two numbers; any other pair raises
    [TypeError], whose message names the types of the two operands. *)
Definition py_lt (a b : Value) : Result bool :=
  match a, b with
  | VStr s, VStr t => Return (text_ltb s t)
  | _, _ =>
      match as_number a, as_number b with
      | Some m, Some n => Return (Z.ltb m n)
      | _, _ =>
          Raise (TypeError (str "'<' not supported between instances of '"
                            ++ type_name a ++ str "' and '" ++ type_name b
                            ++ str "'"))
      end
  end.

(** One element put in its place in a sorted list, after the elements
    below it and before the others. *)
Fixpoint insert_sorted (x : Value) (l : list Value) : Result (list Value) :=
  match l with
  | [] => Return [x]
  | y :: rest =>
      match py_lt y x with
      | Raise e => Raise e
      | Return true =>
          match insert_sorted x rest with
          | Raise e => Raise e
          | Return rest' => Return (y :: rest')
          end
      | Return false => Return (x :: l)
      end
  end.

(** [sorted(l)]: the stable sort by [<].  It raises when two elements
    cannot be compared; the error is that of a comparison of two elements
    of the list, and which two it names depends on the order in which the
    sort compares, which is not modelled. *)
Fixpoint sorted (l : list Value) : Result (list Value) :=
  match l with
  | [] => Return []
  | x :: rest =>
      match sorted rest with
      | Raise e => Raise e
      | Return rest' => insert_sorted x rest'
      end
  end.

(** [str(v)] *)
Definition str_of_value (v : Value) : text :=
  match v with
  | VNone => str "None"
  | VBool true => str "True"
  | VBool false => str "False"
  | VInt n => str_of_int n
  | VStr s => s
  end.

End PyMore.

(** ** [src/mysql_explorer.py]: [format_file_size]

    The quotients are divisions by a power of two, exact in a double for
    every size below 2^53, and the format rounds the exact value to one
    decimal, ties to even; the function is given on that range. *)

Module FileSize.
Import PyStr.
Local Open Scope Z_scope.

(** Tenths in [size_bytes / unit], rounded to nearest, ties to even. *)
Definition tenths (size_bytes unit : Z) : Z :=
  let n := 10 * size_bytes in
  let q := n / unit in
  let r := n mod unit in
  if (unit <? 2 * r) || ((2 * r =? unit) && Z.odd q) then q + 1 else q.

(** The format [.1f] of a number of tenths. *)
Definition fixed1 (t : Z) : text :=
  (str_of_int (t / 10) ++ str "." ++ str_of_int (t mod 10))%list.

Definition format_file_size (size_bytes : Z) : text :=
  if size_bytes <? 1024 then (str_of_int size_bytes ++ str " B")%list
  else if size_bytes <? 1024 * 1024
  then (fixed1 (tenths size_bytes 1024) ++ str " KB")%list
  else if size_bytes <? 1024 * 1024 * 1024
  then (fixed1 (tenths size_bytes (1024 * 1024)) ++ str " MB")%list
  else (fixed1 (tenths size_bytes (1024 * 1024 * 1024)) ++ str " GB")%list.

End FileSize.

(** ** [src/mysql_explorer.py]: the schema tools *)

Module ExplorerTools.
Import PyStr Py PyMore.

(** What runs on an open connection: the statements executed, in order,
    and the value returned or the exception raised. *)
Definition Session (A : Type) : Type := (list Event * Result A)%type.

Definition ret {A : Type} (a : A) : Session A := ([], Return a).

Definition raise {A : Type} (e : Exc) : Session A := ([], Raise e).

(** [cursor.execute(sql, params)] and the fetch of its result set, then
    [k] on the rows.  A call without parameters is written with the empty
    list. *)
Definition execute {A : Type} (rt : Runtime) (sql : text)
    (params : list Value) (k : list Row -> Session A) : Session A :=
  match rt_execute rt sql params with
  | Failed e => ([EvExecute sql params], Raise e)
  | Fetched _ rows =>
      let (events, r) := k rows in (EvExecute sql params :: events, r)
  end.

(** [with MySQLConnection(config) as conn:] around a [try] whose handler
    turns a driver error into a [ValueError]. *)
Definition connected {A : Type} (rt : Runtime) (config : Result Config)
    (error_prefix : text) (body : Session A) : Session A :=
  match config with
  | Raise e => ([], Raise e)
  | Return config =>
      match rt_connect rt config with
      | Some e => ([EvConnect config], Raise e)
      | None =>
          let (events, r) := body in
          (EvConnect config :: events ++ [EvClose],
           match r with
           | Raise (MySQLError m) => Raise (ValueError (error_prefix ++ m))
           | _ => r
           end)
      end
  end.

(** Truth value of what [cursor.fetchone()] gives: a row that is not
    empty. *)
Definition row_truthy (row : option Row) : bool :=
  match row with
  | Some (_ :: _) => true
  | _ => false
  end.

(** [list(row.values())[i]] *)
Definition value_at (i : nat) (row : Row) : Result Value :=
  match nth_error row i with
  | Some (_, v) => Return v
  | None => Raise (IndexError (str "list index out of range"))
  end.

(** The loop of [list_tables] over the rows. *)
Fixpoint first_values (rows : list Row) : Result (list Value) :=
  match rows with
  | [] => Return []
  | row :: rest =>
      match value_at 0 row with
      | Raise e => Raise e
      | Return v =>
          match first_values rest with
          | Raise e => Raise e
          | Return vs => Return (v :: vs)
          end
      end
  end.

Definition of_result {A : Type} (r : Result A) : Session A := ([], r).

Definition list_tables (rt : Runtime) : Session (list Value) :=
  connected rt (Explorer.get_db_config rt) (str "MySQL error: ")
    (execute rt (str "SHOW TABLES") [] (fun results =>
       match first_values results with
       | Raise e => raise e
       | Return table_names => of_result (sorted table_names)
       end)).

(** The existence check shared by the three table tools, then [k]. *)
Definition table_checked {A : Type} (rt : Runtime) (table_name : text)
    (k : Session A) : Session A :=
  execute rt (str "SHOW TABLES LIKE %s") [VStr table_name] (fun rows =>
    if negb (row_truthy (hd_error rows))
    then raise (ValueError (str "Table '" ++ table_name
                            ++ str "' does not exist"))
    else k).

Definition describe_table (rt : Runtime) (table_name : text)
    : Session (list Row) :=
  connected rt (Explorer.get_db_config rt) (str "MySQL error: ")
    (table_checked rt table_name
       (execute rt (str "DESCRIBE `" ++ table_name ++ str "`") []
          (fun columns => ret columns))).

Definition show_table_indexes (rt : Runtime) (table_name : text)
    : Session (list Row) :=
  connected rt (Explorer.get_db_config rt) (str "MySQL error: ")
    (table_checked rt table_name
       (execute rt (str "SHOW INDEX FROM `" ++ table_name ++ str "`") []
          (fun indexes => ret indexes))).

Definition show_create_table (rt : Runtime) (table_name : text)
    : Session Value :=
  connected rt (Explorer.get_db_config rt) (str "MySQL error: ")
    (table_checked rt table_name
       (execute rt (str "SHOW CREATE TABLE `" ++ table_name ++ str "`") []
          (fun rows =>
             match hd_error rows with
             | Some ((_ :: _) as result) => of_result (value_at 1 result)
             | _ =>
                 raise (ValueError
                          (str "Could not retrieve CREATE TABLE statement for '"
                           ++ table_name ++ str "'"))
             end))).

Record DatabaseInfo := {
  database_name : Value;
  mysql_version : Value;
  current_user : Value;
  table_count : nat
}.

(** [list(result.values())[0] if result else None] on the first row. *)
Definition first_value (rows : list Row) : Value :=
  match hd_error rows with
  | Some ((_, v) :: _) => v
  | _ => VNone
  end.

Definition get_database_info (rt : Runtime) : Session DatabaseInfo :=
  connected rt (Explorer.get_db_config rt) (str "MySQL error: ")
    (execute rt (str "SELECT DATABASE()") [] (fun r1 =>
     execute rt (str "SELECT VERSION()") [] (fun r2 =>
     execute rt (str "SELECT USER()") [] (fun r3 =>
     execute rt (str "SHOW TABLES") [] (fun r4 =>
       ret {| database_name := first_value r1;
              mysql_version := first_value r2;
              current_user := first_value r3;
              table_count := length r4 |}))))).

End ExplorerTools.

(** ** [src/mysql_explorer_sse/mysql_explorer_sse.py]: the tools built on
    [read_query]

    The messages of this file are given in translation. *)

Module ExplorerSSETools.
Import PyStr Py PyMore.

(** One cell of a line of [execute_sql]. *)
Definition format_cell (row : Row) (col : text) : text :=
  match Exporter.row_get col row with
  | None | Some VNone => str "NULL"
  | Some value => str_of_value value
  end.

(** The lines of [execute_sql]: the column names when there are columns,
    then one line for each row. *)
Definition result_lines (columns : list text) (data : list Row)
    : list text :=
  match columns with
  | [] => []
  | _ => [join (str ",") columns]
  end
  ++ map (fun row => join (str ",") (map (format_cell row) columns)) data.

(** [execute_sql]: the events of the call of [read_query] and the list
    returned. *)
Definition execute_sql (rt : Runtime) (query : text)
    : list Event * list text :=
  match ExplorerSSE.read_query rt query None true 1000 with
  | (events, Raise e) => (events, [str "query failed: " ++ exc_str e])
  | (events, Return result) =>
      match ExplorerSSE.data result with
      | [] => (events, [str "the query returned no result"])
      | _ =>
          (events,
           [join [Exporter.LF]
              (result_lines (ExplorerSSE.columns result)
                 (ExplorerSSE.data result))])
      end
  end.

(** The statement [get_table_name] builds. *)
Definition table_name_sql (database text_ : text) : text :=
  str "SELECT TABLE_SCHEMA, TABLE_NAME, TABLE_COMMENT "
  ++ str "FROM information_schema.TABLES WHERE TABLE_SCHEMA = '" ++ database
  ++ str "' " ++ str "AND TABLE_COMMENT LIKE '%" ++ text_ ++ str "%'".

Definition get_table_name (rt : Runtime) (text_ : text)
    : list Event * Result (list text) :=
  match ExplorerSSE.get_db_config rt with
  | Raise e => ([], Raise e)
  | Return config =>
      let (events, lines) :=
        execute_sql rt (table_name_sql (database config) text_) in
      (events, Return lines)
  end.

(** The statement [get_table_desc] builds. *)
Definition table_desc_sql (database text_ : text) : text :=
  let table_names := map strip (split_on "," text_) in
  let table_condition := join (str "','") table_names in
  str "SELECT TABLE_NAME, COLUMN_NAME, COLUMN_COMMENT "
  ++ str "FROM information_schema.COLUMNS WHERE TABLE_SCHEMA = '" ++ database
  ++ str "' " ++ str "AND TABLE_NAME IN ('" ++ table_condition
  ++ str "') ORDER BY TABLE_NAME, ORDINAL_POSITION".

Definition get_table_desc (rt : Runtime) (text_ : text)
    : list Event * Result (list text) :=
  match ExplorerSSE.get_db_config rt with
  | Raise e => ([], Raise e)
  | Return config =>
      let (events, lines) :=
        execute_sql rt (table_desc_sql (database config) text_) in
      (events, Return lines)
  end.

(** [row[0]] on a tuple. *)
Definition first_cell (row : Row) : Result Value :=
  match row with
  | (_, v) :: _ => Return v
  | [] => Raise (IndexError (str "tuple index out of range"))
  end.

(** The comprehension of [list_tables] over the rows. *)
Fixpoint first_cells (rows : list Row) : Result (list Value) :=
  match rows with
  | [] => Return []
  | row :: rest =>
      match first_cell row with
      | Raise e => Raise e
      | Return v =>
          match first_cells rest with
          | Raise e => Raise e
          | Return vs => Return (v :: vs)
          end
      end
  end.

(** [list_tables] of this file, whose rows are tuples. *)
Definition list_tables (rt : Runtime) : ExplorerTools.Session (list Value) :=
  ExplorerTools.connected rt (ExplorerSSE.get_db_config rt)
    (str "MySQL error: ")
    (ExplorerTools.execute rt (str "SHOW TABLES") [] (fun results =>
       match first_cells results with
       | Raise e => ExplorerTools.raise e
       | Return table_names => ExplorerTools.of_result (sorted table_names)
       end)).

End ExplorerSSETools.

(** ** A concrete machine for the examples *)

Module Demo.
Import PyStr Py.

(** An environment that names user, password and database. *)
Definition getenv (key : text) : option text :=
  if text_eqb key (str "MYSQL_USER") then Some (str "reader")
  else if text_eqb key (str "MYSQL_PASSWORD") then Some (str "secret")
  else if text_eqb key (str "MYSQL_DATABASE") then Some (str "aircraft")
  else None.

Definition two_rows : list Row :=
  [[(str "id", VInt 1); (str "name", VStr (str "a"))];
   [(str "id", VInt 2); (str "name", VNone)]].

(** A driver that connects and answers every statement with two rows. *)
Definition rt : Runtime :=
  {| rt_getenv := getenv;
     rt_int := fun _ => Some 3306%Z;
     rt_connect := fun _ => None;
     rt_execute := fun _ _ => Fetched (Some [str "id"; str "name"]) two_rows;
     rt_now_iso := str "2025-01-01T00:00:00" |}.

Definition config : Config :=
  {| host := str "127.0.0.1"; port := 3306; user := str "reader";
     password := str "secret"; database := str "aircraft" |}.

(** A host on which every directory creation and file opening succeeds. *)
Definition host : Exporter.Host :=
  {| Exporter.makedirs_error := fun _ => None;
     Exporter.open_error := fun _ => None;
     Exporter.encoded_size := fun _ => 120%Z;
     Exporter.now_stamp := str "20250101_000000";
     Exporter.now_iso := str "2025-01-01T00:00:00";
     Exporter.format_file_size := fun n => str_of_int n ++ str " B";
     Exporter.wrong_fields_text :=
       fun keys => join (str ", ")
                     (map (fun key => str "'" ++ key ++ str "'") keys) |}.

(** The same host with a read-only output directory. *)
Definition readonly_host : Exporter.Host :=
  {| Exporter.makedirs_error := fun _ => None;
     Exporter.open_error :=
       fun path => Some (OSError (str "[Errno 13] Permission denied: '"
                                  ++ path ++ str "'"));
     Exporter.encoded_size := fun _ => 120%Z;
     Exporter.now_stamp := str "20250101_000000";
     Exporter.now_iso := str "2025-01-01T00:00:00";
     Exporter.format_file_size := fun n => str_of_int n ++ str " B";
     Exporter.wrong_fields_text :=
       fun keys => join (str ", ")
                     (map (fun key => str "'" ++ key ++ str "'") keys) |}.

Definition empty_disk : Exporter.Disk :=
  {| Exporter.files := fun _ => None; Exporter.stdout := [] |}.

End Demo.

(** ** More machines for the examples *)

Module DemoTools.
Import PyStr Py.

Definition table_rows : list Row :=
  [[(str "Tables_in_aircraft", VStr (str "flights"))];
   [(str "Tables_in_aircraft", VStr (str "airports"))];
   [(str "Tables_in_aircraft", VStr (str "crews"))]].

(** A driver that answers every statement with the three table rows. *)
Definition rt_tables : Runtime :=
  {| rt_getenv := Demo.getenv;
     rt_int := fun _ => Some 3306%Z;
     rt_connect := fun _ => None;
     rt_execute := fun _ _ => Fetched None table_rows;
     rt_now_iso := str "2025-01-01T00:00:00" |}.

(** A driver that answers every statement with no row. *)
Definition rt_empty : Runtime :=
  {| rt_getenv := Demo.getenv;
     rt_int := fun _ => Some 3306%Z;
     rt_connect := fun _ => None;
     rt_execute := fun _ _ => Fetched None [];
     rt_now_iso := str "2025-01-01T00:00:00" |}.

(** A driver that answers every statement with one row without a cell. *)
Definition rt_empty_row : Runtime :=
  {| rt_getenv := Demo.getenv;
     rt_int := fun _ => Some 3306%Z;
     rt_connect := fun _ => None;
     rt_execute := fun _ _ => Fetched None [[]];
     rt_now_iso := str "2025-01-01T00:00:00" |}.

(** The configuration the SSE server reads from [Demo.getenv]. *)
Definition sse_config : Config :=
  {| host := str "localhost"; port := 3306; user := str "reader";
     password := str "secret"; database := str "aircraft" |}.

(** A disk that already holds a file. *)
Definition disk_with (path : text) (body : Exporter.FileBody) : Exporter.Disk :=
  Exporter.put_file Demo.empty_disk path body.

(** Rows whose keys differ: the second has a column the first lacks. *)
Definition ragged_rows : list Row :=
  [[(str "id", VInt 1)];
   [(str "id", VInt 2); (str "extra", VStr (str "x"))];
   [(str "id", VInt 3)]].

End DemoTools.

(** * Properties *)

Import PyStr Regex Py.

(** ** Text lemmas *)

Lemma text_eqb_eq (a b : text) : text_eqb a b = true <-> a = b.
Proof.
  revert b; induction a as [|x a IH]; intros [|y b]; simpl; try easy.
  rewrite andb_true_iff, Ascii.eqb_eq, IH.
  split; [intros [-> ->]; reflexivity | intros [= -> ->]; auto].
Qed.

Lemma startswith_app (p s : text) : startswith p (p ++ s) = true.
Proof.
  induction p as [|x p IH]; simpl; [reflexivity|].
  now rewrite Ascii.eqb_refl, IH.
Qed.

(** ** The statement scanner of the stdio server *)

Section Scanner.
Import ScannerSpec.

Let flags (s d e : bool) : QuoteState :=
  {| in_single := s; in_double := d; escaped := e |}.

(** One turn of the loop: it answers at once on a semicolon read with the
    flags down, and otherwise goes on from the advanced state. *)
Lemma scan_statements_step (s d e : bool) (c : ascii) (rest : text) :
  Explorer.scan_statements s d e (c :: rest) =
  (negb e && Ascii.eqb c ";" && negb s && negb d)
  || (let st := advance (flags s d e) c in
      Explorer.scan_statements (in_single st) (in_double st) (escaped st) rest).
Proof.
  unfold advance, flags; simpl.
  destruct e; simpl; [reflexivity|].
  destruct (Ascii.eqb c "\") eqn:Hb.
  { apply Ascii.eqb_eq in Hb as ->. reflexivity. }
  destruct (Ascii.eqb c "'") eqn:Hq.
  { apply Ascii.eqb_eq in Hq as ->. destruct s, d; reflexivity. }
  destruct (Ascii.eqb c DQ) eqn:Hd.
  { apply Ascii.eqb_eq in Hd as ->. destruct s, d; reflexivity. }
  destruct (Ascii.eqb c ";"), s, d; reflexivity.
Qed.

Lemma scan_statements_spec (sql : text) (s d e : bool) :
  Explorer.scan_statements s d e sql = true <->
  exists before after,
    sql = before ++ ";"%char :: after
    /\ state_after (flags s d e) before = start.
Proof.
  revert s d e; induction sql as [|c rest IH]; intros s d e.
  - split; [discriminate|]. intros (b & a & H & _). now destruct b.
  - rewrite scan_statements_step, orb_true_iff; cbv zeta.
    destruct (advance (flags s d e) c) as [s' d' e'] eqn:Hadv; simpl.
    rewrite IH. split.
    + intros [H | (b & a & -> & Hst)].
      * rewrite !andb_true_iff in H. destruct H as [[[He Hc] Hs] Hd].
        apply Ascii.eqb_eq in Hc as ->.
        destruct e, s, d; try discriminate.
        now exists [], rest.
      * exists (c :: b), a. split; [reflexivity|].
        unfold state_after in *; simpl. now rewrite Hadv.
    + intros (b & a & Heq & Hst). destruct b as [|c' b].
      * left. injection Heq as -> ->.
        unfold state_after, flags in Hst; simpl in Hst.
        injection Hst as -> -> ->. reflexivity.
      * right. injection Heq as -> ->. exists b, a. split; [reflexivity|].
        unfold state_after in *; simpl in Hst. now rewrite Hadv in Hst.
Qed.

(** The scanner of [src/mysql_explorer.py] answers true exactly on the
    texts that hold a statement boundary in the sense of section 4.1. *)
Lemma contains_multiple_statements_spec (sql : text) :
  Explorer.contains_multiple_statements sql = true <-> has_boundary sql.
Proof. apply scan_statements_spec. Qed.

End Scanner.

(** ** The checks of [read_query] in the stdio server *)

Section Validator.
Import Explorer.

Lemma existsb_false_iff (A : Type) (f : A -> bool) (l : list A) :
  existsb f l = false <-> forall x, In x l -> f x = false.
Proof.
  induction l as [|y l IH]; simpl.
  - split; [intros _ x []|reflexivity].
  - rewrite orb_false_iff, IH. split.
    + intros [Hy Hl] x [<-|Hx]; auto.
    + intros H; split; [apply H; now left | intros x Hx; apply H; now right].
Qed.

Lemma validate_multiple (q : text) :
  validate q = Rejected MultipleStatements <->
  contains_multiple_statements (trim_query q) = true.
Proof.
  unfold validate.
  destruct (contains_multiple_statements (trim_query q)); [easy|].
  destruct (negb _); [easy|].
  destruct (contains_dangerous_keywords _) as [[] w]; easy.
Qed.

Lemma validate_accepted (q a : text) :
  validate q = Accepted a ->
  a = trim_query q
  /\ contains_multiple_statements a = false
  /\ existsb (fun p => startswith p (normalize a)) allowed_prefixes = true
  /\ fst (contains_dangerous_keywords (normalize a)) = false.
Proof.
  unfold validate.
  destruct (contains_multiple_statements (trim_query q)) eqn:Hm; [easy|].
  destruct (existsb _ allowed_prefixes) eqn:Hp; simpl; [|easy].
  destruct (contains_dangerous_keywords _) as [[] w] eqn:Hk; [easy|].
  intros [= <-]. repeat split; try assumption. now rewrite Hk.
Qed.

(** On the stdio server, validation answers MultipleStatements exactly on
    the queries whose trimmed text holds a statement boundary in the sense
    of section 4.1 of the specification. *)
Lemma multiple_statements_rejected (q : text) :
  validate q = Rejected MultipleStatements <->
  ScannerSpec.has_boundary (trim_query q).
Proof.
  rewrite validate_multiple. apply contains_multiple_statements_spec.
Qed.

Lemma join_head (sep p : text) (parts : list text) :
  hd_error parts = Some p -> startswith p (join sep parts) = true.
Proof.
  destruct parts as [|p' rest]; simpl; [discriminate|].
  intros [= ->]. destruct rest.
  - rewrite <- (app_nil_r p) at 2. apply startswith_app.
  - apply startswith_app.
Qed.

End Validator.

(** C2 (holds on the stdio server, fails on the SSE server).  On the stdio
    server validation answers MultipleStatements exactly when the trimmed
    text holds a semicolon read outside both kinds of quotes and not
    escaped, an escaped character changing no flag.  The query
    [SELECT '\''; DROP TABLE t; -- '] holds such a semicolon, and the stdio
    server rejects it; the scanner of the SSE server has no escape flag,
    takes the escaped apostrophe for the end of the string, reads the
    semicolons as quoted, and the query is accepted. *)
Theorem sse_scanner_ignores_backslash_escape :
  (forall q,
      Explorer.validate q = Explorer.Rejected Explorer.MultipleStatements
      <-> ScannerSpec.has_boundary (Explorer.trim_query q))
  /\ (let q := str "SELECT '\''; DROP TABLE t; -- '" in
      ScannerSpec.has_boundary (ExplorerSSE.trim_query q)
      /\ Explorer.validate q = Explorer.Rejected Explorer.MultipleStatements
      /\ ExplorerSSE.contains_multiple_statements (ExplorerSSE.trim_query q)
         = false
      /\ ExplorerSSE.validate q = ExplorerSSE.Accepted q).
Proof.
  split; [exact multiple_statements_rejected|].
  cbv zeta. split; [|repeat split; reflexivity].
  apply contains_multiple_statements_spec. reflexivity.
Qed.

(** C3 (amended).  The allowlist check is a string-prefix test on the
    normalized text.  Validation answers NotReadOnly exactly when the
    trimmed text passes the statement scanner and its normalized form
    starts with none of the six words; the normalized form of every
    accepted query starts with one of them; and a query whose leading
    token is one of the six words is never answered NotReadOnly.  The SSE
    server accepts exactly the queries that pass its scanner and whose
    lower-cased text starts with one of the six words. *)
Theorem allowlist_is_a_prefix_test (q : text) :
  let t := Explorer.trim_query q in
  let n := Explorer.normalize t in
  (Explorer.validate q = Explorer.Rejected Explorer.NotReadOnly <->
     Explorer.contains_multiple_statements t = false
     /\ forall p, In p Explorer.allowed_prefixes -> startswith p n = false)
  /\ (forall a, Explorer.validate q = Explorer.Accepted a ->
        exists p, In p Explorer.allowed_prefixes /\ startswith p n = true)
  /\ (forall p, In p Explorer.allowed_prefixes ->
        hd_error (split (lower t)) = Some p ->
        Explorer.validate q <> Explorer.Rejected Explorer.NotReadOnly)
  /\ (ExplorerSSE.validate q = ExplorerSSE.Accepted (ExplorerSSE.trim_query q)
      <-> ExplorerSSE.contains_multiple_statements (ExplorerSSE.trim_query q)
          = false
          /\ exists p, In p ExplorerSSE.allowed_prefixes
                       /\ startswith p
                            (strip (lower (ExplorerSSE.trim_query q))) = true).
Proof.
  cbv zeta. split; [|split; [|split]].
  - rewrite <- existsb_false_iff. unfold Explorer.validate.
    destruct (Explorer.contains_multiple_statements _); [easy|].
    destruct (existsb _ Explorer.allowed_prefixes); simpl; [|easy].
    destruct (Explorer.contains_dangerous_keywords _) as [[] w]; easy.
  - intros a Ha. apply validate_accepted in Ha as (-> & _ & Hp & _).
    apply existsb_exists in Hp. exact Hp.
  - intros p Hin Hhd Hrej.
    assert (Hs : startswith p (Explorer.normalize (Explorer.trim_query q)) = true)
      by (apply join_head; exact Hhd).
    revert Hrej. unfold Explorer.validate.
    destruct (Explorer.contains_multiple_statements _); [easy|].
    destruct (existsb _ Explorer.allowed_prefixes) eqn:Hp; simpl.
    + destruct (Explorer.contains_dangerous_keywords _) as [[] w]; easy.
    + rewrite existsb_false_iff in Hp. rewrite (Hp p Hin) in Hs. discriminate.
  - rewrite <- existsb_exists. unfold ExplorerSSE.validate.
    destruct (ExplorerSSE.contains_multiple_statements _); [easy|].
    destruct (existsb _ ExplorerSSE.allowed_prefixes); simpl.
    + easy.
    + destruct (ExplorerSSE.contains_dangerous_keywords _) as [[] w]; easy.
Qed.

Lemma allowlist_is_a_prefix_test_witness :
  exists p, In p Explorer.allowed_prefixes
            /\ startswith p (Explorer.normalize
                               (Explorer.trim_query (str " SHOW  tables; "))) = true.
Proof.
  apply (proj1 (proj2 (allowlist_is_a_prefix_test (str " SHOW  tables; ")))
           (str "SHOW  tables")).
  reflexivity.
Defined.

(** C3 (as stated) fails: the leading token of [selectx 1] is [selectx],
    which is none of the six words, yet the query is accepted, because
    [selectx] starts with [select]. *)
Lemma leading_token_outside_allowlist_accepted :
  let q := str "selectx 1" in
  hd_error (split (Explorer.normalize (Explorer.trim_query q)))
    = Some (str "selectx")
  /\ ~ In (str "selectx") Explorer.allowed_prefixes
  /\ Explorer.validate q = Explorer.Accepted q
  /\ Explorer.validate q <> Explorer.Rejected Explorer.NotReadOnly.
Proof.
  cbv zeta. repeat split; try reflexivity; try discriminate.
  intros H. repeat (destruct H as [H|H]; [discriminate H|]). exact H.
Qed.

(** ** The connection and the executed text *)

Section ReadQuery.
Import Explorer.

Variable rt : Runtime.
Variables (q : text) (params : option (list Value)) (fetch_all : bool)
          (row_limit : Z).

Let bound : list Value := match params with Some p => p | None => [] end.

Lemma read_query_rejected (why : Reason) :
  validate q = Rejected why ->
  read_query rt q params fetch_all row_limit
  = match get_db_config rt with
    | Raise e => ([], Raise e)
    | Return _ => ([], Raise (ValueError (rejection_message why)))
    end.
Proof.
  intros H. unfold read_query. rewrite H. now destruct (get_db_config rt).
Qed.

(** Once the configuration is read, the query accepted and the connection
    open, the connection sees one statement, the executed text, and is
    closed. *)
Lemma read_query_events (cfg : Config) (a : text) :
  get_db_config rt = Return cfg ->
  validate q = Accepted a ->
  rt_connect rt cfg = None ->
  fst (read_query rt q params fetch_all row_limit)
  = [EvConnect cfg; EvExecute (executed_text a row_limit) bound; EvClose].
Proof.
  intros Hc Hv Hn. unfold read_query. rewrite Hc, Hv, Hn.
  destruct (rt_execute rt _ _) as [d rows|[]]; reflexivity.
Qed.


End ReadQuery.

Lemma app_nonempty_neq (a b : text) : b <> [] -> a ++ b <> a.
Proof.
  intros Hb H. apply (f_equal (@length ascii)) in H.
  rewrite length_app in H. destruct b; [easy|simpl in H; lia].
Qed.

Lemma executed_text_appends (a : text) (n : Z) :
  Explorer.executed_text a n = a ++ str " LIMIT " ++ str_of_int n <->
  Explorer.injects_limit (Explorer.normalize a) = true.
Proof.
  unfold Explorer.executed_text.
  destruct (Explorer.injects_limit _); split; try easy.
  intros H. symmetry in H. now apply app_nonempty_neq in H.
Qed.

(** C5.  A query that validation rejects makes [read_query] raise the
    rejection with no event on the database connection, provided the
    configuration is complete (an incomplete one raises before validation,
    also with no event); and in every execution a connection event implies
    that validation accepted the query. *)
Theorem rejection_opens_no_connection
    (rt : Runtime) (q : text) (params : option (list Value))
    (fetch_all : bool) (row_limit : Z) :
  (forall why cfg,
      Explorer.validate q = Explorer.Rejected why ->
      Explorer.get_db_config rt = Return cfg ->
      Explorer.read_query rt q params fetch_all row_limit
      = ([], Raise (ValueError (Explorer.rejection_message why))))
  /\ (forall why,
      Explorer.validate q = Explorer.Rejected why ->
      fst (Explorer.read_query rt q params fetch_all row_limit) = [])
  /\ (forall c,
      In (EvConnect c) (fst (Explorer.read_query rt q params fetch_all row_limit)) ->
      Explorer.get_db_config rt = Return c
      /\ Explorer.validate q = Explorer.Accepted (Explorer.trim_query q)).
Proof.
  split; [|split].
  - intros why cfg Hv Hc. rewrite (read_query_rejected _ _ _ _ _ Hv), Hc.
    reflexivity.
  - intros why Hv. rewrite (read_query_rejected _ _ _ _ _ Hv).
    now destruct (Explorer.get_db_config rt).
  - intros c. unfold Explorer.read_query.
    destruct (Explorer.get_db_config rt) as [cfg|e]; [|intros []].
    destruct (Explorer.validate q) as [a|why] eqn:Hv; [|intros []].
    destruct (validate_accepted _ Hv) as (-> & _).
    assert (Hin : forall evs : list Event,
               (forall ev, In ev evs -> ev = EvConnect cfg \/
                                         forall c', ev <> EvConnect c') ->
               In (EvConnect c) evs -> cfg = c).
    { intros evs Hall Hc. destruct (Hall _ Hc) as [[= ->]|Hno]; [reflexivity|].
      now destruct (Hno c). }
    intros H. enough (cfg = c) as <- by auto.
    revert H. apply Hin.
    destruct (rt_connect rt cfg).
    + simpl. intros ev [<-|[]]. now left.
    + destruct (rt_execute rt _ _) as [d rows|[]]; simpl;
        intros ev [<-|[<-|[<-|[]]]]; auto; right; discriminate.
Qed.

Lemma rejection_opens_no_connection_witness :
  Explorer.read_query Demo.rt (str "DELETE FROM t") None true 1000
  = ([], Raise (ValueError (Explorer.rejection_message Explorer.NotReadOnly))).
Proof.
  apply (proj1 (rejection_opens_no_connection Demo.rt (str "DELETE FROM t")
                  None true 1000) Explorer.NotReadOnly Demo.config);
    reflexivity.
Defined.

(** C4 (amended).  For an accepted query, once the connection is open the
    statement sent is the executed text; it is the accepted text followed
    by [ LIMIT ] and the row limit exactly when the normalized text starts
    with [select] and does not contain [limit] as a substring, and it is
    the accepted text itself otherwise.  The SSE server applies the same
    test to the lower-cased text.  [SELECT * FROM t] with limit 50 runs as
    [SELECT * FROM t LIMIT 50], and [SELECT * FROM t LIMIT 10] runs as it
    is. *)
Theorem limit_injection_is_a_substring_test :
  (forall (rt : Runtime) (q a : text) (params : option (list Value))
          (fetch_all : bool) (row_limit : Z) (cfg : Config),
      Explorer.validate q = Explorer.Accepted a ->
      Explorer.get_db_config rt = Return cfg ->
      rt_connect rt cfg = None ->
      let n := Explorer.normalize a in
      let sent := Explorer.executed_text a row_limit in
      fst (Explorer.read_query rt q params fetch_all row_limit)
      = [EvConnect cfg;
         EvExecute sent (match params with Some p => p | None => [] end);
         EvClose]
      /\ (sent = a ++ str " LIMIT " ++ str_of_int row_limit <->
          startswith (str "select") n = true
          /\ contains (str "limit") n = false)
      /\ (sent = a <->
          ~ (startswith (str "select") n = true
             /\ contains (str "limit") n = false)))
  /\ (forall (a : text) (row_limit : Z),
      let l := strip (lower a) in
      (ExplorerSSE.executed_text a row_limit
       = a ++ str " LIMIT " ++ str_of_int row_limit <->
       startswith (str "select") l = true /\ contains (str "limit") l = false))
  /\ Explorer.executed_text (str "SELECT * FROM t") 50
     = str "SELECT * FROM t LIMIT 50"
  /\ (forall row_limit,
      Explorer.executed_text (str "SELECT * FROM t LIMIT 10") row_limit
      = str "SELECT * FROM t LIMIT 10").
Proof.
  split; [|split; [|split]].
  - intros rt q a params fetch_all row_limit cfg Hv Hc Hn. cbv zeta.
    split; [now apply read_query_events|].
    assert (Hcond : Explorer.injects_limit (Explorer.normalize a) = true <->
                    startswith (str "select") (Explorer.normalize a) = true
                    /\ contains (str "limit") (Explorer.normalize a) = false).
    { unfold Explorer.injects_limit.
      rewrite andb_true_iff, negb_true_iff. tauto. }
    split.
    + rewrite executed_text_appends. exact Hcond.
    + rewrite <- Hcond. unfold Explorer.executed_text.
      destruct (Explorer.injects_limit _); split; try easy.
      intros H. now apply app_nonempty_neq in H.
  - intros a row_limit. cbv zeta. unfold ExplorerSSE.executed_text.
    unfold ExplorerSSE.injects_limit.
    destruct (startswith _ _); destruct (contains _ _); simpl;
      split; try easy; try (intros [? ?]; discriminate);
      intros H; symmetry in H; now apply app_nonempty_neq in H.
  - reflexivity.
  - reflexivity.
Qed.

Lemma limit_injection_is_a_substring_test_witness :
  fst (Explorer.read_query Demo.rt (str " select id from t ; ") None true 50)
  = [EvConnect Demo.config;
     EvExecute (str "select id from t LIMIT 50") [];
     EvClose].
Proof.
  apply (proj1 (proj1 limit_injection_is_a_substring_test
                  Demo.rt (str " select id from t ; ") (str "select id from t")
                  None true 50%Z Demo.config
                  eq_refl eq_refl eq_refl)).
Defined.

(** C4 (as stated) fails: [SELECT * FROM limits] is accepted, starts with
    [select] and has no token [limit] (neither among its space-separated
    tokens nor as a whole word), yet no limit clause is appended, because
    [limits] contains [limit]. *)
Lemma limit_inside_identifier_blocks_injection :
  let q := str "SELECT * FROM limits" in
  let n := Explorer.normalize q in
  Explorer.validate q = Explorer.Accepted q
  /\ startswith (str "select") n = true
  /\ existsb (text_eqb (str "limit")) (split n) = false
  /\ re_search_word (str "limit") n = false
  /\ Explorer.executed_text q 50 = q
  /\ Explorer.executed_text q 50 <> q ++ str " LIMIT 50".
Proof. cbv zeta. repeat split; try reflexivity. discriminate. Qed.



(** ** Literal stripping and the keyword loop *)

Section Stripping.

Variables (q : ascii) (repl : text).

Lemma sub_quoted_outside (before rest : text) :
  ~ In q before ->
  sub_quoted q repl false (before ++ rest)
  = before ++ sub_quoted q repl false rest.
Proof.
  induction before as [|c before IH]; intros Hq; [reflexivity|].
  simpl. destruct (Ascii.eqb c q) eqn:Hc.
  - apply Ascii.eqb_eq in Hc as ->. exfalso. apply Hq. now left.
  - f_equal. apply IH. intros Hin. apply Hq. now right.
Qed.

Lemma sub_quoted_inside (body rest : text) :
  ~ In q body ->
  sub_quoted q repl true (body ++ q :: rest) = sub_quoted q repl false rest.
Proof.
  induction body as [|c body IH]; intros Hq; simpl.
  - now rewrite Ascii.eqb_refl.
  - destruct (Ascii.eqb c q) eqn:Hc.
    + apply Ascii.eqb_eq in Hc as ->. exfalso. apply Hq. now left.
    + apply IH. intros Hin. apply Hq. now right.
Qed.

(** A quoted run is replaced whole: what precedes it is kept, its body is
    dropped whatever it holds, and the scan goes on after the closing
    quote. *)
Lemma re_sub_quoted_literal (before body rest : text) :
  ~ In q before -> ~ In q body ->
  re_sub_quoted q repl (before ++ q :: body ++ q :: rest)
  = before ++ repl ++ re_sub_quoted q repl rest.
Proof.
  intros Hb Hbody. unfold re_sub_quoted.
  rewrite sub_quoted_outside by assumption. f_equal.
  simpl. rewrite Ascii.eqb_refl.
  assert (Hex : existsb (Ascii.eqb q) (body ++ q :: rest) = true).
  { apply existsb_exists. exists q. split; [|apply Ascii.eqb_refl].
    apply in_or_app. right. now left. }
  rewrite Hex. f_equal. now apply sub_quoted_inside.
Qed.

End Stripping.

Lemma strip_literals_single_quoted (before body rest : text) :
  ~ In "'"%char before -> ~ In DQ before -> ~ In "`"%char before ->
  ~ In "'"%char body ->
  Explorer.strip_literals (before ++ "'"%char :: body ++ "'"%char :: rest)
  = before ++ str "''" ++ Explorer.strip_literals rest.
Proof.
  intros Hs Hd Hb Hbody. unfold Explorer.strip_literals.
  rewrite re_sub_quoted_literal by assumption.
  assert (Hne : forall c : ascii, c <> "'"%char -> ~ In c before ->
                                  ~ In c (before ++ str "''")).
  { intros c Hc Hin H. apply in_app_or in H as [H|[H|[H|[]]]]; auto. }
  unfold re_sub_quoted at 2.
  rewrite (app_assoc before), sub_quoted_outside
    by (apply Hne; [discriminate|assumption]).
  unfold re_sub_quoted at 1.
  rewrite sub_quoted_outside by (apply Hne; [discriminate|assumption]).
  now rewrite <- app_assoc.
Qed.

Section KeywordLoop.

Variable cleaned : text.

Lemma first_keyword_hit (keywords : list text) (k : text) :
  Explorer.first_keyword keywords cleaned = (true, k) <->
  exists earlier later,
    keywords = earlier ++ k :: later
    /\ re_search_word k cleaned = true
    /\ forall k', In k' earlier -> re_search_word k' cleaned = false.
Proof.
  induction keywords as [|k0 rest IH]; simpl.
  - split; [discriminate|]. intros (e & l & H & _). now destruct e.
  - destruct (re_search_word k0 cleaned) eqn:Hk0.
    + split.
      * intros [= <-]. exists [], rest. repeat split; auto. intros k' [].
      * intros (e & l & Heq & Hk & He). destruct e as [|k1 e].
        -- now injection Heq as -> _.
        -- injection Heq as -> _. rewrite He in Hk0 by now left. discriminate.
    + rewrite IH. split.
      * intros (e & l & -> & Hk & He). exists (k0 :: e), l.
        repeat split; auto. intros k' [<-|Hin]; auto.
      * intros (e & l & Heq & Hk & He). destruct e as [|k1 e].
        -- injection Heq as -> _. rewrite Hk in Hk0. discriminate.
        -- injection Heq as -> ->. exists e, l. repeat split; auto.
           intros k' Hin. apply He. now right.
Qed.

Lemma first_keyword_miss (keywords : list text) :
  fst (Explorer.first_keyword keywords cleaned) = false <->
  forall k, In k keywords -> re_search_word k cleaned = false.
Proof.
  induction keywords as [|k0 rest IH]; simpl.
  - split; [intros _ k []|reflexivity].
  - destruct (re_search_word k0 cleaned) eqn:Hk0; simpl.
    + split; [discriminate|]. intros H. rewrite <- Hk0. apply H. now left.
    + rewrite IH. split.
      * intros H k [<-|Hin]; auto.
      * intros H k Hin. apply H. now right.
Qed.

End KeywordLoop.

(** Past the statement scanner and the allowlist check, validation names
    the first keyword of the denylist, in list order, that occurs as a
    whole word in the literal-stripped, normalized text, and accepts when
    none occurs there. *)
Lemma validate_names_first_keyword (q : text) :
  let t := Explorer.trim_query q in
  let n := Explorer.normalize t in
  let cleaned := Explorer.normalize (Explorer.strip_literals n) in
  Explorer.contains_multiple_statements t = false ->
  existsb (fun p => startswith p n) Explorer.allowed_prefixes = true ->
  (forall k,
      Explorer.validate q = Explorer.Rejected (Explorer.DangerousKeyword k)
      <-> exists earlier later,
            Explorer.dangerous_keywords = earlier ++ k :: later
            /\ re_search_word k cleaned = true
            /\ forall k', In k' earlier -> re_search_word k' cleaned = false)
  /\ (Explorer.validate q = Explorer.Accepted t <->
      forall k, In k Explorer.dangerous_keywords ->
                re_search_word k cleaned = false).
Proof.
  cbv zeta. intros Hm Hp.
  unfold Explorer.validate. rewrite Hm, Hp. simpl negb. cbv iota.
  unfold Explorer.contains_dangerous_keywords.
  split.
  - intros k. rewrite <- first_keyword_hit.
    destruct (Explorer.first_keyword _ _) as [[] w]; split; try easy.
    + now intros [= ->].
    + now intros [= ->].
  - rewrite <- first_keyword_miss.
    destruct (Explorer.first_keyword _ _) as [[] w]; simpl; split; easy.
Qed.

(** The checks run in order: in [DROP TABLE t] the keyword [drop] is seen
    by the keyword search, yet the rejection is NotReadOnly and names no
    keyword, because the allowlist check comes first.  And in
    [SELECT drop, insert FROM t] the rejection names [insert], the earlier
    of the two in the denylist.  A keyword inside a plain string literal is
    not seen. *)
Lemma keyword_first_query_rejected_not_read_only :
  let cleaned q :=
    Explorer.normalize
      (Explorer.strip_literals (Explorer.normalize (Explorer.trim_query q))) in
  In (str "drop") Explorer.dangerous_keywords
  /\ re_search_word (str "drop") (cleaned (str "DROP TABLE t")) = true
  /\ Explorer.validate (str "DROP TABLE t")
     = Explorer.Rejected Explorer.NotReadOnly
  /\ Explorer.validate (str "DROP TABLE t")
     <> Explorer.Rejected (Explorer.DangerousKeyword (str "drop"))
  /\ re_search_word (str "drop") (cleaned (str "SELECT drop, insert FROM t"))
     = true
  /\ Explorer.validate (str "SELECT drop, insert FROM t")
     = Explorer.Rejected (Explorer.DangerousKeyword (str "insert"))
  /\ Explorer.validate
       (str "SELECT * FROM logs WHERE msg = 'please do not DROP this'")
     = Explorer.Accepted
         (str "SELECT * FROM logs WHERE msg = 'please do not DROP this'").
Proof.
  cbv zeta. repeat split; try reflexivity; try discriminate.
  simpl. tauto.
Qed.

(** C1.  The three stripping patterns of lines 124-129 pair the quotes one
    kind at a time, the apostrophes first, and know no backslash, so what
    they remove is not the text inside the literals, which the comment of
    line 118 says is what is let through.

    In [SELECT "it's" INTO OUTFILE '/tmp/x'] the keyword [outfile] of the
    denylist stands as a whole word at a place where the scanner of
    section 4.1 has its three flags down, outside every literal.  The
    first pattern takes the apostrophe of the double-quoted string for the
    start of a run that ends in front of the file name, and [outfile] goes
    with it: the query passes the scanner and the allowlist, is accepted,
    and [read_query] sends it to the driver.  So is
    [SELECT "'" INTO OUTFILE '/tmp/x' -- "'"], of which the stripping
    leaves [select] and an empty pair of double quotes.

    In [select 'a\' drop '] the one [drop] stands inside a single-quoted
    string that holds an escaped apostrophe and is closed at the end of
    the text.  The first pattern ends the run at the escaped apostrophe,
    [drop] is left outside the pair, and the query is rejected naming
    [drop]; the statement scanner of the same function reads a semicolon
    put at that place as quoted. *)
Theorem keyword_search_misreads_quotes :
  let before1 :=
    str "SELECT " ++ DQ :: str "it's" ++ DQ :: str " INTO " in
  let q1 := before1 ++ str "OUTFILE '/tmp/x'" in
  let before3 :=
    str "SELECT " ++ DQ :: str "'" ++ DQ :: str " INTO " in
  let q3 :=
    before3 ++ str "OUTFILE '/tmp/x' -- " ++ DQ :: str "'" ++ [DQ] in
  let before2 := str "select 'a\' " in
  let q2 := before2 ++ str "drop '" in
  (In (str "outfile") Explorer.dangerous_keywords
   /\ ScannerSpec.state_after ScannerSpec.start before1 = ScannerSpec.start
   /\ re_search_word (str "outfile") (Explorer.normalize q1) = true
   /\ Explorer.contains_multiple_statements (Explorer.trim_query q1) = false
   /\ Explorer.strip_literals (Explorer.normalize q1)
      = str "select " ++ DQ :: str "it''/tmp/x'"
   /\ Explorer.validate q1 = Explorer.Accepted q1
   /\ fst (Explorer.read_query Demo.rt q1 None true 1000)
      = [EvConnect Demo.config; EvExecute (q1 ++ str " LIMIT 1000") [];
         EvClose])
  /\ (ScannerSpec.state_after ScannerSpec.start before3 = ScannerSpec.start
      /\ re_search_word (str "outfile") (Explorer.normalize q3) = true
      /\ Explorer.strip_literals (Explorer.normalize q3)
         = str "select " ++ [DQ; DQ]
      /\ Explorer.validate q3 = Explorer.Accepted q3)
  /\ (In (str "drop") Explorer.dangerous_keywords
      /\ ScannerSpec.in_single
           (ScannerSpec.state_after ScannerSpec.start before2) = true
      /\ ScannerSpec.state_after ScannerSpec.start q2 = ScannerSpec.start
      /\ re_search_word (str "drop") before2 = false
      /\ Explorer.strip_literals q2 = str "select '' drop '"
      /\ Explorer.contains_multiple_statements (before2 ++ str "; drop '")
         = false
      /\ Explorer.validate q2
         = Explorer.Rejected (Explorer.DangerousKeyword (str "drop"))).
Proof.
  cbv zeta. repeat split; try reflexivity; simpl; tauto.
Qed.

(** ** File names of the exporter *)

Section Names.
Import Exporter.

Variable P : ascii -> Prop.

Lemma Forall_lstrip (s : text) : Forall P s -> Forall P (lstrip s).
Proof.
  induction 1 as [|c s Hc Hs IH]; simpl; [constructor|].
  destruct (isspace c); [exact IH|now constructor].
Qed.

Lemma Forall_strip (s : text) : Forall P s -> Forall P (strip s).
Proof.
  intros H. unfold strip, rstrip.
  apply Forall_rev, Forall_lstrip, Forall_rev, Forall_lstrip, H.
Qed.

Lemma Forall_after_first (sep : ascii) (s : text) :
  Forall P s -> Forall P (after_first sep s).
Proof.
  induction 1 as [|c s Hc Hs IH]; simpl; [constructor|].
  now destruct (Ascii.eqb c sep).
Qed.

Lemma Forall_rsplit1_head (sep : ascii) (s : text) :
  Forall P s -> Forall P (rsplit1_head sep s).
Proof.
  intros H. unfold rsplit1_head. destruct (existsb _ s); [|exact H].
  apply Forall_rev, Forall_after_first, Forall_rev, H.
Qed.

End Names.

Lemma after_first_skips (sep : ascii) (a b : text) :
  ~ In sep a -> after_first sep (a ++ sep :: b) = b.
Proof.
  induction a as [|c a IH]; intros Hn; simpl.
  - now rewrite Ascii.eqb_refl.
  - destruct (Ascii.eqb c sep) eqn:Hc.
    + apply Ascii.eqb_eq in Hc as ->. exfalso. apply Hn. now left.
    + apply IH. intros Hin. apply Hn. now right.
Qed.

(** [rsplit('.', 1)[0]] cuts at the last separator. *)
Lemma rsplit1_head_last (sep : ascii) (stem ext : text) :
  ~ In sep ext -> rsplit1_head sep (stem ++ sep :: ext) = stem.
Proof.
  intros Hn. unfold rsplit1_head.
  assert (Hex : existsb (Ascii.eqb sep) (stem ++ sep :: ext) = true).
  { apply existsb_exists. exists sep. split; [|apply Ascii.eqb_refl].
    apply in_or_app. right. now left. }
  rewrite Hex, rev_app_distr. simpl. rewrite <- app_assoc. simpl.
  rewrite after_first_skips; [apply rev_involutive|].
  intros Hin. apply Hn. now apply in_rev.
Qed.

Lemma existsb_eqb_in (c : ascii) (s : text) :
  existsb (Ascii.eqb c) s = true <-> In c s.
Proof.
  rewrite existsb_exists. split.
  - intros (x & Hin & Hx). now apply Ascii.eqb_eq in Hx as ->.
  - intros Hin. exists c. split; [exact Hin|apply Ascii.eqb_refl].
Qed.

Lemma length_lstrip (s : text) : length (lstrip s) <= length s.
Proof.
  induction s as [|c s IH]; simpl; [lia|].
  destruct (isspace c); simpl; lia.
Qed.

Lemma length_strip (s : text) : length (strip s) <= length s.
Proof.
  unfold strip, rstrip. rewrite length_rev.
  etransitivity; [apply length_lstrip|]. rewrite length_rev.
  apply length_lstrip.
Qed.

Lemma keep_auto_custom (c : ascii) :
  Exporter.keep_auto c = Exporter.keep_custom c && negb (Ascii.eqb c ".").
Proof.
  destruct (Ascii.eqb c ".") eqn:Hc.
  - apply Ascii.eqb_eq in Hc as ->. reflexivity.
  - unfold Exporter.keep_auto, Exporter.keep_custom. rewrite Hc.
    now rewrite !orb_false_r, andb_true_r.
Qed.

Lemma Forall_replace_space (keep : ascii -> bool) (s : text) :
  keep "_"%char = true ->
  Forall (fun c => keep c = true) s ->
  Forall (fun c => keep c = true /\ c <> " "%char)
         (replace_char " " "_" s).
Proof.
  intros Hu H. unfold replace_char. apply Forall_map.
  eapply Forall_impl; [|exact H]. intros c Hc; simpl.
  destruct (Ascii.eqb c " ") eqn:Hs.
  - split; [exact Hu|discriminate].
  - split; [exact Hc|]. intros ->. discriminate.
Qed.

Lemma Forall_filter_keep (keep : ascii -> bool) (s : text) :
  Forall (fun c => keep c = true) (filter keep s).
Proof. apply Forall_forall. intros c Hc. now apply filter_In in Hc. Qed.

Lemma safe_filename_chars (name : text) :
  Forall (fun c => Exporter.keep_custom c = true /\ c <> " "%char)
         (Exporter.safe_filename name).
Proof.
  unfold Exporter.safe_filename.
  assert (H : Forall (fun c => Exporter.keep_custom c = true /\ c <> " "%char)
                (replace_char " " "_"
                   (strip (filter Exporter.keep_custom name)))).
  { apply Forall_replace_space; [reflexivity|].
    apply Forall_strip, Forall_filter_keep. }
  destruct (existsb _ _); [now apply Forall_rsplit1_head|exact H].
Qed.

Lemma safe_query_chars (query : text) :
  Forall (fun c => Exporter.keep_auto c = true /\ c <> " "%char)
         (Exporter.safe_query query).
Proof.
  unfold Exporter.safe_query.
  apply Forall_replace_space; [reflexivity|].
  apply Forall_strip, Forall_filter_keep.
Qed.

Lemma safe_query_length (query : text) :
  length (Exporter.safe_query query) <= 50.
Proof.
  unfold Exporter.safe_query, replace_char. rewrite length_map.
  etransitivity; [apply length_strip|].
  etransitivity; [apply filter_length_le|].
  rewrite length_firstn. lia.
Qed.

(** C7 (amended).  The two modes filter with different character sets: the
    automatic one keeps what the custom one keeps except the dot.  A custom
    name keeps alphanumerics, spaces, underscores, hyphens and dots, is
    stripped, has each space turned into an underscore, and loses what
    follows its last dot before the format is appended.  An automatic name
    is [query_], the timestamp, an underscore and at most 50 characters of
    the query (its first 50 once line feeds are spaces and carriage returns
    are gone) filtered to alphanumerics, spaces, underscores and hyphens,
    stripped, with each space turned into an underscore; it holds no dot
    before the format.  An empty custom name counts as none. *)
Theorem filename_modes_filter_differently :
  (forall c, Exporter.keep_auto c
             = Exporter.keep_custom c && negb (Ascii.eqb c "."))
  /\ (forall (h : Exporter.Host) (query file_format name : text),
      name <> [] ->
      let kept := replace_char " " "_"
                    (strip (filter Exporter.keep_custom name)) in
      Exporter.resolve_filename h query file_format (Some name)
      = Exporter.safe_filename name ++ str "." ++ file_format
      /\ Forall (fun c => Exporter.keep_custom c = true /\ c <> " "%char)
                (Exporter.safe_filename name)
      /\ (forall stem ext,
             kept = stem ++ "."%char :: ext -> ~ In "."%char ext ->
             Exporter.safe_filename name = stem)
      /\ (~ In "."%char kept -> Exporter.safe_filename name = kept))
  /\ (forall (h : Exporter.Host) (query file_format : text),
      Exporter.resolve_filename h query file_format None
      = str "query_" ++ Exporter.now_stamp h ++ str "_"
        ++ Exporter.safe_query query ++ str "." ++ file_format
      /\ Exporter.resolve_filename h query file_format (Some [])
         = Exporter.resolve_filename h query file_format None
      /\ Exporter.safe_query query
         = replace_char " " "_"
             (strip (filter Exporter.keep_auto
                       (firstn 50 (remove_char Exporter.CR
                                     (replace_char Exporter.LF " " query)))))
      /\ Forall (fun c => Exporter.keep_auto c = true /\ c <> " "%char)
                (Exporter.safe_query query)
      /\ ~ In "."%char (Exporter.safe_query query)
      /\ length (Exporter.safe_query query) <= 50).
Proof.
  split; [exact keep_auto_custom|]. split.
  - intros h query file_format name Hne. cbv zeta.
    split; [destruct name; [contradiction|reflexivity]|].
    split; [apply safe_filename_chars|]. split.
    + intros stem ext Hk Hext. unfold Exporter.safe_filename.
      rewrite Hk. rewrite (proj2 (existsb_eqb_in _ _)).
      * now apply rsplit1_head_last.
      * apply in_or_app. right. now left.
    + intros Hno. unfold Exporter.safe_filename.
      destruct (existsb _ _) eqn:He; [|reflexivity].
      apply existsb_eqb_in in He. contradiction.
  - intros h query file_format. repeat split.
    + apply safe_query_chars.
    + intros Hin. pose proof (safe_query_chars query) as H.
      rewrite Forall_forall in H. destruct (H _ Hin) as [Hk _]. discriminate.
    + apply safe_query_length.
Qed.

Lemma filename_modes_filter_differently_witness :
  Exporter.safe_filename (str " my report.v2.txt ") = str "my_report.v2".
Proof.
  apply (proj1 (proj2 (proj2
           (proj1 (proj2 filename_modes_filter_differently)
              Demo.host (str "q") (str "csv") (str " my report.v2.txt ")
              ltac:(discriminate))))
           (str "my_report.v2") (str "txt") eq_refl).
  intros [H|[H|[H|[]]]]; discriminate.
Defined.

(** C7 (as stated) fails: the dot is kept in a custom name and dropped
    from the query of an automatic one; [SELECT 1.5] gives
    [..._SELECT_15.json]. *)
Lemma automatic_name_drops_the_dot :
  Exporter.keep_custom "." = true
  /\ Exporter.keep_auto "." = false
  /\ filter Exporter.keep_custom (str "SELECT 1.5") = str "SELECT 1.5"
  /\ filter Exporter.keep_auto (str "SELECT 1.5") = str "SELECT 15"
  /\ Exporter.resolve_filename Demo.host (str "SELECT 1.5") (str "json") None
     = str "query_20250101_000000_SELECT_15.json".
Proof. repeat split; reflexivity. Qed.

(** ** The write phase of the exporter *)

Section Saving.
Import Exporter.

Variable h : Host.
Variables (query : text) (data : list Row) (file_format : text)
          (params : option (list Value)).
Variables (d : Disk) (custom_filename : option text).

Let filename := resolve_filename h query file_format custom_filename.
Let filepath := str "temp_data/" ++ filename.
Let result := save_query_results h query data file_format params d
                custom_filename.

(** The [try] statement: what its body returns is returned, what it raises
    becomes the error mapping. *)
Lemma save_query_results_try :
  makedirs_error h (str "temp_data") = None ->
  result
  = match write_phase h query data file_format params d filename filepath with
    | (d', Return saved) => (d', Return saved)
    | (d', Raise e) =>
        (print d' (str "WARNING: Failed to save query results to file: "
                   ++ exc_str e),
         Return (SaveFailed (str "Failed to save file: " ++ exc_str e)
                            (length data)))
    end.
Proof.
  intros Hm. unfold result, save_query_results. rewrite Hm. reflexivity.
Qed.

Lemma write_phase_descriptor (d' : Disk) (saved : Saved) :
  write_phase h query data file_format params d filename filepath
  = (d', Return saved) ->
  exists size, saved = SavedFile filename file_format size (length data).
Proof.
  unfold write_phase.
  destruct (write_files _ _ _ _ _ _ _ _) as [d1 [[]|e]]; [|discriminate].
  destruct (files d1 filepath) as [body|]; [|discriminate].
  intros [= <- <-]. eauto.
Qed.

Lemma save_raises_only_from_makedirs (e : Exc) :
  snd result = Raise e -> makedirs_error h (str "temp_data") = Some e.
Proof.
  unfold result, save_query_results.
  destruct (makedirs_error h _) as [e'|]; [now intros [= ->]|].
  fold filename. fold filepath.
  destruct (write_phase _ _ _ _ _ _ _ _) as [d' [saved|e']]; discriminate.
Qed.

Lemma save_returns_row_count (saved : Saved) :
  snd result = Return saved -> saved_row_count saved = length data.
Proof.
  unfold result, save_query_results.
  destruct (makedirs_error h _) as [e'|]; [discriminate|].
  fold filename. fold filepath.
  destruct (write_phase _ _ _ _ _ _ _ _) as [d' [s|e']] eqn:Hw.
  - intros [= <-]. destruct (write_phase_descriptor Hw) as [size ->].
    reflexivity.
  - now intros [= <-].
Qed.

Lemma save_returns_resolved_name (f fm size : text) (n : nat) :
  snd result = Return (SavedFile f fm size n) ->
  f = filename /\ fm = file_format /\ n = length data.
Proof.
  unfold result, save_query_results.
  destruct (makedirs_error h _) as [e'|]; [discriminate|].
  fold filename. fold filepath.
  destruct (write_phase _ _ _ _ _ _ _ _) as [d' [s|e']] eqn:Hw.
  - intros [= ->]. destruct (write_phase_descriptor Hw) as [size' [= -> -> -> ->]].
    auto.
  - discriminate.
Qed.

Lemma write_files_unsupported :
  lower file_format <> str "json" -> lower file_format <> str "csv" ->
  write_files h query data file_format params d filename filepath
  = (d, Raise (ValueError (str "Unsupported file format: " ++ file_format
                           ++ str ". Use 'json' or 'csv'."))).
Proof.
  intros Hj Hc. unfold write_files.
  destruct (text_eqb (lower file_format) (str "json")) eqn:Ej.
  { now apply text_eqb_eq in Ej. }
  destruct (text_eqb (lower file_format) (str "csv")) eqn:Ec.
  { now apply text_eqb_eq in Ec. }
  reflexivity.
Qed.

Lemma write_files_open_error (e : Exc) :
  open_error h filepath = Some e ->
  lower file_format = str "json"
  \/ (lower file_format = str "csv" /\ data <> []) ->
  write_files h query data file_format params d filename filepath
  = (d, Raise e).
Proof.
  intros He Hf. unfold write_files, write_file.
  destruct Hf as [->|[-> Hd]]; simpl; rewrite He; [reflexivity|].
  destruct data; [contradiction|reflexivity].
Qed.

Lemma write_files_empty_csv :
  lower file_format = str "csv" -> data = [] ->
  write_files h query data file_format params d filename filepath
  = (d, Return tt).
Proof. intros Hf ->. unfold write_files. rewrite Hf. reflexivity. Qed.

End Saving.

Lemma filter_none (keep : ascii -> bool) (s : text) :
  forallb (fun c => negb (keep c)) s = true -> filter keep s = [].
Proof.
  induction s as [|c s IH]; simpl; [reflexivity|].
  rewrite andb_true_iff, negb_true_iff. intros [-> Hs]. now apply IH.
Qed.

(** C10.  A custom name that is not empty and holds no kept character is
    sanitized to the empty base name; the file name is then the dot
    followed by the format, and a descriptor that [save_query_results]
    returns carries that name: no default name is put in its place and the
    call is not refused. *)
Theorem empty_base_name_is_kept
    (h : Exporter.Host) (query file_format name : text) :
  name <> [] ->
  forallb (fun c => negb (Exporter.keep_custom c)) name = true ->
  Exporter.safe_filename name = []
  /\ Exporter.resolve_filename h query file_format (Some name)
     = str "." ++ file_format
  /\ (forall data params d f fm size n,
        snd (Exporter.save_query_results h query data file_format params d
               (Some name))
        = Return (Exporter.SavedFile f fm size n) ->
        f = str "." ++ file_format).
Proof.
  intros Hne Hall.
  assert (Hs : Exporter.safe_filename name = []).
  { unfold Exporter.safe_filename. now rewrite (filter_none _ _ Hall). }
  assert (Hr : Exporter.resolve_filename h query file_format (Some name)
               = str "." ++ file_format).
  { destruct name; [contradiction|]. unfold Exporter.resolve_filename.
    now rewrite Hs. }
  repeat split; auto.
  intros data params d f fm size n H.
  apply save_returns_resolved_name in H as (-> & _). exact Hr.
Qed.

Lemma empty_base_name_is_kept_witness :
  snd (Exporter.save_query_results Demo.host (str "SELECT 1") Demo.two_rows
         (str "json") None Demo.empty_disk (Some (str "###")))
  = Return (Exporter.SavedFile (str ".json") (str "json") (str "120 B") 2)
  /\ Exporter.resolve_filename Demo.host (str "SELECT 1") (str "json")
       (Some (str "###"))
     = str ".json".
Proof.
  split; [reflexivity|].
  apply (proj1 (proj2 (empty_base_name_is_kept Demo.host (str "SELECT 1")
                         (str "json") (name := str "###")
                         ltac:(discriminate) eq_refl))).
Defined.

(** C6.  With no rows and a format that lower-cases to [csv], the branch
    of lines 235-255 writes nothing, yet line 258 reads the size of the
    data file all the same.  Once the output directory is there, the call
    changes no file and raises nothing, and what it returns is neither a
    descriptor of this export nor a status saying that there was nothing
    to write.  When no file of that name is on the disk, it prints the
    WARNING line and returns the error mapping of a failed write,
    [Failed to save file: [Errno 2] No such file or directory: ] followed
    by the quoted path.  When an earlier export left a file of that name,
    it prints the SUCCESS line and returns a descriptor with the size of
    that file and a row count of zero. *)
Theorem empty_csv_export_reads_unwritten_file
    (h : Exporter.Host) (query file_format : text)
    (params : option (list Value)) (d : Exporter.Disk)
    (custom_filename : option text) :
  lower file_format = str "csv" ->
  Exporter.makedirs_error h (str "temp_data") = None ->
  let filename :=
    Exporter.resolve_filename h query file_format custom_filename in
  let filepath := str "temp_data/" ++ filename in
  let result :=
    Exporter.save_query_results h query [] file_format params d
      custom_filename in
  (forall p, Exporter.files (fst result) p = Exporter.files d p)
  /\ (Exporter.files d filepath = None ->
      snd result
      = Return (Exporter.SaveFailed
                  (str "Failed to save file: [Errno 2] No such file or directory: '"
                   ++ filepath ++ str "'") 0)
      /\ Exporter.stdout (fst result)
         = Exporter.stdout d
           ++ [str "WARNING: Failed to save query results to file: [Errno 2] No such file or directory: '"
               ++ filepath ++ str "'"])
  /\ (forall body,
      Exporter.files d filepath = Some body ->
      snd result
      = Return (Exporter.SavedFile filename file_format
                  (Exporter.format_file_size h (Exporter.encoded_size h body))
                  0)
      /\ Exporter.stdout (fst result)
         = Exporter.stdout d
           ++ [str "SUCCESS: Query results saved to: " ++ filepath]).
Proof.
  intros Hf Hm. cbv zeta.
  rewrite save_query_results_try by exact Hm.
  unfold Exporter.write_phase.
  rewrite write_files_empty_csv by auto.
  destruct (Exporter.files d _) as [body|] eqn:Hfile; simpl.
  - split; [reflexivity|]. split; [discriminate|].
    intros body' [= <-]. split; reflexivity.
  - split; [reflexivity|]. split; [intros _; split; reflexivity|].
    discriminate.
Qed.

Lemma empty_csv_export_reads_unwritten_file_witness :
  (let result :=
     Exporter.save_query_results Demo.host (str "SELECT 1") [] (str "csv")
       None Demo.empty_disk (Some (str "report")) in
   snd result
   = Return (Exporter.SaveFailed
               (str "Failed to save file: [Errno 2] No such file or directory: 'temp_data/report.csv'")
               0)
   /\ Exporter.stdout (fst result)
      = [str "WARNING: Failed to save query results to file: [Errno 2] No such file or directory: 'temp_data/report.csv'"])
  /\ (let stale := Exporter.CsvTable [str "id"] [[Some (VInt 1)]] in
      let result :=
        Exporter.save_query_results Demo.host (str "SELECT 1") [] (str "csv")
          None (DemoTools.disk_with (str "temp_data/report.csv") stale)
          (Some (str "report")) in
      snd result
      = Return (Exporter.SavedFile (str "report.csv") (str "csv")
                  (str "120 B") 0)
      /\ Exporter.stdout (fst result)
         = [str "SUCCESS: Query results saved to: temp_data/report.csv"]
      /\ Exporter.files (fst result) (str "temp_data/report.csv")
         = Some stale).
Proof.
  cbv zeta. split.
  - apply (proj1 (proj2
             (@empty_csv_export_reads_unwritten_file Demo.host
                (str "SELECT 1") (str "csv") None Demo.empty_disk
                (Some (str "report")) eq_refl eq_refl))).
    reflexivity.
  - pose proof
      (@empty_csv_export_reads_unwritten_file Demo.host (str "SELECT 1")
         (str "csv") None
         (DemoTools.disk_with (str "temp_data/report.csv")
            (Exporter.CsvTable [str "id"] [[Some (VInt 1)]]))
         (Some (str "report")) eq_refl eq_refl) as (Hfiles & _ & Hstale).
    destruct (Hstale _ eq_refl) as [Hres Hout].
    split; [exact Hres|]. split; [exact Hout|].
    rewrite Hfiles. reflexivity.
Defined.

(** C9.  An exception leaves [save_query_results] only from the creation
    of the output directory, before the file name is resolved.  Past that
    point every exception of the write phase is turned into the error
    mapping, whose message is [Failed to save file: ] followed by the text
    of the exception and whose row count is the length of the data; every
    mapping returned, descriptor or error, carries that row count.  This
    covers a format that lower-cases to neither [json] nor [csv], which
    writes no file, and a failure to open the data file, which leaves the
    disk as it was. *)
Theorem write_phase_failures_are_returned
    (h : Exporter.Host) (query : text) (data : list Row) (file_format : text)
    (params : option (list Value)) (d : Exporter.Disk)
    (custom_filename : option text) :
  let filename :=
    Exporter.resolve_filename h query file_format custom_filename in
  let filepath := str "temp_data/" ++ filename in
  let result :=
    Exporter.save_query_results h query data file_format params d
      custom_filename in
  (forall e, snd result = Raise e ->
             Exporter.makedirs_error h (str "temp_data") = Some e)
  /\ (forall saved, snd result = Return saved ->
                    Exporter.saved_row_count saved = length data)
  /\ (Exporter.makedirs_error h (str "temp_data") = None ->
      (forall d' e,
          Exporter.write_phase h query data file_format params d
            filename filepath = (d', Raise e) ->
          result
          = (Exporter.print d'
               (str "WARNING: Failed to save query results to file: "
                ++ exc_str e),
             Return (Exporter.SaveFailed
                       (str "Failed to save file: " ++ exc_str e)
                       (length data))))
      /\ (lower file_format <> str "json" ->
          lower file_format <> str "csv" ->
          snd result
          = Return (Exporter.SaveFailed
                      (str "Failed to save file: Unsupported file format: "
                       ++ file_format ++ str ". Use 'json' or 'csv'.")
                      (length data))
          /\ forall p, Exporter.files (fst result) p = Exporter.files d p)
      /\ (forall e,
          Exporter.open_error h filepath = Some e ->
          lower file_format = str "json"
          \/ (lower file_format = str "csv" /\ data <> []) ->
          snd result
          = Return (Exporter.SaveFailed
                      (str "Failed to save file: " ++ exc_str e)
                      (length data))
          /\ forall p, Exporter.files (fst result) p = Exporter.files d p)).
Proof.
  cbv zeta. split; [apply save_raises_only_from_makedirs|].
  split; [apply save_returns_row_count|].
  intros Hm. rewrite save_query_results_try by exact Hm.
  split; [|split].
  - intros d' e ->. reflexivity.
  - intros Hj Hc. unfold Exporter.write_phase.
    rewrite write_files_unsupported by assumption. simpl.
    split; reflexivity.
  - intros e He Hf. unfold Exporter.write_phase.
    rewrite (@write_files_open_error h query data file_format params d custom_filename e He Hf). simpl.
    split; reflexivity.
Qed.

Lemma write_phase_failures_are_returned_witness :
  snd (Exporter.save_query_results Demo.host (str "SELECT 1") Demo.two_rows
         (str "xml") None Demo.empty_disk (Some (str "report")))
  = Return (Exporter.SaveFailed
              (str "Failed to save file: Unsupported file format: xml. Use 'json' or 'csv'.")
              2)
  /\ snd (Exporter.save_query_results Demo.readonly_host (str "SELECT 1")
            Demo.two_rows (str "json") None Demo.empty_disk
            (Some (str "report")))
     = Return (Exporter.SaveFailed
                 (str "Failed to save file: [Errno 13] Permission denied: 'temp_data/report.json'")
                 2).
Proof.
  split.
  - apply (proj1 (proj1 (proj2 (proj2 (proj2
             (write_phase_failures_are_returned Demo.host (str "SELECT 1")
                Demo.two_rows (str "xml") None Demo.empty_disk
                (Some (str "report")))) eq_refl))
             ltac:(discriminate) ltac:(discriminate))).
  - apply (proj1 (proj2 (proj2 (proj2 (proj2
             (write_phase_failures_are_returned Demo.readonly_host
                (str "SELECT 1") Demo.two_rows (str "json") None
                Demo.empty_disk (Some (str "report")))) eq_refl))
             _ eq_refl (or_introl eq_refl))).
Defined.

(** * Further properties *)

(** ** Trimming *)

Lemma lstrip_idempotent (s : text) : lstrip (lstrip s) = lstrip s.
Proof.
  induction s as [|c s IH]; simpl; [reflexivity|].
  destruct (isspace c) eqn:Hc; [exact IH|]. simpl. now rewrite Hc.
Qed.

Lemma lstrip_app_nonspace (s rest : text) (c : ascii) :
  isspace c = false -> lstrip (s ++ c :: rest) = lstrip s ++ c :: rest.
Proof.
  intros Hc. induction s as [|x s IH]; simpl.
  - now rewrite Hc.
  - now destruct (isspace x).
Qed.

Lemma strip_snoc_nonspace (s : text) (c : ascii) :
  isspace c = false -> strip (s ++ [c]) = lstrip s ++ [c].
Proof.
  intros Hc. unfold strip, rstrip.
  rewrite lstrip_app_nonspace by assumption.
  rewrite rev_app_distr. simpl. rewrite Hc. simpl.
  now rewrite rev_involutive.
Qed.

Lemma strip_lstrip (s : text) : strip (lstrip s) = strip s.
Proof. unfold strip. now rewrite lstrip_idempotent. Qed.

Lemma endswith_snoc (c : ascii) (s : text) : endswith [c] (s ++ [c]) = true.
Proof.
  unfold endswith. rewrite rev_app_distr. simpl. now rewrite Ascii.eqb_refl.
Qed.

(** What the trimming of [read_query] makes of a query followed by a
    semicolon. *)
Lemma trim_query_semicolon (q : text) :
  Explorer.trim_query (q ++ [";"%char]) = strip q.
Proof.
  unfold Explorer.trim_query.
  rewrite strip_snoc_nonspace by reflexivity.
  change (str ";") with [";"%char]. rewrite endswith_snoc.
  rewrite removelast_last. apply strip_lstrip.
Qed.

Lemma Forall_removelast (A : Type) (P : A -> Prop) (l : list A) :
  Forall P l -> Forall P (removelast l).
Proof.
  induction 1 as [|x l Hx Hl IH]; simpl; [constructor|].
  destruct l; [constructor|]. constructor; assumption.
Qed.

Lemma Forall_trim_query (P : ascii -> Prop) (q : text) :
  Forall P q -> Forall P (Explorer.trim_query q).
Proof.
  intros H. unfold Explorer.trim_query.
  destruct (endswith _ _).
  - apply Forall_strip, Forall_removelast, Forall_strip, H.
  - apply Forall_strip, H.
Qed.

Lemma trim_query_keeps_absent (c : ascii) (q : text) :
  ~ In c q -> ~ In c (Explorer.trim_query q).
Proof.
  intros Hq Hin.
  assert (H : Forall (fun x => x <> c) (Explorer.trim_query q)).
  { apply Forall_trim_query, Forall_forall. intros x Hx ->. contradiction. }
  rewrite Forall_forall in H. now apply (H c Hin).
Qed.

(** X2.  A semicolon appended to a query that does not already end in one
    changes nothing: both servers trim it away, give the same verdict and
    run [read_query] to the same events and the same result. *)
Theorem trailing_semicolon_is_ignored (q : text) :
  endswith (str ";") (strip q) = false ->
  Explorer.trim_query (q ++ [";"%char]) = Explorer.trim_query q
  /\ Explorer.validate (q ++ [";"%char]) = Explorer.validate q
  /\ ExplorerSSE.validate (q ++ [";"%char]) = ExplorerSSE.validate q
  /\ (forall rt params fetch_all row_limit,
        Explorer.read_query rt (q ++ [";"%char]) params fetch_all row_limit
        = Explorer.read_query rt q params fetch_all row_limit
        /\ ExplorerSSE.read_query rt (q ++ [";"%char]) params fetch_all row_limit
           = ExplorerSSE.read_query rt q params fetch_all row_limit).
Proof.
  intros Hend.
  assert (Ht : Explorer.trim_query (q ++ [";"%char]) = Explorer.trim_query q).
  { rewrite trim_query_semicolon. unfold Explorer.trim_query.
    now rewrite Hend. }
  assert (Hv : Explorer.validate (q ++ [";"%char]) = Explorer.validate q).
  { unfold Explorer.validate. now rewrite Ht. }
  assert (Hs : ExplorerSSE.validate (q ++ [";"%char]) = ExplorerSSE.validate q).
  { unfold ExplorerSSE.validate.
    change ExplorerSSE.trim_query with Explorer.trim_query. now rewrite Ht. }
  repeat split; auto.
  - unfold Explorer.read_query. now rewrite Hv.
  - unfold ExplorerSSE.read_query. now rewrite Hs.
Qed.

Lemma trailing_semicolon_is_ignored_witness :
  Explorer.validate (str "  SELECT 1 ;")
  = Explorer.validate (str "  SELECT 1 ").
Proof.
  apply (proj1 (proj2 (trailing_semicolon_is_ignored (str "  SELECT 1 ")
                         eq_refl))).
Defined.

(** ** The two scanners *)

Lemma scanners_agree_from (sql : text) (s d : bool) :
  ~ In "\"%char sql ->
  ExplorerSSE.scan_statements s d sql
  = Explorer.scan_statements s d false sql.
Proof.
  revert s d. induction sql as [|c rest IH]; intros s d Hn; [reflexivity|].
  assert (Hc : Ascii.eqb c "\" = false).
  { apply Ascii.eqb_neq. intros ->. apply Hn. now left. }
  assert (Hr : ~ In "\"%char rest) by (intros H; apply Hn; now right).
  simpl. rewrite Hc.
  destruct (Ascii.eqb c "'" && negb d); [now apply IH|].
  destruct (Ascii.eqb c DQ && negb s); [now apply IH|].
  destruct (Ascii.eqb c ";" && negb s && negb d); [reflexivity|now apply IH].
Qed.

Lemma sse_validate_multiple (q : text) :
  ExplorerSSE.validate q = ExplorerSSE.Rejected ExplorerSSE.MultipleStatements
  <-> ExplorerSSE.contains_multiple_statements (ExplorerSSE.trim_query q) = true.
Proof.
  unfold ExplorerSSE.validate.
  destruct (ExplorerSSE.contains_multiple_statements _); [easy|].
  destruct (negb _); [|easy].
  destruct (ExplorerSSE.contains_dangerous_keywords _) as [[] w]; easy.
Qed.

(** X1.  On a query without a backslash the scanner of the SSE server and
    the scanner of the stdio server give the same answer, so the two
    servers reject the same such queries as multiple statements. *)
Theorem scanners_agree_without_backslash (q : text) :
  ~ In "\"%char q ->
  ExplorerSSE.contains_multiple_statements (ExplorerSSE.trim_query q)
  = Explorer.contains_multiple_statements (Explorer.trim_query q)
  /\ (ExplorerSSE.validate q
      = ExplorerSSE.Rejected ExplorerSSE.MultipleStatements
      <-> Explorer.validate q = Explorer.Rejected Explorer.MultipleStatements).
Proof.
  intros Hq.
  assert (H : ExplorerSSE.contains_multiple_statements (ExplorerSSE.trim_query q)
              = Explorer.contains_multiple_statements (Explorer.trim_query q)).
  { apply scanners_agree_from.
    change ExplorerSSE.trim_query with Explorer.trim_query.
    now apply trim_query_keeps_absent. }
  split; [exact H|].
  now rewrite sse_validate_multiple, validate_multiple, H.
Qed.

Lemma scanners_agree_without_backslash_witness :
  ExplorerSSE.validate (str "select ';' ; select 2")
  = ExplorerSSE.Rejected ExplorerSSE.MultipleStatements.
Proof.
  apply (proj2 (proj2 (@scanners_agree_without_backslash
                         (str "select ';' ; select 2")
                         ltac:(vm_compute; intuition discriminate)))).
  reflexivity.
Defined.

(** ** The keyword search *)

Lemma hd_error_app_nonempty (A : Type) (l r : list A) :
  l <> [] -> hd_error (l ++ r) = hd_error l.
Proof. destruct l; [contradiction|reflexivity]. Qed.

Section KeywordSearch.

Variable kw : text.
Hypothesis kw_starts : is_word (hd_error kw) = true.
Hypothesis kw_ends : is_word (last_of None kw) = true.

Lemma kw_nonempty : kw <> [].
Proof. intros H. rewrite H in kw_starts. discriminate. Qed.

Lemma last_of_kw (before : option ascii) : last_of before kw = last_of None kw.
Proof.
  unfold last_of. destruct (rev kw) eqn:Hr; [|reflexivity].
  apply (f_equal (@rev ascii)) in Hr. rewrite rev_involutive in Hr.
  now destruct kw_nonempty.
Qed.

Lemma last_of_cons (before : option ascii) (c : ascii) (s : text) :
  last_of before (c :: s) = last_of (Some c) s.
Proof.
  unfold last_of. simpl. destruct (rev s); reflexivity.
Qed.

Lemma startswith_split (p s : text) :
  startswith p s = true <-> exists rest, s = p ++ rest.
Proof.
  split.
  - revert s; induction p as [|x p IH]; intros s H.
    + now exists s.
    + destruct s as [|y s]; simpl in H; [discriminate|].
      apply andb_true_iff in H as [Hxy H].
      apply Ascii.eqb_eq in Hxy as ->.
      destruct (IH _ H) as [rest ->]. now exists rest.
  - intros [rest ->]. apply startswith_app.
Qed.

Lemma match_word_here_spec (before : option ascii) (s : text) :
  match_word_here before kw s = true <->
  exists rest, s = kw ++ rest
               /\ is_word before = false
               /\ is_word (hd_error rest) = false.
Proof.
  unfold match_word_here. rewrite !andb_true_iff, startswith_split.
  split.
  - intros [[Hb [rest ->]] He]. exists rest. split; [reflexivity|].
    rewrite skipn_app, skipn_all, Nat.sub_diag in He. simpl in He.
    rewrite last_of_kw in He. unfold at_boundary in *.
    rewrite kw_ends in He.
    rewrite (hd_error_app_nonempty _ kw_nonempty), kw_starts in Hb.
    destruct (is_word before), (is_word (hd_error rest)); easy.
  - intros (rest & -> & Hb & He). repeat split; eauto.
    + unfold at_boundary.
      now rewrite (hd_error_app_nonempty _ kw_nonempty), kw_starts, Hb.
    + rewrite skipn_app, skipn_all, Nat.sub_diag. simpl.
      rewrite last_of_kw. unfold at_boundary. now rewrite kw_ends, He.
Qed.

Lemma search_word_from_spec (s : text) (before : option ascii) :
  search_word_from before kw s = true <->
  exists pre rest,
    s = pre ++ kw ++ rest
    /\ is_word (last_of before pre) = false
    /\ is_word (hd_error rest) = false.
Proof.
  revert before. induction s as [|c s IH]; intros before.
  - simpl. rewrite orb_false_r, match_word_here_spec. split.
    + intros (rest & H & Hb & He). exists [], rest. auto.
    + intros (pre & rest & H & Hb & He). destruct pre; [eauto|discriminate].
  - simpl. rewrite orb_true_iff, match_word_here_spec, IH. split.
    + intros [(rest & H & Hb & He)|(pre & rest & -> & Hb & He)].
      * exists [], rest. auto.
      * exists (c :: pre), rest. rewrite last_of_cons. auto.
    + intros (pre & rest & H & Hb & He). destruct pre as [|c' pre].
      * left. eauto.
      * right. injection H as -> ->. exists pre, rest.
        rewrite last_of_cons in Hb. auto.
Qed.

End KeywordSearch.

Lemma denylist_keywords_are_words (k : text) :
  In k Explorer.dangerous_keywords ->
  is_word (hd_error k) = true /\ is_word (last_of None k) = true.
Proof.
  intros H.
  assert (Hall : forallb (fun k => is_word (hd_error k)
                                   && is_word (last_of None k))
                   Explorer.dangerous_keywords = true) by reflexivity.
  rewrite forallb_forall in Hall. apply andb_true_iff. now apply Hall.
Qed.

(** X3.  The whole-word search of the keyword check finds a keyword of the
    denylist in a text exactly when the keyword occurs there with no
    letter, digit or underscore right before it and none right after it;
    an occurrence inside a longer identifier does not count. *)
Theorem keyword_search_is_whole_word (k s : text) :
  In k Explorer.dangerous_keywords ->
  re_search_word k s = true <->
  exists pre rest,
    s = pre ++ k ++ rest
    /\ is_word (hd_error (rev pre)) = false
    /\ is_word (hd_error rest) = false.
Proof.
  intros Hk. destruct (denylist_keywords_are_words Hk) as [Hs He].
  unfold re_search_word. rewrite (@search_word_from_spec k Hs He).
  assert (Hl : forall pre, last_of None pre = hd_error (rev pre)).
  { intros pre. unfold last_of. now destruct (rev pre). }
  split; intros (pre & rest & H & Hb & Ha); exists pre, rest;
    (split; [exact H|split; [|exact Ha]]).
  - now rewrite <- Hl.
  - now rewrite Hl.
Qed.

Lemma keyword_search_is_whole_word_witness :
  re_search_word (str "update") (str "select updated_at, x update y") = true.
Proof.
  apply (proj2 (@keyword_search_is_whole_word (str "update")
                  (str "select updated_at, x update y")
                  ltac:(simpl; tauto))).
  exists (str "select updated_at, x "), (str " y").
  repeat split.
Defined.

(** ** The schema tools of the stdio server *)

Section Tools.
Import ExplorerTools.

Variable rt : Runtime.

Lemma connected_open (A : Type) (cfg : Config) (prefix : text)
    (body : Session A) :
  rt_connect rt cfg = None ->
  connected rt (Return cfg) prefix body
  = (EvConnect cfg :: fst body ++ [EvClose],
     match snd body with
     | Raise (MySQLError m) => Raise (ValueError (prefix ++ m))
     | _ => snd body
     end).
Proof. intros H. unfold connected. rewrite H. now destruct body. Qed.

Let check_event (table_name : text) : Event :=
  EvExecute (str "SHOW TABLES LIKE %s") [VStr table_name].

Lemma table_checked_missing (A : Type) (table_name : text) (k : Session A)
    (d : option (list text)) (rows : list Row) :
  rt_execute rt (str "SHOW TABLES LIKE %s") [VStr table_name] = Fetched d rows ->
  row_truthy (hd_error rows) = false ->
  table_checked rt table_name k
  = ([check_event table_name],
     Raise (ValueError (str "Table '" ++ table_name ++ str "' does not exist"))).
Proof.
  intros He Hr. unfold table_checked, execute. now rewrite He, Hr.
Qed.

Lemma table_checked_found (A : Type) (table_name : text) (k : Session A)
    (d : option (list text)) (rows : list Row) :
  rt_execute rt (str "SHOW TABLES LIKE %s") [VStr table_name] = Fetched d rows ->
  row_truthy (hd_error rows) = true ->
  table_checked rt table_name k = (check_event table_name :: fst k, snd k).
Proof.
  intros He Hr. unfold table_checked, execute. rewrite He, Hr. now destruct k.
Qed.

End Tools.

(** X4.  When the existence check finds no table of that name,
    [describe_table], [show_table_indexes] and [show_create_table] raise
    the not-found error having executed the check alone, the table name
    passed as a bound parameter, and the connection is closed: no schema
    statement runs. *)
Theorem missing_table_stops_before_schema_query
    (rt : Runtime) (table_name : text) (cfg : Config)
    (d : option (list text)) (rows : list Row) :
  Explorer.get_db_config rt = Return cfg ->
  rt_connect rt cfg = None ->
  rt_execute rt (str "SHOW TABLES LIKE %s") [VStr table_name] = Fetched d rows ->
  ExplorerTools.row_truthy (hd_error rows) = false ->
  let events :=
    [EvConnect cfg;
     EvExecute (str "SHOW TABLES LIKE %s") [VStr table_name];
     EvClose] in
  let not_found :=
    ValueError (str "Table '" ++ table_name ++ str "' does not exist") in
  ExplorerTools.describe_table rt table_name = (events, Raise not_found)
  /\ ExplorerTools.show_table_indexes rt table_name = (events, Raise not_found)
  /\ ExplorerTools.show_create_table rt table_name = (events, Raise not_found).
Proof.
  intros Hc Hn He Hr. cbv zeta.
  unfold ExplorerTools.describe_table, ExplorerTools.show_table_indexes,
    ExplorerTools.show_create_table.
  rewrite Hc. rewrite !connected_open by exact Hn.
  rewrite !(table_checked_missing _ _ _ He Hr). repeat split.
Qed.

Lemma missing_table_stops_before_schema_query_witness :
  ExplorerTools.describe_table DemoTools.rt_empty (str "flights")
  = ([EvConnect Demo.config;
      EvExecute (str "SHOW TABLES LIKE %s") [VStr (str "flights")];
      EvClose],
     Raise (ValueError (str "Table 'flights' does not exist"))).
Proof.
  apply (proj1 (@missing_table_stops_before_schema_query
                  DemoTools.rt_empty (str "flights") Demo.config None []
                  eq_refl eq_refl eq_refl eq_refl)).
Defined.

(** X5.  When the existence check finds the table, [describe_table] and
    [show_table_indexes] execute exactly one more statement, the table
    name put between backticks as it is and no parameter bound; they
    return the rows of that statement unchanged, turn a driver error of it
    into a [ValueError] whose message starts with [MySQL error: ], and
    close the connection in both cases. *)
Theorem found_table_runs_one_schema_statement
    (rt : Runtime) (table_name : text) (cfg : Config)
    (d : option (list text)) (rows : list Row) :
  Explorer.get_db_config rt = Return cfg ->
  rt_connect rt cfg = None ->
  rt_execute rt (str "SHOW TABLES LIKE %s") [VStr table_name] = Fetched d rows ->
  ExplorerTools.row_truthy (hd_error rows) = true ->
  let events sql :=
    [EvConnect cfg;
     EvExecute (str "SHOW TABLES LIKE %s") [VStr table_name];
     EvExecute sql [];
     EvClose] in
  let outcome sql :=
    match rt_execute rt sql [] with
    | Fetched _ answer => Return answer
    | Failed (MySQLError m) => Raise (ValueError (str "MySQL error: " ++ m))
    | Failed e => Raise e
    end in
  let describe := str "DESCRIBE `" ++ table_name ++ str "`" in
  let indexes := str "SHOW INDEX FROM `" ++ table_name ++ str "`" in
  ExplorerTools.describe_table rt table_name
  = (events describe, outcome describe)
  /\ ExplorerTools.show_table_indexes rt table_name
     = (events indexes, outcome indexes).
Proof.
  intros Hc Hn He Hr. cbv zeta.
  unfold ExplorerTools.describe_table, ExplorerTools.show_table_indexes.
  rewrite Hc. rewrite !connected_open by exact Hn.
  rewrite !(table_checked_found _ _ _ He Hr).
  unfold ExplorerTools.execute, ExplorerTools.ret.
  split.
  - destruct (rt_execute rt (str "DESCRIBE `" ++ _) []) as [? ?|[]];
      reflexivity.
  - destruct (rt_execute rt (str "SHOW INDEX FROM `" ++ _) []) as [? ?|[]];
      reflexivity.
Qed.

Lemma found_table_runs_one_schema_statement_witness :
  ExplorerTools.describe_table Demo.rt (str "flights")
  = ([EvConnect Demo.config;
      EvExecute (str "SHOW TABLES LIKE %s") [VStr (str "flights")];
      EvExecute (str "DESCRIBE `flights`") [];
      EvClose],
     Return Demo.two_rows).
Proof.
  apply (proj1 (@found_table_runs_one_schema_statement
                  Demo.rt (str "flights") Demo.config
                  (Some [str "id"; str "name"]) Demo.two_rows
                  eq_refl eq_refl eq_refl eq_refl)).
Defined.

(** ** [sorted] on table names *)


Section SortedNames.
Import PyMore.

(** [a <= b] on texts, as [not (b < a)]. *)
Let text_le (a b : text) : Prop := text_ltb b a = false.

Lemma text_ltb_asym (a b : text) : text_ltb a b = true -> text_ltb b a = false.
Proof.
  revert b. induction a as [|x a IH]; intros [|y b]; simpl; try easy.
  rewrite orb_true_iff, andb_true_iff, orb_false_iff, andb_false_iff.
  intros [Hlt|[Heq Hab]].
  - apply N.ltb_lt in Hlt. split.
    + apply N.ltb_ge. lia.
    + left. apply Ascii.eqb_neq. intros ->. lia.
  - apply Ascii.eqb_eq in Heq as ->. split.
    + apply N.ltb_irrefl.
    + right. now apply IH.
Qed.

Lemma insert_sorted_texts (x : text) (l : list text) :
  exists l',
    insert_sorted (VStr x) (map VStr l) = Return (map VStr l')
    /\ Permutation (x :: l) l'
    /\ (forall y, HdRel text_le y l -> text_le y x -> HdRel text_le y l')
    /\ (Sorted text_le l -> Sorted text_le l').
Proof.
  induction l as [|y l (l' & He & Hp & Hh & Hs)].
  - exists [x]. split; [reflexivity|]. split; [reflexivity|].
    split; intros; repeat constructor; assumption.
  - simpl. destruct (text_ltb y x) eqn:Hyx.
    + exists (y :: l'). rewrite He. split; [reflexivity|]. split; [|split].
      * rewrite perm_swap. now constructor.
      * intros z Hz _. inversion Hz; subst. now constructor.
      * intros Hsorted. inversion Hsorted; subst. constructor; [auto|].
        apply Hh; [assumption|]. now apply text_ltb_asym.
    + exists (x :: y :: l). split; [reflexivity|]. split; [reflexivity|].
      split.
      * intros z _ Hzx. now constructor.
      * intros Hsorted. constructor; [assumption|]. now constructor.
Qed.

Lemma sorted_texts (l : list text) :
  exists l',
    sorted (map VStr l) = Return (map VStr l')
    /\ Permutation l l' /\ Sorted text_le l'.
Proof.
  induction l as [|x l (l1 & He & Hp & Hs)].
  - exists []. repeat split; auto.
  - simpl. rewrite He.
    destruct (insert_sorted_texts x l1) as (l' & He' & Hp' & _ & Hs').
    exists l'. repeat split; auto.
    now rewrite <- Hp', Hp.
Qed.

Lemma first_values_texts (rows : list Row) (names : list text) :
  Forall2 (fun row name => exists col rest, row = (col, VStr name) :: rest)
          rows names ->
  ExplorerTools.first_values rows = Return (map VStr names).
Proof.
  induction 1 as [|row name rows names (col & rest & ->) _ IH];
    [reflexivity|].
  simpl. now rewrite IH.
Qed.

Lemma first_cells_texts (rows : list Row) (names : list text) :
  Forall2 (fun row name => exists col rest, row = (col, VStr name) :: rest)
          rows names ->
  ExplorerSSETools.first_cells rows = Return (map VStr names).
Proof.
  induction 1 as [|row name rows names (col & rest & ->) _ IH];
    [reflexivity|].
  simpl. now rewrite IH.
Qed.

(** X6.  When the driver answers [SHOW TABLES] with rows whose first cell
    is a text, [list_tables] returns those texts, each as often as it was
    answered, in ascending order of code points, having executed that one
    statement and closed the connection; so does [list_tables] of the SSE
    server. *)
Theorem list_tables_returns_sorted_names
    (rt : Runtime) (d : option (list text)) (rows : list Row)
    (names : list text) :
  rt_execute rt (str "SHOW TABLES") [] = Fetched d rows ->
  Forall2 (fun row name => exists col rest, row = (col, VStr name) :: rest)
          rows names ->
  exists ordered,
    Permutation names ordered
    /\ Sorted (fun a b => text_ltb b a = false) ordered
    /\ (forall cfg,
          Explorer.get_db_config rt = Return cfg -> rt_connect rt cfg = None ->
          ExplorerTools.list_tables rt
          = ([EvConnect cfg; EvExecute (str "SHOW TABLES") []; EvClose],
             Return (map VStr ordered)))
    /\ (forall cfg,
          ExplorerSSE.get_db_config rt = Return cfg -> rt_connect rt cfg = None ->
          ExplorerSSETools.list_tables rt
          = ([EvConnect cfg; EvExecute (str "SHOW TABLES") []; EvClose],
             Return (map VStr ordered))).
Proof.
  intros He Hrows.
  destruct (sorted_texts names) as (ordered & Hs & Hp & Hsorted).
  exists ordered. split; [exact Hp|]. split; [exact Hsorted|].
  split; intros cfg Hc Hn.
  - unfold ExplorerTools.list_tables. rewrite Hc.
    rewrite connected_open by exact Hn.
    unfold ExplorerTools.execute. rewrite He.
    rewrite (first_values_texts Hrows). unfold ExplorerTools.of_result.
    rewrite Hs. reflexivity.
  - unfold ExplorerSSETools.list_tables. rewrite Hc.
    rewrite connected_open by exact Hn.
    unfold ExplorerTools.execute. rewrite He.
    rewrite (first_cells_texts Hrows). unfold ExplorerTools.of_result.
    rewrite Hs. reflexivity.
Qed.

End SortedNames.

Lemma list_tables_returns_sorted_names_witness :
  exists ordered,
    Permutation [str "flights"; str "airports"; str "crews"] ordered
    /\ ExplorerTools.list_tables DemoTools.rt_tables
       = ([EvConnect Demo.config; EvExecute (str "SHOW TABLES") []; EvClose],
          Return (map VStr ordered)).
Proof.
  destruct (@list_tables_returns_sorted_names DemoTools.rt_tables None
              DemoTools.table_rows
              [str "flights"; str "airports"; str "crews"] eq_refl)
    as (ordered & Hp & _ & Hmain & _).
  - repeat constructor; eexists; eexists; reflexivity.
  - exists ordered. split; [exact Hp|]. now apply Hmain.
Defined.

Section SortedFails.
Import PyMore.

(** Texts compare with texts and numbers with numbers. *)
Let kind (v : Value) : option bool :=
  match v with
  | VStr _ => Some true
  | VInt _ | VBool _ => Some false
  | VNone => None
  end.

Lemma py_lt_cases (a b : Value) :
  (exists r k, py_lt a b = Return r /\ kind a = Some k /\ kind b = Some k)
  \/ ((exists e, py_lt a b = Raise e)
      /\ (kind a <> kind b \/ kind a = None)).
Proof.
  destruct a as [|[]|n|s], b as [|[]|m|t]; simpl;
    try (right; split; [eexists; reflexivity|];
         (left; discriminate) || now right);
    left; eauto.
Qed.

(** [sorted] and [insert_sorted] fail with the error of one comparison of
    two elements of the list. *)
Let comparison_fails (l : list Value) (r : Result (list Value)) : Prop :=
  exists a b e, In a l /\ In b l /\ py_lt a b = Raise e /\ r = Raise e.

Lemma insert_sorted_cases (x : Value) (l : list Value) :
  (exists l', insert_sorted x l = Return l'
              /\ (forall v, In v l' <-> v = x \/ In v l)
              /\ (forall y, hd_error l = Some y ->
                            exists k, kind y = Some k /\ kind x = Some k))
  \/ comparison_fails (x :: l) (insert_sorted x l).
Proof.
  induction l as [|y l IH]; simpl.
  - left. exists [x]. split; [reflexivity|]. split; [|discriminate].
    intros v; simpl; intuition.
  - destruct (py_lt_cases y x) as [(r & k & Hlt & Hy & Hx)|[[e Hlt] _]];
      rewrite Hlt.
    2:{ right. exists y, x, e. simpl. auto. }
    destruct r.
    + destruct IH as [(l' & Hl & Hin & _)|(a & b & e & Ha & Hb & Hab & Hl)];
        rewrite Hl.
      * left. exists (y :: l'). split; [reflexivity|]. split.
        -- intros v. simpl. rewrite Hin. intuition.
        -- intros y' [= <-]. eauto.
      * right. exists a, b, e. simpl in Ha, Hb |- *. intuition.
    + left. exists (x :: y :: l). split; [reflexivity|]. split.
      * intros v. simpl. intuition.
      * intros y' [= <-]. eauto.
Qed.

Lemma sorted_cases (l : list Value) :
  (exists l', sorted l = Return l'
              /\ (forall v, In v l' <-> In v l)
              /\ (length l <= 1
                  \/ exists k, forall v, In v l -> kind v = Some k))
  \/ comparison_fails l (sorted l).
Proof.
  induction l as [|x l IH]; simpl.
  - left. exists []. split; [reflexivity|]. split; [tauto|]. left. lia.
  - destruct IH as [(l1 & Hl & Hin & Hu)|(a & b & e & Ha & Hb & Hab & Hl)];
      rewrite Hl.
    2:{ right. exists a, b, e. simpl. auto. }
    destruct (insert_sorted_cases x l1)
      as [(l' & Hl' & Hin' & Hh)|(a & b & e & Ha & Hb & Hab & Hl')].
    2:{ right. exists a, b, e. simpl in Ha, Hb |- *.
        rewrite Hin in Ha, Hb. auto. }
    rewrite Hl'.
    left. exists l'. split; [reflexivity|]. split.
    + intros v. rewrite Hin'. simpl. rewrite Hin. intuition.
    + destruct l1 as [|y l1].
      * left. destruct l as [|z l]; [simpl; lia|].
        exfalso. apply (proj2 (Hin z)). now left.
      * right. destruct (Hh y eq_refl) as (k & Hy & Hx). exists k.
        assert (Hyl : In y l) by (apply Hin; now left).
        intros v [<-|Hv]; [exact Hx|].
        destruct Hu as [Hlen|(k' & Hk')].
        -- destruct l as [|z [|z' l]]; simpl in Hlen; try lia; try easy.
           destruct Hyl as [->|[]]. destruct Hv as [->|[]]. exact Hy.
        -- rewrite (Hk' _ Hyl) in Hy. injection Hy as ->. now apply Hk'.
Qed.

(** [sorted] raises as soon as a text stands beside a value that is no
    text, or [None] beside any other value. *)
Lemma sorted_mixed_raises (l : list Value) :
  (exists s b, In (VStr s) l /\ In b l /\ (forall t, b <> VStr t))
  \/ (In VNone l /\ 2 <= length l) ->
  comparison_fails l (sorted l).
Proof.
  intros H. destruct (sorted_cases l) as [(l' & _ & _ & Hu)|Hr]; [|exact Hr].
  exfalso. destruct H as [(s & b & Hs & Hb & Hnot)|[Hn Hlen]].
  - destruct Hu as [Hlen|(k & Hk)].
    + destruct l as [|z [|z' l]]; simpl in Hlen; try lia; try easy.
      destruct Hs as [Hz|[]]. destruct Hb as [Hz'|[]]. subst z b.
      now apply (Hnot s).
    + pose proof (Hk _ Hs) as H1. pose proof (Hk _ Hb) as H2.
      simpl in H1. injection H1 as <-.
      destruct b; simpl in H2; try discriminate. now apply (Hnot s0).
  - destruct Hu as [Hle|(k & Hk)]; [lia|].
    specialize (Hk _ Hn). discriminate.
Qed.

Lemma first_values_empty_row (rows : list Row) :
  In [] rows ->
  ExplorerTools.first_values rows
  = Raise (IndexError (str "list index out of range")).
Proof.
  induction rows as [|row rest IH]; intros Hin; [destruct Hin|].
  destruct Hin as [->|Hin]; [reflexivity|].
  simpl. destruct row as [|[k v] row]; [reflexivity|].
  simpl. now rewrite (IH Hin).
Qed.

(** X7.  [list_tables] raises [IndexError: list index out of range] when a
    row has no cell.  When the names cannot be ordered (a text beside a
    value that is no text, or [None] beside any other value) it raises the
    [TypeError] of one comparison [a < b] of two of the names, the one
    whose message names the types of [a] and of [b].  Neither is a driver
    error, so neither is wrapped, and the connection is closed. *)
Theorem list_tables_fails_on_odd_rows
    (rt : Runtime) (cfg : Config) (d : option (list text)) (rows : list Row) :
  Explorer.get_db_config rt = Return cfg ->
  rt_connect rt cfg = None ->
  rt_execute rt (str "SHOW TABLES") [] = Fetched d rows ->
  let events := [EvConnect cfg; EvExecute (str "SHOW TABLES") []; EvClose] in
  (In [] rows ->
   ExplorerTools.list_tables rt
   = (events, Raise (IndexError (str "list index out of range"))))
  /\ (forall names,
        ExplorerTools.first_values rows = Return names ->
        (exists s b, In (VStr s) names /\ In b names /\ (forall t, b <> VStr t))
        \/ (In VNone names /\ 2 <= length names) ->
        exists a b,
          In a names /\ In b names
          /\ PyMore.py_lt a b
             = Raise (TypeError
                        (str "'<' not supported between instances of '"
                         ++ PyMore.type_name a ++ str "' and '"
                         ++ PyMore.type_name b ++ str "'"))
          /\ ExplorerTools.list_tables rt
             = (events,
                Raise (TypeError
                         (str "'<' not supported between instances of '"
                          ++ PyMore.type_name a ++ str "' and '"
                          ++ PyMore.type_name b ++ str "'")))).
Proof.
  intros Hc Hn He. cbv zeta.
  unfold ExplorerTools.list_tables. rewrite Hc.
  rewrite connected_open by exact Hn.
  unfold ExplorerTools.execute. rewrite He. split.
  - intros Hin. now rewrite (first_values_empty_row rows Hin).
  - intros names Hf Hmixed. rewrite Hf. unfold ExplorerTools.of_result.
    destruct (sorted_mixed_raises names Hmixed)
      as (a & b & e & Ha & Hb & Hab & Hs).
    exists a, b. rewrite Hs. split; [exact Ha|]. split; [exact Hb|].
    assert (He' : e = TypeError
                        (str "'<' not supported between instances of '"
                         ++ type_name a ++ str "' and '" ++ type_name b
                         ++ str "'")).
    { destruct a as [|[]|n|s], b as [|[]|m|t]; simpl in Hab;
        first [discriminate | (injection Hab as <-; reflexivity)]. }
    subst e. split; [exact Hab|reflexivity].
Qed.

End SortedFails.

Lemma list_tables_fails_on_odd_rows_witness :
  ExplorerTools.list_tables DemoTools.rt_empty_row
  = ([EvConnect Demo.config; EvExecute (str "SHOW TABLES") []; EvClose],
     Raise (IndexError (str "list index out of range"))).
Proof.
  apply (proj1 (@list_tables_fails_on_odd_rows DemoTools.rt_empty_row
                  Demo.config None [[]] eq_refl eq_refl eq_refl)).
  now left.
Defined.

(** ** What the exporter writes *)

Section Written.
Import Exporter.

Lemma put_file_same (d : Disk) (path : text) (body : FileBody) :
  files (put_file d path body) path = Some body.
Proof. simpl. now rewrite (proj2 (text_eqb_eq path path) eq_refl). Qed.

Lemma put_file_other (d : Disk) (path p : text) (body : FileBody) :
  p <> path -> files (put_file d path body) p = files d p.
Proof.
  intros Hp. simpl. destruct (text_eqb p path) eqn:He; [|reflexivity].
  now apply text_eqb_eq in He.
Qed.

Lemma write_file_other (h : Host) (d : Disk) (path p : text)
    (body : FileBody) :
  p <> path -> files (fst (write_file h d path body)) p = files d p.
Proof.
  intros Hp. unfold write_file. destruct (open_error h path); simpl.
  - reflexivity.
  - destruct (text_eqb p path) eqn:He; [|reflexivity].
    now apply text_eqb_eq in He.
Qed.

Lemma replace_from_absent (old new s : text) :
  contains old s = false -> replace_from old new 0 s = s.
Proof.
  induction s as [|c s IH]; [reflexivity|].
  simpl contains. rewrite orb_false_iff. intros [Hs Hc].
  cbn [replace_from]. rewrite Hs. now rewrite IH.
Qed.

(** No key is refused exactly when every key of the row is a field name. *)
Lemma wrong_fields_nil (fieldnames : list text) (row : Row) :
  wrong_fields fieldnames row = [] <->
  (forall key, In key (map fst row) -> In key fieldnames).
Proof.
  unfold wrong_fields. induction (map fst row) as [|k keys IH]; simpl.
  - split; [intros _ key []|reflexivity].
  - destruct (existsb (text_eqb k) fieldnames) eqn:Hk; simpl.
    + rewrite IH. split.
      * intros H key [<-|Hin]; [|now apply H].
        apply existsb_exists in Hk as (f & Hf & Heq).
        now apply text_eqb_eq in Heq as ->.
      * intros H key Hin. apply H. now right.
    + split; [discriminate|]. intros H. exfalso.
      apply not_true_iff_false in Hk. apply Hk. apply existsb_exists.
      exists k. split; [apply H; now left|now apply text_eqb_eq].
Qed.

Lemma dict_to_list_cases (h : Host) (fieldnames : list text) (row : Row) :
  (wrong_fields fieldnames row = []
   /\ dict_to_list h fieldnames row
      = Return (map (fun k => row_get k row) fieldnames))
  \/ (wrong_fields fieldnames row <> []
      /\ dict_to_list h fieldnames row
         = Raise (ValueError
                    (str "dict contains fields not in fieldnames: "
                     ++ wrong_fields_text h (wrong_fields fieldnames row)))).
Proof.
  unfold dict_to_list. destruct (wrong_fields fieldnames row).
  - left. now split.
  - right. split; [discriminate|reflexivity].
Qed.

(** [DictWriter] accepts the rows exactly when every key of every row is a
    key of the first row. *)
Lemma writerows_succeeds (h : Host) (fieldnames : list text)
    (data : list Row) :
  snd (writerows h fieldnames data) = None <->
  Forall (fun row => forall key, In key (map fst row) -> In key fieldnames)
         data.
Proof.
  induction data as [|row rest IH]; simpl.
  - split; [constructor|reflexivity].
  - destruct (dict_to_list_cases h fieldnames row) as [[Hw Hd]|[Hw Hd]];
      rewrite Hd.
    + destruct (writerows h fieldnames rest) as [written failure]. simpl in *.
      rewrite IH. split.
      * intros Hrest. constructor; [|exact Hrest]. now apply wrong_fields_nil.
      * intros H. now inversion H.
    + simpl. split; [discriminate|]. intros H. inversion H as [|? ? Hkeys _].
      exfalso. apply Hw. now apply wrong_fields_nil.
Qed.

Lemma writerows_length (h : Host) (fieldnames : list text)
    (data : list Row) :
  let written := fst (writerows h fieldnames data) in
  length written <= length data
  /\ (snd (writerows h fieldnames data) = None
      -> length written = length data)
  /\ (snd (writerows h fieldnames data) <> None
      -> length written < length data)
  /\ Forall (fun cells => length cells = length fieldnames) written.
Proof.
  induction data as [|row rest IH]; simpl.
  - repeat split; auto. intros H. now destruct H.
  - destruct (dict_to_list_cases h fieldnames row) as [[Hw Hd]|[Hw Hd]];
      rewrite Hd.
    + destruct (writerows h fieldnames rest) as [written failure]. simpl in *.
      destruct IH as (Hle & Hok & Hko & Hall). repeat split.
      * lia.
      * intros H. now rewrite Hok.
      * intros H. specialize (Hko H). lia.
      * constructor; [now rewrite length_map|exact Hall].
    + simpl. repeat split; auto; try lia. discriminate.
Qed.

(** A refusal is that of the first row holding a key that is no field
    name, and the rows before it are written. *)
Lemma writerows_failure (h : Host) (fieldnames : list text)
    (data : list Row) (e : Exc) :
  snd (writerows h fieldnames data) = Some e ->
  exists before row after,
    data = before ++ row :: after
    /\ Forall (fun r => wrong_fields fieldnames r = []) before
    /\ wrong_fields fieldnames row <> []
    /\ e = ValueError (str "dict contains fields not in fieldnames: "
                       ++ wrong_fields_text h (wrong_fields fieldnames row))
    /\ fst (writerows h fieldnames data)
       = map (fun r => map (fun k => row_get k r) fieldnames) before.
Proof.
  induction data as [|row rest IH]; simpl; [discriminate|].
  destruct (dict_to_list_cases h fieldnames row) as [[Hw Hd]|[Hw Hd]];
    rewrite Hd.
  - destruct (writerows h fieldnames rest) as [written failure]. simpl in *.
    intros Hf. destruct (IH Hf) as (before & r & after & -> & Hb & Hr & He & Hw').
    exists (row :: before), r, after. repeat split; auto.
    simpl. now rewrite Hw'.
  - simpl. intros [= <-]. exists [], row, rest. repeat split; auto.
Qed.

End Written.

(** X8.  Whatever its arguments and whatever fails, [save_query_results]
    changes no file other than the data file in [temp_data] and the
    metadata file beside it. *)
Theorem export_touches_two_paths_at_most
    (h : Exporter.Host) (query : text) (data : list Row) (file_format : text)
    (params : option (list Value)) (d : Exporter.Disk)
    (custom_filename : option text) (p : text) :
  let filepath :=
    str "temp_data/"
    ++ Exporter.resolve_filename h query file_format custom_filename in
  p <> filepath ->
  p <> replace (str ".csv") (str "_metadata.json") filepath ->
  Exporter.files
    (fst (Exporter.save_query_results h query data file_format params d
            custom_filename)) p
  = Exporter.files d p.
Proof.
  cbv zeta. intros Hp Hm. unfold Exporter.save_query_results.
  destruct (Exporter.makedirs_error h _); [reflexivity|].
  set (filename := Exporter.resolve_filename _ _ _ _) in *.
  set (filepath := str "temp_data/" ++ filename) in *.
  assert (Hw : Exporter.files
                 (fst (Exporter.write_files h query data file_format params
                         d filename filepath)) p
               = Exporter.files d p).
  { unfold Exporter.write_files.
    destruct (text_eqb (lower file_format) (str "json")).
    { now apply write_file_other. }
    destruct (text_eqb (lower file_format) (str "csv")); [|reflexivity].
    destruct data as [|first rest]; [reflexivity|].
    destruct (Exporter.open_error h filepath); [reflexivity|].
    destruct (Exporter.writerows _ _ _) as [rows [e|]].
    - now apply put_file_other.
    - rewrite write_file_other by exact Hm. now apply put_file_other. }
  unfold Exporter.write_phase.
  destruct (Exporter.write_files _ _ _ _ _ _ _ _) as [d1 [[]|e]];
    simpl in Hw; [|exact Hw].
  destruct (Exporter.files d1 filepath); exact Hw.
Qed.

Lemma export_touches_two_paths_at_most_witness :
  Exporter.files
    (fst (Exporter.save_query_results Demo.host (str "SELECT 1")
            Demo.two_rows (str "csv") None
            (DemoTools.disk_with (str "temp_data/other.json")
               (Exporter.CsvTable [] []))
            (Some (str "report"))))
    (str "temp_data/other.json")
  = Some (Exporter.CsvTable [] []).
Proof.
  apply (@export_touches_two_paths_at_most Demo.host (str "SELECT 1")
           Demo.two_rows (str "csv") None
           (DemoTools.disk_with (str "temp_data/other.json")
              (Exporter.CsvTable [] []))
           (Some (str "report")) (str "temp_data/other.json"));
    discriminate.
Defined.

(** X9.  A JSON export whose file can be opened stores one document with
    the query, the parameters, the rows and their number under the
    resolved name, and the descriptor returned reports the size of that
    document, not of a file that was there before. *)
Theorem json_export_reports_the_written_file
    (h : Exporter.Host) (query : text) (data : list Row) (file_format : text)
    (params : option (list Value)) (d : Exporter.Disk)
    (custom_filename : option text) :
  lower file_format = str "json" ->
  Exporter.makedirs_error h (str "temp_data") = None ->
  let filename :=
    Exporter.resolve_filename h query file_format custom_filename in
  let filepath := str "temp_data/" ++ filename in
  Exporter.open_error h filepath = None ->
  let document :=
    Exporter.JsonExport (Exporter.now_iso h) query params (length data)
      filename data in
  let result :=
    Exporter.save_query_results h query data file_format params d
      custom_filename in
  Exporter.files (fst result) filepath = Some document
  /\ snd result
     = Return (Exporter.SavedFile filename file_format
                 (Exporter.format_file_size h (Exporter.encoded_size h document))
                 (length data))
  /\ Exporter.stdout (fst result)
     = Exporter.stdout d
       ++ [str "SUCCESS: Query results saved to: " ++ filepath].
Proof.
  intros Hf Hm. cbv zeta. intros Ho.
  rewrite save_query_results_try by exact Hm.
  unfold Exporter.write_phase, Exporter.write_files, Exporter.write_file.
  rewrite Hf. simpl text_eqb. cbv iota. rewrite Ho.
  rewrite put_file_same. repeat split.
  simpl. now rewrite (proj2 (text_eqb_eq _ _) eq_refl).
Qed.

Lemma json_export_reports_the_written_file_witness :
  snd (Exporter.save_query_results Demo.host (str "SELECT 1") Demo.two_rows
         (str "JSON") None
         (DemoTools.disk_with (str "temp_data/report.JSON")
            (Exporter.CsvTable [] []))
         (Some (str "report")))
  = Return (Exporter.SavedFile (str "report.JSON") (str "JSON")
              (str "120 B") 2).
Proof.
  apply (proj1 (proj2 (@json_export_reports_the_written_file Demo.host
                         (str "SELECT 1") Demo.two_rows (str "JSON") None
                         (DemoTools.disk_with (str "temp_data/report.JSON")
                            (Exporter.CsvTable [] []))
                         (Some (str "report")) eq_refl eq_refl eq_refl))).
Defined.

(** X10.  A CSV export of rows whose keys are all keys of the first row,
    with both files openable, writes the metadata file at the data path
    with every [.csv] replaced by [_metadata.json].  When that path
    differs from the data path, the data file holds the keys of the first
    row as field names and one line of as many cells for every row.  When
    the data path holds no [.csv], as with the format given in upper case,
    the two paths are the same and the metadata overwrites the table: the
    rows are lost and the descriptor reports the size of the metadata. *)
Theorem csv_export_writes_table_and_sidecar
    (h : Exporter.Host) (query : text) (first : Row) (rest : list Row)
    (file_format : text) (params : option (list Value)) (d : Exporter.Disk)
    (custom_filename : option text) :
  let data := first :: rest in
  let fieldnames := map fst first in
  let filename :=
    Exporter.resolve_filename h query file_format custom_filename in
  let filepath := str "temp_data/" ++ filename in
  let metadata_filepath :=
    replace (str ".csv") (str "_metadata.json") filepath in
  lower file_format = str "csv" ->
  Exporter.makedirs_error h (str "temp_data") = None ->
  Exporter.open_error h filepath = None ->
  Exporter.open_error h metadata_filepath = None ->
  Forall (fun row => forall key, In key (map fst row) -> In key fieldnames)
         data ->
  let rows := fst (Exporter.writerows h fieldnames data) in
  let table := Exporter.CsvTable fieldnames rows in
  let metadata :=
    Exporter.CsvMetadata (Exporter.now_iso h) query params (length data)
      filename in
  let result :=
    Exporter.save_query_results h query data file_format params d
      custom_filename in
  let descriptor body :=
    Return (Exporter.SavedFile filename file_format
              (Exporter.format_file_size h (Exporter.encoded_size h body))
              (length data)) in
  length rows = length data
  /\ Forall (fun cells => length cells = length fieldnames) rows
  /\ Exporter.files (fst result) metadata_filepath = Some metadata
  /\ (metadata_filepath <> filepath ->
      Exporter.files (fst result) filepath = Some table
      /\ snd result = descriptor table)
  /\ (contains (str ".csv") filepath = false ->
      metadata_filepath = filepath
      /\ Exporter.files (fst result) filepath = Some metadata
      /\ snd result = descriptor metadata).
Proof.
  cbv zeta. intros Hf Hm Ho Hom Hkeys.
  pose proof (proj2 (writerows_succeeds h _ _) Hkeys) as Hnone.
  destruct (writerows_length h (map fst first) (first :: rest))
    as (_ & Hlen & _ & Hcells).
  split; [now apply Hlen|]. split; [exact Hcells|].
  rewrite save_query_results_try by exact Hm.
  unfold Exporter.write_phase, Exporter.write_files.
  rewrite Hf. simpl text_eqb. cbv iota. rewrite Ho.
  destruct (Exporter.writerows h (map fst first) (first :: rest))
    as [rows failure] eqn:Hw.
  simpl in Hnone. subst failure. cbn [fst].
  unfold Exporter.write_file. rewrite Hom.
  set (filepath := str "temp_data/" ++ _) in *.
  set (meta := replace _ _ filepath) in *.
  set (d1 := Exporter.put_file d filepath _).
  set (d2 := Exporter.put_file d1 meta _).
  assert (Hmeta : Exporter.files d2 meta = Some
            (Exporter.CsvMetadata (Exporter.now_iso h) query params
               (length (first :: rest))
               (Exporter.resolve_filename h query file_format custom_filename)))
    by apply put_file_same.
  split; [|split].
  - destruct (Exporter.files d2 filepath); exact Hmeta.
  - intros Hne.
    assert (Hd : Exporter.files d2 filepath
                 = Some (Exporter.CsvTable (map fst first) rows)).
    { unfold d2. rewrite put_file_other by (intros H; now apply Hne).
      apply put_file_same. }
    rewrite Hd. split; [exact Hd|reflexivity].
  - intros Hc.
    assert (Heq : meta = filepath) by (now apply replace_from_absent).
    split; [exact Heq|]. rewrite <- Heq, Hmeta. split; [exact Hmeta|reflexivity].
Qed.

Lemma csv_export_writes_table_and_sidecar_witness :
  snd (Exporter.save_query_results Demo.host (str "SELECT 1") Demo.two_rows
         (str "CSV") None Demo.empty_disk (Some (str "report")))
  = Return (Exporter.SavedFile (str "report.CSV") (str "CSV") (str "120 B") 2)
  /\ Exporter.files
       (fst (Exporter.save_query_results Demo.host (str "SELECT 1")
               Demo.two_rows (str "CSV") None Demo.empty_disk
               (Some (str "report"))))
       (str "temp_data/report.CSV")
     = Some (Exporter.CsvMetadata (str "2025-01-01T00:00:00") (str "SELECT 1")
               None 2 (str "report.CSV")).
Proof.
  destruct (proj2 (proj2 (proj2 (proj2
              (@csv_export_writes_table_and_sidecar Demo.host (str "SELECT 1")
                 (hd [] Demo.two_rows) (tl Demo.two_rows) (str "CSV") None
                 Demo.empty_disk (Some (str "report"))
                 eq_refl eq_refl eq_refl eq_refl
                 ltac:(simpl; repeat (apply Forall_cons; [simpl; tauto|]);
                       apply Forall_nil)))))
              eq_refl) as (_ & Hfile & Hres).
  split; [exact Hres|exact Hfile].
Defined.

(** X11.  When a row of a CSV export has a key that the first row lacks,
    [DictWriter] raises in the middle of the write.  The call returns the
    error mapping with the number of all rows; its message is
    [Failed to save file: dict contains fields not in fieldnames: ]
    followed by the text [DictWriter] makes of the keys it refuses, those
    of the first row that has such a key.  The data file is left on the
    disk with the lines of the rows before that one, fewer than the rows,
    and no metadata file is written. *)
Theorem ragged_rows_leave_a_partial_file
    (h : Exporter.Host) (query : text) (first : Row) (rest : list Row)
    (file_format : text) (params : option (list Value)) (d : Exporter.Disk)
    (custom_filename : option text) :
  let data := first :: rest in
  let fieldnames := map fst first in
  let filename :=
    Exporter.resolve_filename h query file_format custom_filename in
  let filepath := str "temp_data/" ++ filename in
  let metadata_filepath :=
    replace (str ".csv") (str "_metadata.json") filepath in
  lower file_format = str "csv" ->
  Exporter.makedirs_error h (str "temp_data") = None ->
  Exporter.open_error h filepath = None ->
  Exists (fun row => exists key, In key (map fst row) /\ ~ In key fieldnames)
         data ->
  let written := fst (Exporter.writerows h fieldnames data) in
  let result :=
    Exporter.save_query_results h query data file_format params d
      custom_filename in
  (exists before row after,
     data = before ++ row :: after
     /\ Forall (fun r => Exporter.wrong_fields fieldnames r = []) before
     /\ Exporter.wrong_fields fieldnames row <> []
     /\ written
        = map (fun r => map (fun k => Exporter.row_get k r) fieldnames) before
     /\ snd result
        = Return (Exporter.SaveFailed
                    (str "Failed to save file: dict contains fields not in fieldnames: "
                     ++ Exporter.wrong_fields_text h
                          (Exporter.wrong_fields fieldnames row))
                    (length data)))
  /\ Exporter.files (fst result) filepath
     = Some (Exporter.CsvTable fieldnames written)
  /\ length written < length data
  /\ (metadata_filepath <> filepath ->
      Exporter.files (fst result) metadata_filepath
      = Exporter.files d metadata_filepath).
Proof.
  cbv zeta. intros Hf Hm Ho Hbad.
  assert (Hsome : snd (Exporter.writerows h (map fst first) (first :: rest))
                  <> None).
  { intros Hnone. apply writerows_succeeds in Hnone.
    apply Exists_exists in Hbad as (row & Hin & key & Hk & Hnot).
    rewrite Forall_forall in Hnone. now apply Hnot, (Hnone row Hin). }
  destruct (writerows_length h (map fst first) (first :: rest))
    as (_ & _ & Hlt & _).
  specialize (Hlt Hsome).
  rewrite save_query_results_try by exact Hm.
  unfold Exporter.write_phase, Exporter.write_files.
  rewrite Hf. simpl text_eqb. cbv iota. rewrite Ho.
  pose proof (@writerows_failure h (map fst first) (first :: rest)) as He.
  destruct (Exporter.writerows h (map fst first) (first :: rest))
    as [rows [e|]] eqn:Hw; [|now destruct Hsome].
  destruct (He e eq_refl)
    as (before & row & after & Hdata & Hbefore & Hrow & -> & Hrows).
  cbn [fst snd] in *.
  split.
  { exists before, row, after. repeat split; auto. }
  split; [apply put_file_same|].
  split; [exact Hlt|].
  intros Hne. cbn [Exporter.files Exporter.print].
  now apply put_file_other.
Qed.

Lemma ragged_rows_leave_a_partial_file_witness :
  snd (Exporter.save_query_results Demo.host (str "SELECT 1")
         DemoTools.ragged_rows (str "csv") None Demo.empty_disk
         (Some (str "report")))
  = Return (Exporter.SaveFailed
              (str "Failed to save file: dict contains fields not in fieldnames: 'extra'")
              3)
  /\ Exporter.files
       (fst (Exporter.save_query_results Demo.host (str "SELECT 1")
               DemoTools.ragged_rows (str "csv") None Demo.empty_disk
               (Some (str "report"))))
       (str "temp_data/report.csv")
     = Some (Exporter.CsvTable [str "id"] [[Some (VInt 1)]]).
Proof.
  split; [reflexivity|].
  apply (proj1 (proj2
           (@ragged_rows_leave_a_partial_file Demo.host (str "SELECT 1")
              (hd [] DemoTools.ragged_rows) (tl DemoTools.ragged_rows)
              (str "csv") None Demo.empty_disk (Some (str "report"))
              eq_refl eq_refl eq_refl
              ltac:(apply Exists_cons_tl, Exists_cons_hd;
                    exists (str "extra"); split;
                    [simpl; tauto|simpl; intuition discriminate])))).
Defined.

(** ** File names and the output directory *)

Lemma format_without_slash (file_format : text) (c : ascii) :
  lower file_format = str "json" \/ lower file_format = str "csv" ->
  c = "/"%char \/ c = "\"%char ->
  ~ In c file_format.
Proof.
  intros Hf Hc Hin.
  assert (Hl : In (lower_char c) (lower file_format))
    by (now apply in_map).
  destruct Hc as [-> | ->]; destruct Hf as [Hf|Hf]; rewrite Hf in Hl;
    simpl in Hl; intuition discriminate.
Qed.

(** X12.  No file name made by [save_query_results] from caller input can
    leave the output directory: the sanitized custom name and the
    sanitized query snippet hold no slash and no backslash, and for a
    format that reaches a write (one that lower-cases to [json] or [csv])
    neither does the whole file name of a custom export, nor that of an
    automatic one as long as the timestamp has none. *)
Theorem export_names_hold_no_separator
    (h : Exporter.Host) (query file_format name : text) (c : ascii) :
  c = "/"%char \/ c = "\"%char ->
  ~ In c (Exporter.safe_filename name)
  /\ ~ In c (Exporter.safe_query query)
  /\ (lower file_format = str "json" \/ lower file_format = str "csv" ->
      (name <> [] ->
       ~ In c (Exporter.resolve_filename h query file_format (Some name)))
      /\ (~ In c (Exporter.now_stamp h) ->
          ~ In c (Exporter.resolve_filename h query file_format None))).
Proof.
  intros Hc.
  assert (H1 : ~ In c (Exporter.safe_filename name)).
  { intros Hin. pose proof (safe_filename_chars name) as H.
    rewrite Forall_forall in H. destruct (H _ Hin) as [Hk _].
    destruct Hc as [-> | ->]; discriminate. }
  assert (H2 : ~ In c (Exporter.safe_query query)).
  { intros Hin. pose proof (safe_query_chars query) as H.
    rewrite Forall_forall in H. destruct (H _ Hin) as [Hk _].
    destruct Hc as [-> | ->]; discriminate. }
  split; [exact H1|]. split; [exact H2|].
  intros Hf. pose proof (@format_without_slash file_format c Hf Hc) as H3.
  assert (Hdot : ~ In c (str ".")).
  { destruct Hc as [-> | ->]; simpl; intuition discriminate. }
  split.
  - intros Hne Hin. destruct name as [|a name]; [contradiction|].
    unfold Exporter.resolve_filename in Hin.
    rewrite !in_app_iff in Hin. tauto.
  - intros Hs Hin. unfold Exporter.resolve_filename in Hin.
    rewrite !in_app_iff in Hin.
    assert (Hq : ~ In c (str "query_") /\ ~ In c (str "_")).
    { destruct Hc as [-> | ->]; simpl; intuition discriminate. }
    tauto.
Qed.

Lemma export_names_hold_no_separator_witness :
  ~ In "/"%char
      (Exporter.resolve_filename Demo.host (str "SELECT 1") (str "json")
         (Some (str "../../etc/passwd"))).
Proof.
  apply (proj1 (proj2 (proj2
           (@export_names_hold_no_separator Demo.host (str "SELECT 1")
              (str "json") (str "../../etc/passwd") "/"%char
              (or_introl eq_refl)))
           (or_introl eq_refl))).
  discriminate.
Defined.

(** ** [format_file_size] *)

Section FileSizes.
Local Open Scope Z_scope.

Lemma tenths_nearest (size_bytes unit : Z) :
  0 < unit ->
  2 * Z.abs (unit * FileSize.tenths size_bytes unit - 10 * size_bytes) <= unit.
Proof.
  intros Hu. unfold FileSize.tenths. cbv zeta.
  pose proof (Z.div_mod (10 * size_bytes) unit ltac:(lia)) as Hdm.
  pose proof (Z.mod_pos_bound (10 * size_bytes) unit Hu) as Hb.
  destruct ((unit <? 2 * _) || _)%bool eqn:Hup.
  - apply orb_true_iff in Hup as [Hup|Hup].
    + apply Z.ltb_lt in Hup. lia.
    + apply andb_true_iff in Hup as [Hup _]. apply Z.eqb_eq in Hup. lia.
  - apply orb_false_iff in Hup as [Hup _]. apply Z.ltb_ge in Hup. lia.
Qed.

Lemma tenths_monotone_bounds (size_bytes unit lo hi : Z) :
  0 < unit -> lo * unit <= size_bytes -> size_bytes < hi * unit ->
  10 * lo <= FileSize.tenths size_bytes unit <= 10 * hi.
Proof.
  intros Hu Hlo Hhi. pose proof (tenths_nearest size_bytes Hu) as H.
  nia.
Qed.

(** X13.  [format_file_size] picks the unit by the thresholds 1024, 1024^2
    and 1024^3: below 1024 it prints the integer and [ B]; above, and
    below 2^53, the size
    in KB, MB or GB to one decimal, the printed number of tenths being the
    nearest to the exact quotient (within half a tenth).  The unit does not
    change when rounding reaches 1024: every size from 1048525 to 1048575
    is printed [1024.0 KB]. *)
Theorem format_file_size_units (size_bytes : Z) :
  (size_bytes < 1024 ->
   FileSize.format_file_size size_bytes
   = (str_of_int size_bytes ++ str " B")%list)
  /\ (forall unit suffix,
        (unit = 1024 /\ suffix = str " KB"
         /\ 1024 <= size_bytes < 1024 * 1024)
        \/ (unit = 1024 * 1024 /\ suffix = str " MB"
            /\ 1024 * 1024 <= size_bytes < 1024 * 1024 * 1024)
        \/ (unit = 1024 * 1024 * 1024 /\ suffix = str " GB"
            /\ 1024 * 1024 * 1024 <= size_bytes < 2 ^ 53) ->
        exists t,
          FileSize.format_file_size size_bytes
          = (str_of_int (t / 10) ++ str "." ++ str_of_int (t mod 10)
             ++ suffix)%list
          /\ 2 * Z.abs (unit * t - 10 * size_bytes) <= unit
          /\ 10 <= t)
  /\ (1048525 <= size_bytes < 1048576 ->
      FileSize.format_file_size size_bytes = str "1024.0 KB").
Proof.
  split; [|split].
  - intros H. unfold FileSize.format_file_size.
    now rewrite (proj2 (Z.ltb_lt _ _) H).
  - intros unit suffix Hcase.
    assert (Hu : 0 < unit) by lia.
    exists (FileSize.tenths size_bytes unit).
    split; [|split; [now apply tenths_nearest|]].
    + unfold FileSize.format_file_size, FileSize.fixed1.
      destruct Hcase as [(-> & -> & H)|[(-> & -> & H)|(-> & -> & H)]].
      * rewrite (proj2 (Z.ltb_ge _ _)) by lia.
        rewrite (proj2 (Z.ltb_lt _ _)) by lia.
        now rewrite <- !app_assoc.
      * rewrite (proj2 (Z.ltb_ge _ 1024)) by lia.
        rewrite (proj2 (Z.ltb_ge _ (1024 * 1024))) by lia.
        rewrite (proj2 (Z.ltb_lt _ _)) by lia.
        now rewrite <- !app_assoc.
      * rewrite (proj2 (Z.ltb_ge _ 1024)) by lia.
        rewrite (proj2 (Z.ltb_ge _ (1024 * 1024))) by lia.
        rewrite (proj2 (Z.ltb_ge _ (1024 * 1024 * 1024))) by lia.
        now rewrite <- !app_assoc.
    + pose proof (@tenths_monotone_bounds size_bytes unit 1
                    (size_bytes / unit + 1) Hu) as Hb.
      pose proof (Z.div_mod size_bytes unit ltac:(lia)) as Hdm.
      pose proof (Z.mod_pos_bound size_bytes unit Hu) as Hm.
      assert (unit <= size_bytes) by lia.
      lia.
  - intros H. unfold FileSize.format_file_size.
    rewrite (proj2 (Z.ltb_ge _ 1024)) by lia.
    rewrite (proj2 (Z.ltb_lt _ (1024 * 1024))) by lia.
    assert (Ht : FileSize.tenths size_bytes 1024 = 10240).
    { pose proof (@tenths_nearest size_bytes 1024 ltac:(lia)) as Hn.
      lia. }
    now rewrite Ht.
Qed.

End FileSizes.

Lemma format_file_size_units_witness :
  FileSize.format_file_size 1048575 = str "1024.0 KB"
  /\ FileSize.format_file_size 1023 = str "1023 B".
Proof.
  split.
  - apply (proj2 (proj2 (format_file_size_units 1048575))). lia.
  - apply (proj1 (format_file_size_units 1023)). lia.
Defined.

(** ** The rows of a response *)

Lemma keep_fetched_rows (rows : list Row) :
  flat_map (fun row : option Row => match row with
                                    | Some r => [r]
                                    | None => []
                                    end) (map Some rows) = rows.
Proof. induction rows as [|r rows IH]; simpl; [reflexivity|now rewrite IH]. Qed.

(** X14.  When [read_query] returns, the driver has answered the executed
    text with some rows; the response holds all of them, in order, when
    [fetch_all] is set and only the first one, if there is one, otherwise;
    the row count of the metadata is the number of rows in the response,
    whatever the row limit, and the metadata repeats the parameters (the
    empty list when none were given), the flag and the limit. *)
Theorem response_holds_the_fetched_rows
    (rt : Runtime) (q : text) (params : option (list Value))
    (fetch_all : bool) (row_limit : Z) (resp : Explorer.Response) :
  snd (Explorer.read_query rt q params fetch_all row_limit) = Return resp ->
  let bound := match params with Some p => p | None => [] end in
  let sent := Explorer.executed_text (Explorer.trim_query q) row_limit in
  exists description rows,
    rt_execute rt sent bound = Fetched description rows
    /\ Explorer.data resp = (if fetch_all then rows else firstn 1 rows)
    /\ Explorer.meta_row_count (Explorer.metadata resp)
       = length (Explorer.data resp)
    /\ (fetch_all = false -> length (Explorer.data resp) <= 1)
    /\ Explorer.meta_params (Explorer.metadata resp) = bound
    /\ Explorer.meta_fetch_all (Explorer.metadata resp) = fetch_all
    /\ Explorer.meta_row_limit (Explorer.metadata resp) = row_limit.
Proof.
  cbv zeta. unfold Explorer.read_query.
  destruct (Explorer.get_db_config rt) as [cfg|e]; [|discriminate].
  destruct (Explorer.validate q) as [a|why] eqn:Hv; [|discriminate].
  destruct (validate_accepted _ Hv) as (-> & _).
  destruct (rt_connect rt cfg); [discriminate|].
  destruct (rt_execute rt _ _) as [d rows|[]] eqn:He; try discriminate.
  simpl. intros [= <-]. exists d, rows. simpl.
  split; [reflexivity|].
  assert (Hdata : flat_map (fun row : option Row => match row with
                                                    | Some r => [r]
                                                    | None => []
                                                    end)
                    (if fetch_all then map Some rows else [hd_error rows])
                  = (if fetch_all then rows else firstn 1 rows)).
  { destruct fetch_all; [apply keep_fetched_rows|]. now destruct rows. }
  rewrite Hdata. repeat split.
  intros ->. destruct rows; simpl; lia.
Qed.

Lemma response_holds_the_fetched_rows_witness :
  exists resp,
    snd (Explorer.read_query Demo.rt (str "SHOW TABLES") None false 1000)
    = Return resp
    /\ Explorer.data resp = firstn 1 Demo.two_rows.
Proof.
  eexists. split; [reflexivity|].
  destruct (@response_holds_the_fetched_rows Demo.rt (str "SHOW TABLES")
              None false 1000 _ eq_refl)
    as (d & rows & He & Hd & _).
  injection He as _ <-. exact Hd.
Defined.

(** ** [get_database_info] *)

(** X15.  When the driver answers the four statements of
    [get_database_info], the call returns whatever the answers hold: each
    of the three names is the first cell of the first row, or [None] when
    the answer has no row or an empty one, and the table count is the
    number of rows answered to [SHOW TABLES]; the four statements run in
    the order of the source on one connection, which is closed.  When the
    first statement fails with a driver error, no other statement runs. *)
Theorem database_info_reads_four_answers (rt : Runtime) (cfg : Config) :
  Explorer.get_db_config rt = Return cfg ->
  rt_connect rt cfg = None ->
  (forall d1 r1 d2 r2 d3 r3 d4 r4,
      rt_execute rt (str "SELECT DATABASE()") [] = Fetched d1 r1 ->
      rt_execute rt (str "SELECT VERSION()") [] = Fetched d2 r2 ->
      rt_execute rt (str "SELECT USER()") [] = Fetched d3 r3 ->
      rt_execute rt (str "SHOW TABLES") [] = Fetched d4 r4 ->
      ExplorerTools.get_database_info rt
      = ([EvConnect cfg;
          EvExecute (str "SELECT DATABASE()") [];
          EvExecute (str "SELECT VERSION()") [];
          EvExecute (str "SELECT USER()") [];
          EvExecute (str "SHOW TABLES") [];
          EvClose],
         Return {| ExplorerTools.database_name := ExplorerTools.first_value r1;
                   ExplorerTools.mysql_version := ExplorerTools.first_value r2;
                   ExplorerTools.current_user := ExplorerTools.first_value r3;
                   ExplorerTools.table_count := length r4 |})
      /\ (r1 = [] \/ hd_error r1 = Some [] ->
          ExplorerTools.first_value r1 = VNone)
      /\ (forall col v rest more,
            r1 = ((col, v) :: rest) :: more ->
            ExplorerTools.first_value r1 = v))
  /\ (forall m,
      rt_execute rt (str "SELECT DATABASE()") [] = Failed (MySQLError m) ->
      ExplorerTools.get_database_info rt
      = ([EvConnect cfg; EvExecute (str "SELECT DATABASE()") []; EvClose],
         Raise (ValueError (str "MySQL error: " ++ m)))).
Proof.
  intros Hc Hn. split.
  - intros d1 r1 d2 r2 d3 r3 d4 r4 H1 H2 H3 H4.
    unfold ExplorerTools.get_database_info. rewrite Hc.
    rewrite connected_open by exact Hn.
    unfold ExplorerTools.execute. rewrite H1, H2, H3, H4. simpl.
    split; [reflexivity|]. split.
    + intros [-> | H]; [reflexivity|].
      unfold ExplorerTools.first_value. now rewrite H.
    + intros col v rest more ->. reflexivity.
  - intros m H1. unfold ExplorerTools.get_database_info. rewrite Hc.
    rewrite connected_open by exact Hn.
    unfold ExplorerTools.execute. rewrite H1. reflexivity.
Qed.

Lemma database_info_reads_four_answers_witness :
  snd (ExplorerTools.get_database_info DemoTools.rt_empty)
  = Return {| ExplorerTools.database_name := VNone;
              ExplorerTools.mysql_version := VNone;
              ExplorerTools.current_user := VNone;
              ExplorerTools.table_count := 0 |}.
Proof.
  rewrite (proj1 (proj1 (@database_info_reads_four_answers
                           DemoTools.rt_empty Demo.config eq_refl eq_refl)
                    None [] None [] None [] None []
                    eq_refl eq_refl eq_refl eq_refl)).
  reflexivity.
Defined.

(** ** The tools of the SSE server built on [read_query] *)

Lemma strip_fixed (s : text) :
  lstrip s = s -> lstrip (rev s) = rev s -> strip s = s.
Proof.
  intros Hl Hr. unfold strip, rstrip. rewrite Hl, Hr. apply rev_involutive.
Qed.

Lemma sse_scan_without_semicolon (s : text) (a b : bool) :
  ~ In ";"%char s -> ExplorerSSE.scan_statements a b s = false.
Proof.
  revert a b. induction s as [|c s IH]; intros a b Hn; [reflexivity|].
  assert (Hc : Ascii.eqb c ";" = false).
  { apply Ascii.eqb_neq. intros ->. apply Hn. now left. }
  assert (Hs : ~ In ";"%char s) by (intros H; apply Hn; now right).
  simpl. rewrite Hc. simpl.
  destruct (Ascii.eqb c "'" && negb b); [now apply IH|].
  destruct (Ascii.eqb c DQ && negb a); now apply IH.
Qed.

(** A text that trimming leaves alone and that starts with [select] once
    lower-cased meets one check only on the SSE server, the scanner. *)
Lemma sse_validate_select (s : text) :
  ExplorerSSE.trim_query s = s ->
  startswith (str "select") (strip (lower s)) = true ->
  ExplorerSSE.validate s
  = if ExplorerSSE.contains_multiple_statements s
    then ExplorerSSE.Rejected ExplorerSSE.MultipleStatements
    else ExplorerSSE.Accepted s.
Proof.
  intros Ht Hs. unfold ExplorerSSE.validate. rewrite Ht.
  destruct (ExplorerSSE.contains_multiple_statements s); [reflexivity|].
  unfold ExplorerSSE.allowed_prefixes. cbn [existsb]. now rewrite Hs.
Qed.

Lemma sse_read_query_events (rt : Runtime) (q a : text)
    (params : option (list Value)) (fetch_all : bool) (row_limit : Z)
    (cfg : Config) :
  ExplorerSSE.get_db_config rt = Return cfg ->
  ExplorerSSE.validate q = ExplorerSSE.Accepted a ->
  rt_connect rt cfg = None ->
  fst (ExplorerSSE.read_query rt q params fetch_all row_limit)
  = [EvConnect cfg;
     EvExecute (ExplorerSSE.executed_text a row_limit)
       (match params with Some p => p | None => [] end);
     EvClose].
Proof.
  intros Hc Hv Hn. unfold ExplorerSSE.read_query. rewrite Hc, Hv, Hn.
  destruct (rt_execute rt _ _) as [d rows|[]]; reflexivity.
Qed.

Lemma execute_sql_events (rt : Runtime) (q : text) :
  fst (ExplorerSSETools.execute_sql rt q)
  = fst (ExplorerSSE.read_query rt q None true 1000).
Proof.
  unfold ExplorerSSETools.execute_sql.
  destruct (ExplorerSSE.read_query rt q None true 1000) as [events [r|e]];
    [|reflexivity].
  now destruct (ExplorerSSE.data r).
Qed.

Lemma fixed_text_without (c : ascii) (s : text) :
  existsb (Ascii.eqb c) s = false -> ~ In c s.
Proof.
  intros H Hin. apply existsb_eqb_in in Hin. rewrite Hin in H. discriminate.
Qed.

Section Fields.

Variable P : ascii -> Prop.

Lemma Forall_split_on_from (sep : ascii) (s cur : text) :
  Forall P cur -> Forall P s ->
  Forall (Forall P) (PyMore.split_on_from sep cur s).
Proof.
  revert cur. induction s as [|c s IH]; intros cur Hcur Hs; simpl.
  - constructor; [now apply Forall_rev|constructor].
  - inversion Hs; subst. destruct (Ascii.eqb c sep).
    + constructor; [now apply Forall_rev|]. apply IH; [constructor|assumption].
    + apply IH; [now constructor|assumption].
Qed.

Lemma Forall_join (sep : text) (parts : list text) :
  Forall P sep -> Forall (Forall P) parts -> Forall P (join sep parts).
Proof.
  intros Hsep. induction 1 as [|p parts Hp Hparts IH]; simpl; [constructor|].
  destruct parts; [exact Hp|].
  apply Forall_app. split; [exact Hp|]. apply Forall_app. now split.
Qed.

End Fields.

Lemma table_condition_without_semicolon (text_ : text) :
  ~ In ";"%char text_ ->
  ~ In ";"%char (join (str "','") (map strip (PyMore.split_on "," text_))).
Proof.
  intros Hn Hin.
  assert (H : Forall (fun c => c <> ";"%char)
                (join (str "','") (map strip (PyMore.split_on "," text_)))).
  { apply Forall_join.
    - repeat constructor; discriminate.
    - apply Forall_map.
      eapply Forall_impl; [intros part Hp; apply Forall_strip; exact Hp|].
      apply Forall_split_on_from; [constructor|].
      apply Forall_forall. intros c Hc ->. contradiction. }
  rewrite Forall_forall in H. now apply (H _ Hin).
Qed.

Section BuiltStatements.

Variables (database text_ : text).

Let name_sql := ExplorerSSETools.table_name_sql database text_.
Let desc_sql := ExplorerSSETools.table_desc_sql database text_.

Lemma table_name_sql_trimmed :
  ExplorerSSE.trim_query name_sql = name_sql
  /\ startswith (str "select") (strip (lower name_sql)) = true.
Proof.
  assert (Hs : strip name_sql = name_sql).
  { apply strip_fixed; [reflexivity|].
    unfold name_sql, ExplorerSSETools.table_name_sql.
    rewrite !rev_app_distr. reflexivity. }
  assert (Hl : strip (lower name_sql) = lower name_sql).
  { apply strip_fixed; [reflexivity|].
    unfold name_sql, ExplorerSSETools.table_name_sql, lower.
    rewrite <- map_rev, !rev_app_distr. reflexivity. }
  split.
  - unfold ExplorerSSE.trim_query. rewrite Hs.
    assert (He : endswith (str ";") name_sql = false).
    { unfold endswith, name_sql, ExplorerSSETools.table_name_sql.
      rewrite !rev_app_distr. reflexivity. }
    now rewrite He.
  - rewrite Hl. reflexivity.
Qed.

Lemma table_desc_sql_trimmed :
  ExplorerSSE.trim_query desc_sql = desc_sql
  /\ startswith (str "select") (strip (lower desc_sql)) = true.
Proof.
  assert (Hs : strip desc_sql = desc_sql).
  { apply strip_fixed; [reflexivity|].
    unfold desc_sql, ExplorerSSETools.table_desc_sql. cbv zeta.
    rewrite !rev_app_distr. reflexivity. }
  assert (Hl : strip (lower desc_sql) = lower desc_sql).
  { apply strip_fixed; [reflexivity|].
    unfold desc_sql, ExplorerSSETools.table_desc_sql, lower. cbv zeta.
    rewrite <- map_rev, !rev_app_distr. reflexivity. }
  split.
  - unfold ExplorerSSE.trim_query. rewrite Hs.
    assert (He : endswith (str ";") desc_sql = false).
    { unfold endswith, desc_sql, ExplorerSSETools.table_desc_sql. cbv zeta.
      rewrite !rev_app_distr. reflexivity. }
    now rewrite He.
  - rewrite Hl. reflexivity.
Qed.

Lemma built_sql_without_semicolon :
  ~ In ";"%char database -> ~ In ";"%char text_ ->
  ~ In ";"%char name_sql /\ ~ In ";"%char desc_sql.
Proof.
  intros Hd Ht.
  pose proof (@table_condition_without_semicolon text_ Ht) as Hj.
  split; intros Hin;
    unfold name_sql, desc_sql, ExplorerSSETools.table_name_sql,
      ExplorerSSETools.table_desc_sql in Hin; cbv zeta in Hin;
    repeat (apply in_app_or in Hin; destruct Hin as [Hin|Hin];
            [first [contradiction
                   |apply existsb_eqb_in in Hin; vm_compute in Hin;
                    discriminate]|]);
    first [contradiction
          |apply existsb_eqb_in in Hin; vm_compute in Hin; discriminate].
Qed.

End BuiltStatements.

(** X16.  [get_table_name] and [get_table_desc] put the caller's text into
    the statement as it is, and the checks of [read_query] do not stand in
    its way: the statement starts with [SELECT], so its verdict is Accepted
    or MultipleStatements and nothing else, and when the text and the
    database name hold no semicolon it is accepted and sent to the driver,
    unchanged or followed by [ LIMIT 1000], whatever quotes or keywords the
    text holds. *)
Theorem table_lookups_splice_the_text
    (rt : Runtime) (cfg : Config) (text_ : text) :
  ExplorerSSE.get_db_config rt = Return cfg ->
  let name_sql := ExplorerSSETools.table_name_sql (database cfg) text_ in
  let desc_sql := ExplorerSSETools.table_desc_sql (database cfg) text_ in
  (forall sql, sql = name_sql \/ sql = desc_sql ->
     ExplorerSSE.validate sql
     = (if ExplorerSSE.contains_multiple_statements sql
        then ExplorerSSE.Rejected ExplorerSSE.MultipleStatements
        else ExplorerSSE.Accepted sql))
  /\ (~ In ";"%char (database cfg) -> ~ In ";"%char text_ ->
      ExplorerSSE.validate name_sql = ExplorerSSE.Accepted name_sql
      /\ ExplorerSSE.validate desc_sql = ExplorerSSE.Accepted desc_sql
      /\ (rt_connect rt cfg = None ->
          fst (ExplorerSSETools.get_table_name rt text_)
          = [EvConnect cfg;
             EvExecute (ExplorerSSE.executed_text name_sql 1000) [];
             EvClose]
          /\ fst (ExplorerSSETools.get_table_desc rt text_)
             = [EvConnect cfg;
                EvExecute (ExplorerSSE.executed_text desc_sql 1000) [];
                EvClose]))
  /\ (forall sql,
        ExplorerSSE.executed_text sql 1000 = sql
        \/ ExplorerSSE.executed_text sql 1000 = sql ++ str " LIMIT 1000").
Proof.
  intros Hc. cbv zeta.
  assert (Hv : forall sql,
             sql = ExplorerSSETools.table_name_sql (database cfg) text_
             \/ sql = ExplorerSSETools.table_desc_sql (database cfg) text_ ->
             ExplorerSSE.validate sql
             = (if ExplorerSSE.contains_multiple_statements sql
                then ExplorerSSE.Rejected ExplorerSSE.MultipleStatements
                else ExplorerSSE.Accepted sql)).
  { intros sql [-> | ->].
    - destruct (table_name_sql_trimmed (database cfg) text_) as [Ht Hs].
      now apply sse_validate_select.
    - destruct (table_desc_sql_trimmed (database cfg) text_) as [Ht Hs].
      now apply sse_validate_select. }
  split; [exact Hv|]. split.
  - intros Hd Ht.
    destruct (@built_sql_without_semicolon (database cfg) text_ Hd Ht)
      as [Hn1 Hn2].
    assert (Ha1 : ExplorerSSE.validate
                    (ExplorerSSETools.table_name_sql (database cfg) text_)
                  = ExplorerSSE.Accepted
                      (ExplorerSSETools.table_name_sql (database cfg) text_)).
    { rewrite Hv by now left. unfold ExplorerSSE.contains_multiple_statements.
      now rewrite sse_scan_without_semicolon. }
    assert (Ha2 : ExplorerSSE.validate
                    (ExplorerSSETools.table_desc_sql (database cfg) text_)
                  = ExplorerSSE.Accepted
                      (ExplorerSSETools.table_desc_sql (database cfg) text_)).
    { rewrite Hv by now right. unfold ExplorerSSE.contains_multiple_statements.
      now rewrite sse_scan_without_semicolon. }
    split; [exact Ha1|]. split; [exact Ha2|].
    intros Hn. unfold ExplorerSSETools.get_table_name,
      ExplorerSSETools.get_table_desc. rewrite Hc. split.
    + pose proof (execute_sql_events rt
                    (ExplorerSSETools.table_name_sql (database cfg) text_))
        as He.
      rewrite (@sse_read_query_events rt _ _ None true 1000 cfg Hc Ha1 Hn)
        in He.
      destruct (ExplorerSSETools.execute_sql rt _). exact He.
    + pose proof (execute_sql_events rt
                    (ExplorerSSETools.table_desc_sql (database cfg) text_))
        as He.
      rewrite (@sse_read_query_events rt _ _ None true 1000 cfg Hc Ha2 Hn)
        in He.
      destruct (ExplorerSSETools.execute_sql rt _). exact He.
  - intros sql. unfold ExplorerSSE.executed_text.
    destruct (ExplorerSSE.injects_limit _); [now right|now left].
Qed.

Lemma table_lookups_splice_the_text_witness :
  fst (ExplorerSSETools.get_table_name Demo.rt (str "x' OR '1'='1"))
  = [EvConnect DemoTools.sse_config;
     EvExecute
       (str "SELECT TABLE_SCHEMA, TABLE_NAME, TABLE_COMMENT FROM information_schema.TABLES WHERE TABLE_SCHEMA = 'aircraft' AND TABLE_COMMENT LIKE '%x' OR '1'='1%' LIMIT 1000")
       [];
     EvClose].
Proof.
  apply (proj1 (proj2 (proj2 (proj1 (proj2
           (@table_lookups_splice_the_text Demo.rt DemoTools.sse_config
              (str "x' OR '1'='1") eq_refl))
           ltac:(apply fixed_text_without; reflexivity)
           ltac:(apply fixed_text_without; reflexivity)))
           eq_refl)).
Defined.

(** X17.  [execute_sql] never lets an exception out: it returns a list of
    exactly one text.  On a rejected query that text ends with the message
    of the rejection and no connection is opened; on an accepted one the
    statement runs with the default limit of 1000, and the text is the
    fixed no-result message when no row comes back, and otherwise the
    lines joined by line feeds: the column names, when the cursor has a
    description, then one line for every row, a cell that is [None] or
    missing being written [NULL]. *)
Theorem execute_sql_answers_one_text (rt : Runtime) (q : text) :
  length (snd (ExplorerSSETools.execute_sql rt q)) = 1
  /\ (forall cfg why,
        ExplorerSSE.get_db_config rt = Return cfg ->
        ExplorerSSE.validate q = ExplorerSSE.Rejected why ->
        ExplorerSSETools.execute_sql rt q
        = ([], [str "query failed: " ++ ExplorerSSE.rejection_message why]))
  /\ (forall cfg a description rows,
        ExplorerSSE.get_db_config rt = Return cfg ->
        ExplorerSSE.validate q = ExplorerSSE.Accepted a ->
        rt_connect rt cfg = None ->
        rt_execute rt (ExplorerSSE.executed_text a 1000) []
        = Fetched description rows ->
        let columns := match description with
                       | Some ((_ :: _) as names) => names
                       | _ => []
                       end in
        let lines := ExplorerSSETools.result_lines columns rows in
        snd (ExplorerSSETools.execute_sql rt q)
        = match rows with
          | [] => [str "the query returned no result"]
          | _ => [join [Exporter.LF] lines]
          end
        /\ length lines
           = (match columns with [] => 0 | _ => 1 end) + length rows
        /\ (forall row col,
              Exporter.row_get col row = None
              \/ Exporter.row_get col row = Some VNone ->
              ExplorerSSETools.format_cell row col = str "NULL")).
Proof.
  split; [|split].
  - unfold ExplorerSSETools.execute_sql.
    destruct (ExplorerSSE.read_query rt q None true 1000) as [events [r|e]];
      [|reflexivity].
    now destruct (ExplorerSSE.data r).
  - intros cfg why Hc Hv. unfold ExplorerSSETools.execute_sql,
      ExplorerSSE.read_query. now rewrite Hc, Hv.
  - intros cfg a description rows Hc Hv Hn He. cbv zeta.
    split; [|split].
    + unfold ExplorerSSETools.execute_sql, ExplorerSSE.read_query.
      rewrite Hc, Hv, Hn, He. simpl. now destruct rows.
    + unfold ExplorerSSETools.result_lines.
      rewrite length_app, length_map.
      now destruct (match description with
                    | Some ((_ :: _) as names) => names
                    | _ => []
                    end).
    + intros row col [H|H]; unfold ExplorerSSETools.format_cell;
        now rewrite H.
Qed.

Lemma execute_sql_answers_one_text_witness :
  ExplorerSSETools.execute_sql Demo.rt (str "DROP TABLE t")
  = ([], [str "query failed: dangerous operation detected: DROP. Only SELECT, SHOW, DESCRIBE, EXPLAIN and WITH are allowed."]).
Proof.
  apply (proj1 (proj2 (execute_sql_answers_one_text Demo.rt
                         (str "DROP TABLE t")))
           DemoTools.sse_config
           (ExplorerSSE.DangerousOperation (str "DROP"))
           eq_refl eq_refl).
Defined.

(** ** Normalization *)

Section Tokens.

Let nonspace (c : ascii) : Prop := isspace c = false.
Let word (w : text) : Prop := w <> [] /\ Forall nonspace w.

Lemma split_from_word (w s cur : text) :
  Forall nonspace w ->
  split_from cur (w ++ s) = split_from (rev w ++ cur) s.
Proof.
  revert cur. induction w as [|x w IH]; intros cur Hw; [reflexivity|].
  inversion Hw as [|? ? Hx Hw']; subst. simpl. rewrite Hx.
  rewrite IH by assumption. now rewrite <- app_assoc.
Qed.

Lemma split_word (w : text) : word w -> split w = [w].
Proof.
  intros [Hne Hw]. unfold split.
  rewrite <- (app_nil_r w) at 1. rewrite split_from_word by assumption.
  rewrite app_nil_r. simpl. destruct (rev w) eqn:Hr.
  - apply (f_equal (@rev ascii)) in Hr. rewrite rev_involutive in Hr.
    contradiction.
  - now rewrite <- Hr, rev_involutive.
Qed.

Lemma split_word_space (w rest : text) :
  word w -> split (w ++ " "%char :: rest) = w :: split rest.
Proof.
  intros [Hne Hw]. unfold split. rewrite split_from_word by assumption.
  rewrite app_nil_r. simpl. destruct (rev w) eqn:Hr.
  - apply (f_equal (@rev ascii)) in Hr. rewrite rev_involutive in Hr.
    contradiction.
  - now rewrite <- Hr, rev_involutive.
Qed.

(** [split] after [join]: joined words come back as they were. *)
Lemma split_join (words : list text) :
  Forall word words -> split (join (str " ") words) = words.
Proof.
  induction 1 as [|w words Hw Hwords IH]; [reflexivity|].
  destruct words as [|w' words].
  - simpl. now apply split_word.
  - change (join (str " ") (w :: w' :: words))
      with (w ++ " "%char :: join (str " ") (w' :: words)).
    rewrite split_word_space by assumption. now rewrite IH.
Qed.

Lemma split_from_words (s cur : text) :
  Forall nonspace cur -> Forall word (split_from cur s).
Proof.
  revert cur. induction s as [|c s IH]; intros cur Hcur; simpl.
  - destruct cur as [|x cur]; [constructor|].
    constructor; [|constructor]. split.
    + intros H. apply (f_equal (@length ascii)) in H.
      rewrite length_rev in H. discriminate.
    + now apply Forall_rev.
  - destruct (isspace c) eqn:Hc.
    + destruct cur as [|x cur]; [apply IH; constructor|].
      constructor; [|apply IH; constructor]. split.
      * intros H. apply (f_equal (@length ascii)) in H.
        rewrite length_rev in H. discriminate.
      * now apply Forall_rev.
    + apply IH. now constructor.
Qed.

Lemma split_words (s : text) : Forall word (split s).
Proof. apply split_from_words. constructor. Qed.

Lemma Forall_split_from (P : ascii -> Prop) (s cur : text) :
  Forall P cur -> Forall P s -> Forall (Forall P) (split_from cur s).
Proof.
  revert cur. induction s as [|c s IH]; intros cur Hcur Hs; simpl.
  - destruct cur; [constructor|].
    constructor; [now apply Forall_rev|constructor].
  - inversion Hs; subst. destruct (isspace c).
    + destruct cur.
      * apply IH; [constructor|assumption].
      * constructor; [now apply Forall_rev|].
        apply IH; [constructor|assumption].
    + apply IH; [now constructor|assumption].
Qed.

Lemma lower_char_idempotent (c : ascii) :
  lower_char (lower_char c) = lower_char c.
Proof.
  destruct c as [[] [] [] [] [] [] [] []]; reflexivity.
Qed.

Lemma map_fixed (A : Type) (f : A -> A) (l : list A) :
  Forall (fun x => f x = x) l -> map f l = l.
Proof. induction 1 as [|x l Hx _ IH]; simpl; [reflexivity|now rewrite Hx, IH]. Qed.

Lemma normalize_lowered (s : text) :
  Forall (fun c => lower_char c = c) (Explorer.normalize s).
Proof.
  unfold Explorer.normalize. apply Forall_join.
  - repeat constructor.
  - apply Forall_split_from; [constructor|].
    unfold lower. apply Forall_map, Forall_forall. intros c _.
    apply lower_char_idempotent.
Qed.

(** X18.  The normalized text is a normal form: it is the words of the
    lower-cased text, none empty and none holding a white-space character,
    joined by single spaces; splitting it gives those words back,
    lower-casing it changes nothing, and normalizing it again changes
    nothing, so the second normalization that the keyword check runs has
    no effect of its own. *)
Theorem normalize_is_a_normal_form (s : text) :
  let n := Explorer.normalize s in
  n = join (str " ") (split (lower s))
  /\ Forall (fun w => w <> [] /\ Forall (fun c => isspace c = false) w)
            (split (lower s))
  /\ split n = split (lower s)
  /\ lower n = n
  /\ Explorer.normalize n = n.
Proof.
  cbv zeta.
  assert (Hs : split (Explorer.normalize s) = split (lower s))
    by (apply split_join, split_words).
  assert (Hl : lower (Explorer.normalize s) = Explorer.normalize s)
    by (apply map_fixed, normalize_lowered).
  repeat split.
  - apply split_words.
  - exact Hs.
  - exact Hl.
  - unfold Explorer.normalize at 1. now rewrite Hl, Hs.
Qed.

(** A text free of white space occurs at the head of [x ++ c :: y], [c] a
    white-space character, exactly when it occurs at the head of [x]. *)
Lemma startswith_before_space (p x y : text) (c : ascii) :
  Forall nonspace p -> isspace c = true ->
  startswith p (x ++ c :: y) = startswith p x.
Proof.
  intros Hp Hc. revert x. induction Hp as [|a p Ha Hp IH]; intros x.
  - reflexivity.
  - destruct x as [|b x]; simpl.
    + destruct (Ascii.eqb a c) eqn:He; [|reflexivity].
      apply Ascii.eqb_eq in He as ->. unfold nonspace in Ha.
      rewrite Hc in Ha. discriminate.
    + now rewrite IH.
Qed.

Lemma startswith_before_spaces (p x ws : text) :
  Forall nonspace p -> Forall (fun c => isspace c = true) ws ->
  startswith p (x ++ ws) = startswith p x.
Proof.
  intros Hp Hws. destruct Hws as [|c ws Hc _].
  - now rewrite app_nil_r.
  - now apply startswith_before_space.
Qed.

Lemma startswith_join_from (p s cur : text) :
  Forall nonspace p -> cur <> [] ->
  startswith p (join (str " ") (split_from cur s))
  = startswith p (rev cur ++ s).
Proof.
  intros Hp. revert cur. induction s as [|c s IH]; intros cur Hcur; simpl.
  - destruct cur; [contradiction|]. now rewrite app_nil_r.
  - destruct (isspace c) eqn:Hc.
    + destruct cur as [|x cur]; [contradiction|].
      rewrite startswith_before_space by assumption.
      destruct (split_from [] s) as [|w ws].
      * reflexivity.
      * change (join (str " ") (rev (x :: cur) :: w :: ws))
          with (rev (x :: cur) ++ " "%char :: join (str " ") (w :: ws)).
        now apply startswith_before_space.
    + rewrite IH by discriminate. simpl. now rewrite <- app_assoc.
Qed.

Lemma startswith_join_split (p s : text) :
  Forall nonspace p ->
  startswith p (join (str " ") (split s)) = startswith p (lstrip s).
Proof.
  intros Hp. unfold split. induction s as [|c s IH]; [reflexivity|].
  simpl. destruct (isspace c) eqn:Hc; [exact IH|].
  now rewrite startswith_join_from by (assumption || discriminate).
Qed.

Lemma lstrip_spaces (s : text) :
  exists ws, s = ws ++ lstrip s /\ Forall (fun c => isspace c = true) ws.
Proof.
  induction s as [|c s (ws & Hs & Hws)]; [now exists []|].
  simpl. destruct (isspace c) eqn:Hc.
  - exists (c :: ws). split; [now rewrite Hs at 1|now constructor].
  - now exists [].
Qed.

Lemma rstrip_spaces (s : text) :
  exists ws, s = rstrip s ++ ws /\ Forall (fun c => isspace c = true) ws.
Proof.
  destruct (lstrip_spaces (rev s)) as (ws & Hs & Hws).
  exists (rev ws). split; [|now apply Forall_rev].
  unfold rstrip. rewrite <- rev_app_distr, <- Hs. now rewrite rev_involutive.
Qed.

Lemma startswith_strip (p s : text) :
  Forall nonspace p -> startswith p (strip s) = startswith p (lstrip s).
Proof.
  intros Hp. unfold strip.
  destruct (rstrip_spaces (lstrip s)) as (ws & Hs & Hws).
  rewrite Hs at 2. now rewrite startswith_before_spaces.
Qed.

(** The prefix test on the normalized text and the one on the stripped,
    lower-cased text agree. *)
Lemma prefix_tests_agree (p t : text) :
  Forall nonspace p ->
  startswith p (Explorer.normalize t) = startswith p (strip (lower t)).
Proof.
  intros Hp. unfold Explorer.normalize.
  now rewrite startswith_join_split, startswith_strip.
Qed.

(** Occurrences of a text free of white space. *)
Lemma startswith_at_space (w y : text) (c : ascii) :
  w <> [] -> Forall nonspace w -> isspace c = true ->
  startswith w (c :: y) = false.
Proof.
  intros Hne Hw Hc. destruct w as [|a w]; [contradiction|].
  inversion Hw as [|? ? Ha _]; subst. simpl.
  destruct (Ascii.eqb a c) eqn:He; [|reflexivity].
  apply Ascii.eqb_eq in He as ->. unfold nonspace in Ha.
  rewrite Hc in Ha. discriminate.
Qed.

Lemma contains_nil (w : text) : w <> [] -> contains w [] = false.
Proof. destruct w; [contradiction|reflexivity]. Qed.

Lemma contains_across_space (w x y : text) (c : ascii) :
  w <> [] -> Forall nonspace w -> isspace c = true ->
  contains w (x ++ c :: y) = contains w x || contains w y.
Proof.
  intros Hne Hw Hc. induction x as [|a x IH].
  - rewrite contains_nil by assumption. cbn [app contains orb].
    now rewrite startswith_at_space by assumption.
  - change ((a :: x) ++ c :: y) with (a :: (x ++ c :: y)).
    cbn [contains]. rewrite IH.
    change (a :: (x ++ c :: y)) with ((a :: x) ++ c :: y).
    rewrite startswith_before_space by assumption.
    now rewrite orb_assoc.
Qed.

Lemma contains_split_from (w s cur : text) :
  w <> [] -> Forall nonspace w ->
  existsb (contains w) (split_from cur s) = contains w (rev cur ++ s).
Proof.
  intros Hne Hw. revert cur. induction s as [|c s IH]; intros cur;
    cbn [split_from].
  - rewrite app_nil_r. destruct cur as [|x cur].
    + cbn [existsb rev]. now rewrite contains_nil.
    + cbn [existsb]. now rewrite orb_false_r.
  - destruct (isspace c) eqn:Hc.
    + rewrite contains_across_space by assumption.
      pose proof (IH []) as IH0. cbn [rev app] in IH0.
      destruct cur as [|x cur].
      * rewrite IH0. cbn [rev]. now rewrite contains_nil.
      * cbn [existsb]. now rewrite IH0.
    + rewrite IH. cbn [rev]. now rewrite <- app_assoc.
Qed.

Lemma contains_split (w s : text) :
  w <> [] -> Forall nonspace w ->
  existsb (contains w) (split s) = contains w s.
Proof. intros Hne Hw. apply (contains_split_from s [] Hne Hw). Qed.

Lemma split_from_spaces (ws cur : text) :
  Forall (fun c => isspace c = true) ws ->
  split_from cur ws = split_from cur [].
Proof.
  intros Hws. revert cur. induction Hws as [|c ws Hc _ IH]; intros cur;
    [reflexivity|].
  simpl. rewrite Hc. destruct cur; [apply IH|]. now rewrite IH.
Qed.

Lemma split_from_trailing (x ws cur : text) :
  Forall (fun c => isspace c = true) ws ->
  split_from cur (x ++ ws) = split_from cur x.
Proof.
  intros Hws. revert cur. induction x as [|a x IH]; intros cur.
  - now apply split_from_spaces.
  - simpl. destruct (isspace a); [destruct cur|]; now rewrite ?IH.
Qed.

Lemma split_lstrip (s : text) : split (lstrip s) = split s.
Proof.
  unfold split. induction s as [|c s IH]; [reflexivity|].
  simpl. destruct (isspace c) eqn:Hc; [exact IH|].
  simpl. now rewrite Hc.
Qed.

Lemma split_strip (s : text) : split (strip s) = split s.
Proof.
  unfold strip.
  destruct (rstrip_spaces (lstrip s)) as (ws & Hs & Hws).
  rewrite <- (split_lstrip s).
  transitivity (split (rstrip (lstrip s) ++ ws)); [|now rewrite <- Hs].
  unfold split. symmetry. now apply split_from_trailing.
Qed.

(** The substring test on the normalized text and the one on the stripped,
    lower-cased text agree. *)
Lemma substring_tests_agree (w t : text) :
  w <> [] -> Forall nonspace w ->
  contains w (Explorer.normalize t) = contains w (strip (lower t)).
Proof.
  intros Hne Hw.
  rewrite <- (contains_split (Explorer.normalize t) Hne Hw).
  rewrite <- (contains_split (strip (lower t)) Hne Hw).
  unfold Explorer.normalize at 1.
  rewrite split_join by apply split_words.
  now rewrite split_strip.
Qed.

End Tokens.

(** ** The two servers side by side *)

Lemma existsb_agree (A : Type) (f g : A -> bool) (l : list A) :
  (forall x, In x l -> f x = g x) -> existsb f l = existsb g l.
Proof.
  induction l as [|x l IH]; intros H; simpl; [reflexivity|].
  rewrite (H x) by now left. rewrite IH; [reflexivity|].
  intros y Hy. apply H. now right.
Qed.

Lemma forallb_Forall (A : Type) (f : A -> bool) (l : list A) :
  forallb f l = true -> Forall (fun x => f x = true) l.
Proof.
  intros H. apply Forall_forall. now apply forallb_forall.
Qed.

Lemma nonspace_text (w : text) :
  forallb (fun c => negb (isspace c)) w = true ->
  Forall (fun c => isspace c = false) w.
Proof.
  intros H. apply forallb_Forall in H.
  eapply Forall_impl; [|exact H]. intros c Hc. now apply negb_true_iff.
Qed.

Lemma allowed_prefixes_nonspace (p : text) :
  In p Explorer.allowed_prefixes -> Forall (fun c => isspace c = false) p.
Proof.
  intros Hin. apply nonspace_text.
  assert (Hall : forallb (fun p => forallb (fun c => negb (isspace c)) p)
                   Explorer.allowed_prefixes = true) by reflexivity.
  rewrite forallb_forall in Hall. now apply Hall.
Qed.

(** X19.  The two servers make the same allowlist decision on every query
    and build the same executed text from every accepted text: collapsing
    the white space, which only the stdio server does, changes neither the
    prefix test nor the search for [limit].  Hence on a query without a
    backslash, whatever the stdio server accepts the SSE server accepts
    too, with the same accepted text. *)
Theorem servers_agree_on_prefix_and_limit (q : text) :
  let t := Explorer.trim_query q in
  existsb (fun p => startswith p (Explorer.normalize t))
          Explorer.allowed_prefixes
  = existsb (fun p => startswith p (strip (lower t)))
            ExplorerSSE.allowed_prefixes
  /\ (forall a row_limit,
        Explorer.executed_text a row_limit
        = ExplorerSSE.executed_text a row_limit)
  /\ (~ In "\"%char q ->
      forall a,
        Explorer.validate q = Explorer.Accepted a ->
        ExplorerSSE.validate q = ExplorerSSE.Accepted a).
Proof.
  cbv zeta.
  assert (Hp : existsb (fun p => startswith p
                                   (Explorer.normalize (Explorer.trim_query q)))
                 Explorer.allowed_prefixes
               = existsb (fun p => startswith p
                                     (strip (lower (Explorer.trim_query q))))
                   ExplorerSSE.allowed_prefixes).
  { apply existsb_agree. intros p Hin.
    apply prefix_tests_agree. now apply allowed_prefixes_nonspace. }
  split; [exact Hp|]. split.
  - intros a row_limit.
    unfold Explorer.executed_text, ExplorerSSE.executed_text,
      Explorer.injects_limit, ExplorerSSE.injects_limit.
    rewrite (@prefix_tests_agree (str "select") a)
      by (apply nonspace_text; reflexivity).
    rewrite (@substring_tests_agree (str "limit") a)
      by (discriminate || (apply nonspace_text; reflexivity)).
    now rewrite andb_comm.
  - intros Hq a Ha.
    destruct (validate_accepted _ Ha) as (-> & Hm & Hpre & _).
    assert (Hs : ExplorerSSE.contains_multiple_statements
                   (ExplorerSSE.trim_query q)
                 = Explorer.contains_multiple_statements
                     (Explorer.trim_query q)).
    { apply scanners_agree_from.
      change ExplorerSSE.trim_query with Explorer.trim_query.
      now apply trim_query_keeps_absent. }
    unfold ExplorerSSE.validate. rewrite Hs, Hm.
    change ExplorerSSE.trim_query with Explorer.trim_query.
    now rewrite <- Hp, Hpre.
Qed.

Lemma servers_agree_on_prefix_and_limit_witness :
  ExplorerSSE.validate (str "  Select   *
 from t ;") = ExplorerSSE.Accepted (str "Select   *
 from t").
Proof.
  apply (proj2 (proj2 (servers_agree_on_prefix_and_limit (str "  Select   *
 from t ;")))).
  - vm_compute. intuition discriminate.
  - reflexivity.
Defined.

(** ** The configuration *)

Lemma truthy_default (rt : Runtime) (name default : text) :
  default <> [] ->
  truthy (getenv_or rt name default) = true <-> rt_getenv rt name <> Some [].
Proof.
  intros Hd. unfold getenv_or.
  destruct (rt_getenv rt name) as [[|c v]|]; simpl.
  - split; [discriminate|intros H; now destruct H].
  - split; [discriminate|reflexivity].
  - destruct default; [contradiction|]. split; [discriminate|reflexivity].
Qed.

Lemma truthy_set (rt : Runtime) (name : text) :
  truthy (ExplorerSSE.getenv_text rt name) = true <->
  exists v, rt_getenv rt name = Some v /\ v <> [].
Proof.
  unfold ExplorerSSE.getenv_text.
  destruct (rt_getenv rt name) as [[|c v]|]; simpl.
  - split; [discriminate|]. intros (v & [= <-] & H). contradiction.
  - split; [|reflexivity]. intros _. eexists. split; [reflexivity|discriminate].
  - split; [discriminate|]. intros (v & H & _). discriminate.
Qed.

Lemma all_three (P : text -> Prop) (a b c : text) :
  (forall name, In name [a; b; c] -> P name) <-> P a /\ P b /\ P c.
Proof.
  split.
  - intros H. repeat split; apply H; simpl; tauto.
  - intros (Ha & Hb & Hc) name [<-|[<-|[<-|[]]]]; assumption.
Qed.

(** X20.  [get_db_config] of the stdio server succeeds exactly when the
    port text is an integer and none of MYSQL_USER, MYSQL_PASSWORD and
    MYSQL_DATABASE is set to the empty text: a variable that is not set
    falls back on its default.  That of the SSE server has no default for
    the three: it succeeds exactly when the port text is an integer and
    each of the three is set and not empty.  So an environment that
    serves the SSE server serves the stdio server too. *)
Theorem configuration_is_complete_when (rt : Runtime) :
  let port_text := getenv_or rt (str "MYSQL_PORT") (str "3306") in
  let names :=
    [str "MYSQL_USER"; str "MYSQL_PASSWORD"; str "MYSQL_DATABASE"] in
  ((exists cfg, Explorer.get_db_config rt = Return cfg) <->
   rt_int rt port_text <> None
   /\ forall name, In name names -> rt_getenv rt name <> Some [])
  /\ ((exists cfg, ExplorerSSE.get_db_config rt = Return cfg) <->
      rt_int rt port_text <> None
      /\ forall name, In name names ->
                      exists v, rt_getenv rt name = Some v /\ v <> [])
  /\ ((exists cfg, ExplorerSSE.get_db_config rt = Return cfg) ->
      exists cfg, Explorer.get_db_config rt = Return cfg).
Proof.
  cbv zeta. rewrite !all_three.
  assert (Hmain : (exists cfg, Explorer.get_db_config rt = Return cfg) <->
                  rt_int rt (getenv_or rt (str "MYSQL_PORT") (str "3306"))
                  <> None
                  /\ rt_getenv rt (str "MYSQL_USER") <> Some []
                  /\ rt_getenv rt (str "MYSQL_PASSWORD") <> Some []
                  /\ rt_getenv rt (str "MYSQL_DATABASE") <> Some []).
  { pose proof (@truthy_default rt (str "MYSQL_USER") (str "root")
                  ltac:(discriminate)) as Tu.
    pose proof (@truthy_default rt (str "MYSQL_PASSWORD") (str "123456")
                  ltac:(discriminate)) as Tp.
    pose proof (@truthy_default rt (str "MYSQL_DATABASE") (str "aircraft")
                  ltac:(discriminate)) as Td.
    unfold Explorer.get_db_config.
    destruct (rt_int rt _) as [p|].
    - cbn [user password database].
      destruct (truthy (getenv_or rt (str "MYSQL_USER") (str "root")));
        destruct (truthy (getenv_or rt (str "MYSQL_PASSWORD") (str "123456")));
        destruct (truthy (getenv_or rt (str "MYSQL_DATABASE") (str "aircraft")));
        simpl;
        (split;
         [intros [cfg H];
          first [discriminate
                |split; [discriminate|]; split; [now apply Tu|];
                 split; [now apply Tp|now apply Td]]
         |intros (_ & Hu & Hp & Hd);
          apply Tu in Hu; apply Tp in Hp; apply Td in Hd;
          first [discriminate|eexists; reflexivity]]).
    - split; [intros [cfg H]; discriminate|intros [H _]; now destruct H]. }
  assert (Hsse : (exists cfg, ExplorerSSE.get_db_config rt = Return cfg) <->
                 rt_int rt (getenv_or rt (str "MYSQL_PORT") (str "3306"))
                 <> None
                 /\ (exists v, rt_getenv rt (str "MYSQL_USER") = Some v
                               /\ v <> [])
                 /\ (exists v, rt_getenv rt (str "MYSQL_PASSWORD") = Some v
                               /\ v <> [])
                 /\ (exists v, rt_getenv rt (str "MYSQL_DATABASE") = Some v
                               /\ v <> [])).
  { pose proof (truthy_set rt (str "MYSQL_USER")) as Tu.
    pose proof (truthy_set rt (str "MYSQL_PASSWORD")) as Tp.
    pose proof (truthy_set rt (str "MYSQL_DATABASE")) as Td.
    unfold ExplorerSSE.get_db_config.
    destruct (rt_int rt _) as [p|].
    - cbn [user password database].
      destruct (truthy (ExplorerSSE.getenv_text rt (str "MYSQL_USER")));
        destruct (truthy (ExplorerSSE.getenv_text rt (str "MYSQL_PASSWORD")));
        destruct (truthy (ExplorerSSE.getenv_text rt (str "MYSQL_DATABASE")));
        simpl;
        (split;
         [intros [cfg H];
          first [discriminate
                |split; [discriminate|]; split; [now apply Tu|];
                 split; [now apply Tp|now apply Td]]
         |intros (_ & Hu & Hp & Hd);
          apply Tu in Hu; apply Tp in Hp; apply Td in Hd;
          first [discriminate|eexists; reflexivity]]).
    - split; [intros [cfg H]; discriminate|intros [H _]; now destruct H]. }
  split; [exact Hmain|]. split; [exact Hsse|].
  intros H. apply Hmain. apply Hsse in H as (Hport & Hu & Hp & Hd).
  split; [exact Hport|].
  destruct Hu as (u & Hu & Hune), Hp as (pw & Hp & Hpne),
    Hd as (db & Hd & Hdne).
  rewrite Hu, Hp, Hd. repeat split; intros [= ->]; contradiction.
Qed.

Lemma configuration_is_complete_when_witness :
  exists cfg, Explorer.get_db_config Demo.rt = Return cfg.
Proof.
  apply (proj2 (proj2 (configuration_is_complete_when Demo.rt))).
  eexists. reflexivity.
Defined.
